(** * DSLib: packed-row data sets (DataSet.h, DataSet.cpp, Helpers.cpp)

    A shallow embedding of the DSLib data-set library.  A [DataSet] owns a
    vector of [DataVar] (the columns) and a vector of [DataElement] (the
    rows); every row is a raw [char] buffer read through the offsets and
    sizes of the columns.

    Conventions of the embedding:
    - [size_t] is a 64-bit unsigned integer, kept in [Z] with the wrap-around
      written out ([size_t_wrap]); [int] is 32-bit, a [size_t] is cast to
      it by [to_int];
    - a [char] is an [ascii]; a [char] buffer is a list of cells, a cell
      holding either a byte or the indeterminate value left by [new char[n]];
    - a C++ exception is [Throw], undefined behaviour (a read or write
      outside a buffer, a null dereference, an index past the end of a
      vector) is [Undefined]. *)

From Stdlib Require Import ZArith List String Ascii Bool Lia.
Import ListNotations.

Local Open Scope string_scope.
Local Open Scope list_scope.
Local Open Scope Z_scope.

(** ** Machine integers *)

Definition SIZE_MAX : Z := 2 ^ 64 - 1.
Definition INT_MAX : Z := 2 ^ 31 - 1.
Definition INT_MIN : Z := - 2 ^ 31.

(** Arithmetic on [size_t] is modulo [2 ^ 64]. *)
Definition size_t_wrap (z : Z) : Z := z mod 2 ^ 64.

(** [(int) n] for a [size_t n]: the value modulo [2 ^ 32], read as signed. *)
Definition to_int (z : Z) : Z := (z + 2 ^ 31) mod 2 ^ 32 - 2 ^ 31.

(** [s.size()] of a [std::string]. *)
Definition string_size (s : string) : Z := Z.of_nat (String.length s).

(** ** Exceptions and undefined behaviour *)

Inductive exn : Type :=
| DataException (what : string)
| DataIOException (what : string)
| out_of_range (what : string)
| invalid_argument (what : string).

Inductive result (A : Type) : Type :=
| Ok (a : A)
| Throw (e : exn)
| Undefined.

Arguments Ok {A} a.
Arguments Throw {A} e.
Arguments Undefined {A}.

Definition bind {A B : Type} (r : result A) (k : A -> result B) : result B :=
  match r with
  | Ok a => k a
  | Throw e => Throw e
  | Undefined => Undefined
  end.

Notation "x <- r ;; k" := (bind r (fun x => k))
  (at level 61, r at next level, right associativity).

(** A loop over a vector whose body may throw: [for (x : xs) acc = body(acc, x)]. *)
Fixpoint for_each {A S : Type} (body : S -> A -> result S) (xs : list A) (acc : S)
  : result S :=
  match xs with
  | [] => Ok acc
  | x :: xs' => acc' <- body acc x ;; for_each body xs' acc'
  end.

(** The same loop building one result per element. *)
Fixpoint map_result {A B : Type} (f : A -> result B) (xs : list A) : result (list B) :=
  match xs with
  | [] => Ok []
  | x :: xs' => y <- f x ;; ys <- map_result f xs' ;; Ok (y :: ys)
  end.

(** ** Raw memory *)

(** One [char] of a buffer: [Some c] once written, [None] while it still
    holds the indeterminate value of a fresh allocation. *)
Definition cell : Type := option ascii.

Definition buffer : Type := list cell.

(** [new char[n]]. *)
Definition new_char (n : Z) : buffer := repeat None (Z.to_nat n).

Definition buffer_size (b : buffer) : Z := Z.of_nat (List.length b).

(** The bytes of a [std::string], as [c_str()] or [data()] exposes them. *)
Definition chars (s : string) : buffer := map Some (list_ascii_of_string s).

(** [memcpy(dst + doff, src + soff, n)]; outside either buffer the behaviour
    is undefined. *)
Definition memcpy (dst : buffer) (doff : Z) (src : buffer) (soff : Z) (n : Z)
  : result buffer :=
  if (0 <=? doff) && (0 <=? soff) && (0 <=? n)
     && (doff + n <=? buffer_size dst) && (soff + n <=? buffer_size src)
  then Ok (firstn (Z.to_nat doff) dst
           ++ firstn (Z.to_nat n) (skipn (Z.to_nat soff) src)
           ++ skipn (Z.to_nat (doff + n)) dst)
  else Undefined.

(** A [char*] into a row: the buffer it points into and the position. *)
Record ptr : Type := mkptr { base : buffer; pos : Z }.

(** The [n] cells a pointer designates, when they lie inside its buffer. *)
Definition deref (p : ptr) (n : Z) : result buffer :=
  if (0 <=? pos p) && (0 <=? n) && (pos p + n <=? buffer_size (base p))
  then Ok (firstn (Z.to_nat n) (skipn (Z.to_nat (pos p)) (base p)))
  else Undefined.

(** The cells as bytes; reading an indeterminate cell is undefined. *)
Fixpoint read_chars (b : buffer) : result (list ascii) :=
  match b with
  | [] => Ok []
  | Some c :: b' => cs <- read_chars b' ;; Ok (c :: cs)
  | None :: _ => Undefined
  end.

(** [memcmp] of two byte sequences of one length, bytes compared unsigned. *)
Fixpoint memcmp_chars (a b : list ascii) : Z :=
  match a, b with
  | x :: a', y :: b' =>
      if Ascii.eqb x y then memcmp_chars a' b'
      else if (nat_of_ascii x <? nat_of_ascii y)%nat then -1 else 1
  | _, _ => 0
  end.

(** [memcmp(a, b, n)]. *)
Definition memcmp (a b : buffer) (n : Z) : result Z :=
  xs <- deref (mkptr a 0) n ;;
  ys <- deref (mkptr b 0) n ;;
  cs <- read_chars xs ;;
  ds <- read_chars ys ;;
  Ok (memcmp_chars cs ds).

(** ** DataVar *)

Module DataVar.

Inductive VarType : Type := EXPLANATORY | RESPONSE | OTHER.
Inductive DataType : Type := CATEGORICAL | QUANTITATIVE.

Definition VarType_eqb (a b : VarType) : bool :=
  match a, b with
  | EXPLANATORY, EXPLANATORY | RESPONSE, RESPONSE | OTHER, OTHER => true
  | _, _ => false
  end.

Definition DataType_eqb (a b : DataType) : bool :=
  match a, b with
  | CATEGORICAL, CATEGORICAL | QUANTITATIVE, QUANTITATIVE => true
  | _, _ => false
  end.

Record t : Type := make {
  identifier : string;
  variable_type : VarType;
  data_type : DataType;
  size : Z;
  offset : Z
}.

Definition get_identifier (d : t) : string := identifier d.
Definition get_size (d : t) : Z := size d.
Definition get_offset (d : t) : Z := offset d.

Definition set_offset (d : t) (off : Z) : t :=
  make (identifier d) (variable_type d) (data_type d) (size d) off.
Definition set_size (d : t) (sz : Z) : t :=
  make (identifier d) (variable_type d) (data_type d) sz (offset d).
Definition set_data_type (d : t) (dt : DataType) : t :=
  make (identifier d) (variable_type d) dt (size d) (offset d).

(** [operator==]: all five members. *)
Definition eqb (a b : t) : bool :=
  String.eqb (identifier a) (identifier b)
  && VarType_eqb (variable_type a) (variable_type b)
  && DataType_eqb (data_type a) (data_type b)
  && (size a =? size b) && (offset a =? offset b).

(** [operator!=]. *)
Definition neqb (a b : t) : bool := negb (eqb a b).

(** [compute_elem_size]: the sum of the sizes, in [size_t]. *)
Definition compute_elem_size (vars : list t) : Z :=
  fold_left (fun sum var => size_t_wrap (sum + get_size var)) vars 0.

End DataVar.

Import DataVar (EXPLANATORY, RESPONSE, OTHER, CATEGORICAL, QUANTITATIVE).

(** ** DataElement and DataSet *)

(** A row.  The [set] back pointer of the C++ class is the data set the row
    is stored in; the methods that follow it take that set as an argument. *)
Record DataElement : Type := mkElement { data : buffer }.

Record DataSet : Type := mkDataSet {
  data_elements : list DataElement;
  data_variables : list DataVar.t
}.

Definition get_element_size (ds : DataSet) : Z :=
  DataVar.compute_elem_size (data_variables ds).

Definition get_num_elements (ds : DataSet) : Z :=
  Z.of_nat (List.length (data_elements ds)).

Definition get_num_vars (ds : DataSet) : Z :=
  Z.of_nat (List.length (data_variables ds)).

(** [DataSet::DataSet(std::vector<DataVar>)]: the variables are stored as
    they are given. *)
Definition DataSet_new (vars : list DataVar.t) : result DataSet :=
  if Z.of_nat (List.length vars) =? 0
  then Throw (DataException "Too few variables for DataSet.")
  else Ok (mkDataSet [] vars).

(** [DataElement::DataElement(char* dat, DataSet* parent_set)]: a buffer of the element
    size of the set, filled from [dat]. *)
Definition DataElement_new (dat : buffer) (set : DataSet) : result DataElement :=
  let sz := get_element_size set in
  d <- memcpy (new_char sz) 0 dat 0 sz ;;
  Ok (mkElement d).

(** [DataElement::DataElement(const DataElement&)]. *)
Definition DataElement_copy (e : DataElement) (set : DataSet) : result DataElement :=
  let d_size := get_element_size set in
  d <- memcpy (new_char d_size) 0 (data e) 0 d_size ;;
  Ok (mkElement d).

Definition get_raw_data (e : DataElement) : buffer := data e.

(** [DataElement::reformat]. *)
Definition reformat (e : DataElement) (new_data : buffer) : DataElement :=
  mkElement new_data.

(** [DataSet::DataSet(const DataSet&)] and [operator=]. *)
Definition DataSet_copy (ds : DataSet) : result DataSet :=
  es <- map_result (fun de => DataElement_copy de ds) (data_elements ds) ;;
  Ok (mkDataSet es (data_variables ds)).

(** [data_elements[index]]: no bounds check. *)
Definition get_element (ds : DataSet) (index : Z) : result DataElement :=
  match (if 0 <=? index then nth_error (data_elements ds) (Z.to_nat index) else None) with
  | Some e => Ok e
  | None => Undefined
  end.

(** [get_var_by_id]: the first variable of that name, or [nullptr]. *)
Definition get_var_by_id (ds : DataSet) (id : string) : option DataVar.t :=
  find (fun d => String.eqb (DataVar.get_identifier d) id) (data_variables ds).

(** [get_var_ids]. *)
Definition get_var_ids (ds : DataSet) : list string :=
  map DataVar.get_identifier (data_variables ds).

(** [DataElement::get_field(std::string&)]. *)
Definition get_field (set : DataSet) (e : DataElement) (id : string) : result ptr :=
  match get_var_by_id set id with
  | Some v => Ok (mkptr (data e) (DataVar.get_offset v))
  | None => Undefined
  end.

(** [DataElement::get_field(const DataVar&)]. *)
Definition get_field_var (e : DataElement) (var : DataVar.t) : ptr :=
  mkptr (data e) (DataVar.get_offset var).

(** [DataElement::get_field(int)]. *)
Definition get_field_int (set : DataSet) (e : DataElement) (index : Z) : result ptr :=
  if (index <? 0) || (index >=? to_int (get_num_vars set))
  then Throw (out_of_range "Attempted to access data element field that was out of range.")
  else
    match nth_error (get_var_ids set) (Z.to_nat index) with
    | Some id => get_field set e id
    | None => Undefined
    end.

(** The first loop of [remove_var]: the variables that stay, those placed
    after the removed one moved down by its size. *)
Definition recompute_offsets (vars : list DataVar.t) (var : DataVar.t) : list DataVar.t :=
  flat_map
    (fun d =>
       if DataVar.neqb d var
       then [if DataVar.offset d >? DataVar.offset var
             then DataVar.set_offset d (size_t_wrap (DataVar.offset d - DataVar.size var))
             else d]
       else [])
    vars.

(** The body of the second loop of [remove_var] for one row: a fresh buffer
    filled variable by variable. *)
Definition repack (old_variables new_variables : list DataVar.t) (new_elem_size : Z)
    (d : DataElement) : result DataElement :=
  new_data <-
    for_each
      (fun new_data v =>
         match find (fun ent => DataVar.eqb ent v) old_variables with
         | Some found =>
             memcpy new_data (DataVar.offset v)
                    (get_raw_data d) (DataVar.offset found) (DataVar.size v)
         | None => Ok new_data
         end)
      new_variables (new_char new_elem_size) ;;
  Ok (reformat d new_data).

(** [DataSet::remove_var(const DataVar&)]. *)
Definition remove_var (ds : DataSet) (var : DataVar.t) : result DataSet :=
  if negb (existsb (fun d => DataVar.eqb d var) (data_variables ds))
  then Throw (DataException "Variable to be removed not in data set.")
  else
    let new_variables := recompute_offsets (data_variables ds) var in
    let new_elem_size := DataVar.compute_elem_size new_variables in
    es <- map_result (repack (data_variables ds) new_variables new_elem_size)
                     (data_elements ds) ;;
    Ok (mkDataSet es new_variables).

(** [DataSet::remove_var(const std::string&)]: the pointer returned by
    [get_var_by_id] is dereferenced as it is. *)
Definition remove_var_id (ds : DataSet) (id : string) : result DataSet :=
  match get_var_by_id ds id with
  | Some var => remove_var ds var
  | None => Undefined
  end.

(** [v.insert(v.begin() + index, x)]. *)
Definition vector_insert {A : Type} (v : list A) (index : Z) (x : A) : result (list A) :=
  if (0 <=? index) && (index <=? Z.of_nat (List.length v))
  then Ok (firstn (Z.to_nat index) v ++ x :: skipn (Z.to_nat index) v)
  else Undefined.

(** [v.erase(v.begin() + index)]. *)
Definition vector_erase {A : Type} (v : list A) (index : Z) : result (list A) :=
  if (0 <=? index) && (index <? Z.of_nat (List.length v))
  then Ok (firstn (Z.to_nat index) v ++ skipn (S (Z.to_nat index)) v)
  else Undefined.

(** [DataSet::insert_element]. *)
Definition insert_element (ds : DataSet) (index : Z) (dat : buffer) : result DataSet :=
  ins <- DataElement_new dat ds ;;
  es <- vector_insert (data_elements ds) index ins ;;
  Ok (mkDataSet es (data_variables ds)).

(** [DataSet::append_element]. *)
Definition append_element (ds : DataSet) (dat : buffer) : result DataSet :=
  ins <- DataElement_new dat ds ;;
  Ok (mkDataSet (data_elements ds ++ [ins]) (data_variables ds)).

(** [DataSet::remove_element]. *)
Definition remove_element (ds : DataSet) (index : Z) : result DataSet :=
  if (index <? 0) || (index >=? to_int (get_num_elements ds))
  then Throw (out_of_range "Element to be removed out of range.")
  else
    es <- vector_erase (data_elements ds) index ;;
    Ok (mkDataSet es (data_variables ds)).

(** [DataSet::remove_all]. *)
Definition remove_all (ds : DataSet) : DataSet := mkDataSet [] (data_variables ds).

(** [DataSet::get_possible_values].  The counter [cnt] is an [int]; it is
    at most the number of rows. *)
Definition get_possible_values (ds : DataSet) (id : string) : result Z :=
  match get_var_by_id ds id with
  | None => Ok 0
  | Some v =>
      if DataVar.DataType_eqb (DataVar.data_type v) QUANTITATIVE then Ok (-1)
      else
        r <- for_each
               (fun (st : Z * list buffer) d =>
                  let (cnt, col) := st in
                  cmp <- for_each
                           (fun (cmp : bool) c =>
                              m <- memcmp c (data d) (get_element_size ds) ;;
                              Ok (if m =? 0 then true else cmp))
                           col false ;;
                  Ok (if negb cmp then (cnt + 1, col ++ [data d]) else (cnt, col)))
               (data_elements ds) (0, []) ;;
        Ok (fst r)
  end.

(** [DataSet::all_quantitative] and [DataSet::all_categorical]. *)
Definition all_quantitative (ds : DataSet) : bool :=
  forallb (fun dv => negb (DataVar.DataType_eqb (DataVar.data_type dv) CATEGORICAL))
          (data_variables ds).

Definition all_categorical (ds : DataSet) : bool :=
  forallb (fun dv => negb (DataVar.DataType_eqb (DataVar.data_type dv) QUANTITATIVE))
          (data_variables ds).

(** The template parameter [T] of [forge_variable]: a value type with its
    [sizeof] and the bytes [memcpy] reads from an object of it. *)
Class ValueType (T : Type) : Type := {
  sizeof : Z;
  object_bytes : T -> buffer;
  sizeof_range : 0 < sizeof < 2 ^ 64;
  object_bytes_size : forall x : T, buffer_size (object_bytes x) = sizeof
}.

Arguments sizeof T {_}.

(** [DataSet::forge_variable<T>]. *)
Definition forge_variable {T : Type} `{ValueType T}
    (ds : DataSet) (new_var_id mut_id : string) (mut : ptr -> T) : result DataSet :=
  if String.eqb new_var_id mut_id
  then Throw (DataException
                "Name for variable to be forged conflicts with original variable.")
  else
    match get_var_by_id ds mut_id with
    | None => Throw (DataException "Failed to find variable to forge from.")
    | Some src =>
        let old_element_size := get_element_size ds in
        let new_var :=
          DataVar.make new_var_id (DataVar.variable_type src) (DataVar.data_type src)
                       (sizeof T) old_element_size in
        let pushed := mkDataSet (data_elements ds) (data_variables ds ++ [new_var]) in
        let new_elem_size := get_element_size pushed in
        es <- map_result
                (fun de =>
                   new_data <- memcpy (new_char new_elem_size) 0
                                      (get_raw_data de) 0 old_element_size ;;
                   field <- get_field pushed de mut_id ;;
                   let new_field_data := mut field in
                   new_data <- memcpy new_data old_element_size
                                      (object_bytes new_field_data) 0
                                      (DataVar.size new_var) ;;
                   Ok (reformat de new_data))
                (data_elements ds) ;;
        Ok (mkDataSet es (data_variables pushed))
    end.

(** What a call of the caller's transform [mut] does: it returns a value,
    or it throws. *)
Inductive transformed (T : Type) : Type :=
| Yields (x : T)
| Raises.

Arguments Yields {T} x.
Arguments Raises {T}.

(** The row loop of [forge_variable], [step] being its body: [Some] the
    row reformatted, or [None] when the transform throws.  The loop ends
    with every row reformatted ([inl]), or it is left at the first row on
    which the transform throws ([inr]): the rows before it are reformatted,
    that row and the rows after it are as they were. *)
Fixpoint forge_rows (step : DataElement -> result (option DataElement))
    (rows : list DataElement) : result (list DataElement + list DataElement) :=
  match rows with
  | [] => Ok (inl [])
  | de :: rows' =>
      r <- step de ;;
      match r with
      | None => Ok (inr (de :: rows'))
      | Some de' =>
          rest <- forge_rows step rows' ;;
          match rest with
          | inl es => Ok (inl (de' :: es))
          | inr es => Ok (inr (de' :: es))
          end
      end
  end.

(** How a call of [forge_variable] that passes its two checks ends: it
    returns, or an exception of the transform leaves it; either way with
    the store it leaves behind. *)
Inductive forged : Type :=
| Forged (ds : DataSet)
| Escaped (ds : DataSet).

(** [DataSet::forge_variable<T>] with a transform that may throw.  The new
    variable is pushed before the loop over the rows and nothing catches
    an exception of [mut]: it leaves the variable pushed and the rows as
    [forge_rows] says. *)
Definition forge_variable_with {T : Type} `{ValueType T}
    (ds : DataSet) (new_var_id mut_id : string) (mut : ptr -> transformed T)
  : result forged :=
  if String.eqb new_var_id mut_id
  then Throw (DataException
                "Name for variable to be forged conflicts with original variable.")
  else
    match get_var_by_id ds mut_id with
    | None => Throw (DataException "Failed to find variable to forge from.")
    | Some src =>
        let old_element_size := get_element_size ds in
        let new_var :=
          DataVar.make new_var_id (DataVar.variable_type src) (DataVar.data_type src)
                       (sizeof T) old_element_size in
        let pushed := mkDataSet (data_elements ds) (data_variables ds ++ [new_var]) in
        let new_elem_size := get_element_size pushed in
        rows <- forge_rows
                  (fun de =>
                     new_data <- memcpy (new_char new_elem_size) 0
                                        (get_raw_data de) 0 old_element_size ;;
                     field <- get_field pushed de mut_id ;;
                     match mut field with
                     | Raises => Ok None
                     | Yields new_field_data =>
                         new_data <- memcpy new_data old_element_size
                                            (object_bytes new_field_data) 0
                                            (DataVar.size new_var) ;;
                         Ok (Some (reformat de new_data))
                     end)
                  (data_elements ds) ;;
        match rows with
        | inl es => Ok (Forged (mkDataSet es (data_variables pushed)))
        | inr es => Ok (Escaped (mkDataSet es (data_variables pushed)))
        end
    end.

(** [char] as a value type. *)
#[export] Instance char_ValueType : ValueType ascii.
Proof.
  refine {| sizeof := 1; object_bytes := fun c => [Some c] |}.
  - split; reflexivity.
  - reflexivity.
Defined.

(** ** Helpers *)

Module Helpers.

(** [isspace] and [isdigit] of the C locale; a [char] outside 0..127 is
    neither. *)
Definition isspace (c : ascii) : bool :=
  let n := nat_of_ascii c in
  ((n =? 32) || ((9 <=? n) && (n <=? 13)))%nat.

Definition isdigit (c : ascii) : bool :=
  let n := nat_of_ascii c in
  ((48 <=? n) && (n <=? 57))%nat.

(** The loops that skip white space: the rest of the string from the
    first character that is not white space. *)
Fixpoint skip_spaces (s : string) : string :=
  match s with
  | EmptyString => EmptyString
  | String c s' => if negb (isspace c) then s else skip_spaces s'
  end.

(** The last loop: [false] as soon as a character is not white space. *)
Fixpoint only_spaces (s : string) : bool :=
  match s with
  | EmptyString => true
  | String c s' => if negb (isspace c) then false else only_spaces s'
  end.

(** The middle loop of [is_number]: [None] when it returns [false], else
    the position it stops at and [num_read].  The [int] counters are at
    most the length of the string. *)
Fixpoint number_loop (s : string) (num_read num_radix : Z) : option (string * Z) :=
  match s with
  | EmptyString => Some (s, num_read)
  | String c s' =>
      if isspace c then Some (s, num_read)
      else if negb (isdigit c) && negb (Ascii.eqb c ".") then None
      else if Ascii.eqb c "."
           then let num_radix := num_radix + 1 in
                if num_radix >? 1 then None
                else number_loop s' (num_read + 1) num_radix
           else number_loop s' (num_read + 1) num_radix
  end.

Definition is_number (str : string) : bool :=
  match number_loop (skip_spaces str) 0 0 with
  | None => false
  | Some (rest, num_read) => if only_spaces rest then num_read >? 0 else false
  end.

(** The middle loop of [is_integer]. *)
Fixpoint integer_loop (s : string) (num_read : Z) : option (string * Z) :=
  match s with
  | EmptyString => Some (s, num_read)
  | String c s' =>
      if isspace c then Some (s, num_read)
      else if negb (isdigit c) then None
      else integer_loop s' (num_read + 1)
  end.

Definition is_integer (str : string) : bool :=
  match integer_loop (skip_spaces str) 0 with
  | None => false
  | Some (rest, num_read) => if only_spaces rest then num_read >? 0 else false
  end.

End Helpers.


(** ** Streams *)

(** An input stream ([std::ifstream], [std::stringstream]): the text it was
    opened on, what is left to read, and the state bits. *)
Record istream : Type := mkistream {
  content : string;
  rest : string;
  eofbit : bool;
  failbit : bool
}.

Definition istream_open (text : string) : istream := mkistream text text false false.

Definition eof (f : istream) : bool := eofbit f.

(** [f.clear()]. *)
Definition clear (f : istream) : istream := mkistream (content f) (rest f) false false.

(** [f.seekg(0)]: clears [eofbit], then rewinds unless the stream has failed. *)
Definition seekg0 (f : istream) : istream :=
  if failbit f then mkistream (content f) (rest f) false true
  else mkistream (content f) (content f) false false.

(** The extraction of [std::getline]: characters up to the delimiter, which
    is consumed and dropped; the flag tells that the end was reached first. *)
Fixpoint extract (delim : ascii) (s : string) : string * string * bool :=
  match s with
  | EmptyString => (EmptyString, EmptyString, true)
  | String c s' =>
      if Ascii.eqb c delim then (EmptyString, s', false)
      else let '(l, r, e) := extract delim s' in (String c l, r, e)
  end.

(** [std::getline(f, str, delim)]: the stream after the call and the new
    value of [str].  On a stream that is not good the call only sets
    [failbit]; otherwise [str] is erased and filled, and [failbit] is set
    when no character at all was extracted. *)
Definition getline (f : istream) (str : string) (delim : ascii) : istream * string :=
  if eofbit f || failbit f
  then (mkistream (content f) (rest f) (eofbit f) true, str)
  else
    let '(l, r, e) := extract delim (rest f) in
    (mkistream (content f) r e (match rest f with EmptyString => true | _ => false end), l).

(** What a program can read and write: the text found at a path, if it can
    be opened for reading, and whether a path can be opened for writing. *)
Record filesystem : Type := mkfs {
  files : string -> option string;
  writable : string -> bool
}.

Definition write_file (fs : filesystem) (path text : string) : filesystem :=
  mkfs (fun p => if String.eqb p path then Some text else files fs p) (writable fs).

(** Loops over a stream take fuel; [None] is the loop that has not finished
    within it. *)
Definition bind_fuel {A B : Type} (r : option (result A)) (k : A -> option (result B))
  : option (result B) :=
  match r with
  | None => None
  | Some (Ok a) => k a
  | Some (Throw e) => Some (Throw e)
  | Some Undefined => Some Undefined
  end.

Notation "x <-- r ;; k" := (bind_fuel r (fun x => k))
  (at level 61, r at next level, right associativity).

(** ** CSV files *)

(** The template parameter [QUANT_TYPE] of the CSV functions, with the
    conversions between text and the bytes of a value that the standard
    library performs: [text_bytes] is [std::stod], the [static_cast] to
    [QUANT_TYPE] and the bytes of the result ([std::stod] throws on text
    that is no number); [bytes_text] is [operator<<] on the value read
    through a [QUANT_TYPE] pointer. *)
Class QuantType : Type := {
  sizeof_QUANT : Z;
  text_bytes : string -> result (list ascii);
  bytes_text : list ascii -> string;
  sizeof_QUANT_range : 0 < sizeof_QUANT < 2 ^ 64 - 1;
  text_bytes_size : forall s b, text_bytes s = Ok b -> Z.of_nat (List.length b) = sizeof_QUANT
}.

(** [line.push_back(0)] while [line] is shorter than [sz]. *)
Definition pad (line : string) (sz : Z) : string :=
  (line ++ string_of_list_ascii
             (repeat zero (Z.to_nat (sz - string_size line))))%string.

(** The buffer [line.c_str()] points to: the characters and a terminator. *)
Definition c_str (line : string) : buffer := chars line ++ [Some zero].

Section CSV.

Context {Q : QuantType}.

(** *** Reading against a template *)

(** The [for] loop over the fields of one line, from its condition
    [std::getline(ss, line, ',')]: the row buffer filled so far and the
    field counter [i]. *)
Fixpoint read_fields (fuel : nat) (var_template : list DataVar.t)
    (ss : istream) (line : string) (data : buffer) (i : Z)
  : option (result (string * buffer * Z)) :=
  match fuel with
  | O => None
  | S fuel =>
      let (ss, line) := getline ss line "," in
      if failbit ss then Some (Ok (line, data, i))
      else if i >=? to_int (Z.of_nat (List.length var_template))
      then Some (Throw (DataIOException "Inconsistent file format (too many fields)."))
      else
        match nth_error var_template (Z.to_nat i) with
        | None => Some Undefined
        | Some v =>
            if DataVar.DataType_eqb (DataVar.data_type v) QUANTITATIVE
            then
              val <-- Some (text_bytes line) ;;
              if negb (sizeof_QUANT =? DataVar.size v)
              then Some (Throw (DataIOException "Quantitative variable size mismatch."))
              else
                data <-- Some (memcpy data (DataVar.offset v)
                                      (map Some val) 0 sizeof_QUANT) ;;
                read_fields fuel var_template ss line data (i + 1)
            else
              let line := pad line (DataVar.size v) in
              data <-- Some (memcpy data (DataVar.offset v)
                                    (c_str line) 0 (DataVar.size v)) ;;
              read_fields fuel var_template ss line data (i + 1)
        end
  end.

(** The [while (!file.eof())] loop over the lines, from its condition. *)
Fixpoint read_lines (fuel : nat) (var_template : list DataVar.t) (elem_sz : Z)
    (file : istream) (line : string) (ds : DataSet) : option (result DataSet) :=
  match fuel with
  | O => None
  | S fuel =>
      if eof file then Some (Ok ds)
      else
        r <-- read_fields fuel var_template (istream_open line) line
                          (new_char elem_sz) 0 ;;
        let '(line, data, i) := r in
        if negb (i =? Z.of_nat (List.length var_template))
        then Some (Throw (DataIOException "Inconsistent file format (too few fields)."))
        else
          ds <-- Some (append_element ds data) ;;
          let (file, line) := getline file line "010" in
          read_lines fuel var_template elem_sz file line ds
  end.

(** [DataSet::read_from_csv(path, var_template, skip_first)]. *)
Definition read_from_csv_template (fuel : nat) (fs : filesystem) (path : string)
    (var_template : list DataVar.t) (skip_first : bool) : option (result DataSet) :=
  match files fs path with
  | None => Some (Throw (DataIOException "Failed to open CSV file."))
  | Some text =>
      let file := istream_open text in
      let (file, temp) :=
        if skip_first then getline file "" "010" else (file, "") in
      ds <-- Some (DataSet_new var_template) ;;
      let elem_sz := get_element_size ds in
      let (file, line) := getline file "" "010" in
      read_lines fuel var_template elem_sz file line ds
  end.

(** *** Reading with inference *)

(** The header loop: one variable per name, quantitative, of size
    [(size_t)-1] for "not determined yet". *)
Fixpoint read_header (fuel : nat) (hss : istream) (line : string)
    (vars : list DataVar.t) : option (list DataVar.t) :=
  match fuel with
  | O => None
  | S fuel =>
      let (hss, line) := getline hss line "," in
      if failbit hss then Some vars
      else
        let v := DataVar.make line EXPLANATORY QUANTITATIVE SIZE_MAX 0 in
        read_header fuel hss line (vars ++ [v])
  end.

(** [vars[cnt] = v]. *)
Definition vector_set {A : Type} (v : list A) (index : Z) (x : A) : list A :=
  firstn (Z.to_nat index) v ++ x :: skipn (S (Z.to_nat index)) v.

(** The state of the scan at the condition of its [for] loop. *)
Record scan : Type := mkscan {
  vars : list DataVar.t;
  file : istream;
  line : string;
  ess : istream;
  cnt : Z
}.

(** The body of the [for] loop on [vars[cnt]], a reference to the variable
    of the column: its new value, and whether the scan restarts.
    - a number in a quantitative column fixes the size if it was not;
    - anything else in a quantitative column whose size is fixed makes the
      column categorical of undetermined size and restarts the scan (the
      message the code prints there is not modelled);
    - otherwise the column is categorical and wide enough for the token
      and a terminator. *)
Definition scan_field (v : DataVar.t) (line : string) : bool * DataVar.t :=
  if Helpers.is_number line && DataVar.DataType_eqb (DataVar.data_type v) QUANTITATIVE
  then
    (false, if DataVar.size v =? SIZE_MAX then DataVar.set_size v sizeof_QUANT else v)
  else if DataVar.DataType_eqb (DataVar.data_type v) QUANTITATIVE
          && negb (DataVar.size v =? SIZE_MAX)
  then
    (true, DataVar.set_size (DataVar.set_data_type v CATEGORICAL) SIZE_MAX)
  else
    (false,
     if (DataVar.size v =? SIZE_MAX)
        || (DataVar.size v <? size_t_wrap (string_size line + 1))
     then DataVar.set_size (DataVar.set_data_type v CATEGORICAL)
                           (size_t_wrap (string_size line + 1))
     else v).

(** One turn of the scan, from the condition [std::getline(ess, line, ',')]
    of the [for] loop to the next evaluation of that condition: through
    the loop body when a field was read, else through the end of the
    [while] body and its condition.  A restart clears and rewinds the
    file, reads the header and the first data line again, and goes on with
    the first field of that line ([cnt] is set to -1 and incremented). *)
Definition scan_step (s : scan) : scan + result (list DataVar.t) :=
  let num_vars := Z.of_nat (List.length (vars s)) in
  let (ess, line) := getline (ess s) (line s) "," in
  if negb (failbit ess) then
    if cnt s >=? to_int num_vars
    then inr (Throw (DataIOException
                       "Reading of CSV failed. Too many fields for number of variables."))
    else
      match nth_error (vars s) (Z.to_nat (cnt s)) with
      | None => inr Undefined
      | Some v =>
          let (restart, v) := scan_field v line in
          let vars := vector_set (vars s) (cnt s) v in
          if restart then
            let file := seekg0 (clear (file s)) in
            let (file, line) := getline file line "010" in
            let (file, line) := getline file line "010" in
            inl (mkscan vars file line (istream_open line) (-1 + 1))
          else
            inl (mkscan vars (file s) line ess (cnt s + 1))
      end
  else
    if cnt s <? to_int num_vars
    then inr (Throw (DataIOException
                       "Reading of CSV failed. Too few fields for number of variables."))
    else
      let (file, line) := getline (file s) line "010" in
      if eof file then inr (Ok (vars s))
      else inl (mkscan (vars s) file line (istream_open line) 0).

Fixpoint scan_loop (fuel : nat) (s : scan) : option (result (list DataVar.t)) :=
  match fuel with
  | O => None
  | S fuel =>
      match scan_step s with
      | inl s' => scan_loop fuel s'
      | inr r => Some r
      end
  end.

(** The last loop of the inference: a size still undetermined is an
    error, the offsets are the running sums of the sizes. *)
Fixpoint assign_offsets (vars : list DataVar.t) (total : Z) : result (list DataVar.t) :=
  match vars with
  | [] => Ok []
  | v :: vars' =>
      if DataVar.size v =? SIZE_MAX
      then Throw (DataIOException "Cannot determine variable sizes for CSV file.")
      else
        vs <- assign_offsets vars' (size_t_wrap (total + DataVar.size v)) ;;
        Ok (DataVar.set_offset v total :: vs)
  end.

(** [DataSet::read_from_csv(path)] up to its last statement: the variables
    inferred from the file. *)
Definition infer_variables (fuel : nat) (fs : filesystem) (path : string)
  : option (result (list DataVar.t)) :=
  match files fs path with
  | None => Some (Throw (DataIOException "Failed to open CSV file."))
  | Some text =>
      let file := istream_open text in
      let (file, line) := getline file "" "010" in
      match read_header fuel (istream_open line) line [] with
      | None => None
      | Some vars =>
          let (file, line) := getline file line "010" in
          vars <-- (if eof file then Some (Ok vars)
                    else scan_loop fuel (mkscan vars file line (istream_open line) 0)) ;;
          Some (assign_offsets vars 0)
      end
  end.

(** [DataSet::read_from_csv(path)]. *)
Definition read_from_csv (fuel : nat) (fs : filesystem) (path : string)
  : option (result DataSet) :=
  vars <-- infer_variables fuel fs path ;;
  read_from_csv_template fuel fs path vars true.

(** *** Writing *)

(** The header line: the identifiers, a comma after each but the last. *)
Fixpoint write_header (vars : list DataVar.t) : string :=
  match vars with
  | [] => ""
  | [v] => DataVar.identifier v ++ String "010" ""
  | v :: vars' => DataVar.identifier v ++ "," ++ write_header vars'
  end.

(** The text of one field. *)
Definition write_field (de : DataElement) (v : DataVar.t) : result string :=
  if DataVar.DataType_eqb (DataVar.data_type v) QUANTITATIVE
  then
    cells <- deref (get_field_var de v) sizeof_QUANT ;;
    bytes <- read_chars cells ;;
    Ok (bytes_text bytes)
  else
    cells <- deref (get_field_var de v) (DataVar.size v) ;;
    bytes <- read_chars cells ;;
    Ok (string_of_list_ascii bytes).

(** One line per row: the fields, a comma after each but the last. *)
Fixpoint write_row (de : DataElement) (vars : list DataVar.t) : result string :=
  match vars with
  | [] => Ok ""
  | [v] => dat <- write_field de v ;; Ok (dat ++ String "010" "")
  | v :: vars' =>
      dat <- write_field de v ;;
      more <- write_row de vars' ;;
      Ok (dat ++ "," ++ more)
  end%string.

Definition write_rows (ds : DataSet) : result string :=
  for_each (fun text de => row <- write_row de (data_variables ds) ;;
                           Ok (text ++ row)%string)
           (data_elements ds) "".

(** [DataSet::write_to_csv(ds, path)]. *)
Definition write_to_csv (fs : filesystem) (ds : DataSet) (path : string)
  : result filesystem :=
  if negb (writable fs path)
  then Throw (DataIOException "Failed to write CSV file.")
  else
    rows <- write_rows ds ;;
    Ok (write_file fs path (write_header (data_variables ds) ++ rows)).

End CSV.

(** The numerals of [is_number] in words: white space, then one or more
    characters that are digits or ['.'], at most one of them a ['.'], then
    white space. *)
Fixpoint all_chars (p : ascii -> bool) (s : string) : bool :=
  match s with
  | EmptyString => true
  | String c s' => p c && all_chars p s'
  end.

Fixpoint count_char (c : ascii) (s : string) : Z :=
  match s with
  | EmptyString => 0
  | String x s' => (if Ascii.eqb x c then 1 else 0) + count_char c s'
  end.

Definition numeral_char (c : ascii) : bool := Helpers.isdigit c || Ascii.eqb c ".".

Definition numeral_shape (str : string) : Prop :=
  exists pre body post : string,
    str = (pre ++ body ++ post)%string
    /\ all_chars Helpers.isspace pre = true
    /\ body <> ""
    /\ all_chars numeral_char body = true
    /\ count_char "." body <= 1
    /\ all_chars Helpers.isspace post = true.

(** ** CSV text from token lists *)

(** The fields of a record, a comma between them. *)
Fixpoint join_fields (toks : list string) : string :=
  match toks with
  | [] => ""
  | [t] => t
  | t :: ts => t ++ "," ++ join_fields ts
  end.

(** A text file of records: every line ends with a newline. *)
Fixpoint csv_text (records : list (list string)) : string :=
  match records with
  | [] => ""
  | r :: rs => join_fields r ++ String "010" (csv_text rs)
  end.

(** A field holds no comma and no newline, and is of a length a
    [std::string] can have. *)
Definition field_char (c : ascii) : bool :=
  negb (Ascii.eqb c ",") && negb (Ascii.eqb c "010").

Definition field (tok : string) : Prop :=
  all_chars field_char tok = true /\ string_size tok + 1 < SIZE_MAX.

(** A record has a last field that is not empty (an empty one would be
    lost: [std::getline] fails at the end of the line). *)
Definition record (toks : list string) : Prop :=
  Forall field toks /\ last toks "" <> "".

(** A string stream over the fields still to read; after the last one the
    stream is at its end. *)
Definition fields_left (e : istream) (toks : list string) : Prop :=
  match toks with
  | [] => eofbit e = true
  | _ => rest e = join_fields toks /\ eofbit e = false /\ failbit e = false
  end.

Section Scan.

Context {Q : QuantType}.

(** The scan of one line, field by field from column [c]: whether it
    restarts, and the variables after it. *)
Fixpoint scan_fields (vs : list DataVar.t) (c : nat) (toks : list string)
  : bool * list DataVar.t :=
  match toks with
  | [] => (false, vs)
  | tok :: toks' =>
      match nth_error vs c with
      | None => (false, vs)
      | Some v =>
          let (restart, v') := scan_field v tok in
          let vs' := vector_set vs (Z.of_nat c) v' in
          if restart then (true, vs') else scan_fields vs' (S c) toks'
      end
  end.

(** One pass over the data lines, to the end or to the first restart. *)
Fixpoint scan_rows (vs : list DataVar.t) (rows : list (list string))
  : bool * list DataVar.t :=
  match rows with
  | [] => (false, vs)
  | row :: rows' =>
      let (restart, vs') := scan_fields vs 0 row in
      if restart then (true, vs') else scan_rows vs' rows'
  end.

(** The passes of the scan: each restart begins a new pass over all the
    data lines, the last pass runs to the end. *)
Inductive scan_passes (rows : list (list string))
  : list DataVar.t -> list DataVar.t -> Prop :=
| last_pass vs vs' :
    scan_rows vs rows = (false, vs') -> scan_passes rows vs vs'
| restarted_pass vs vs1 vs' :
    scan_rows vs rows = (true, vs1) -> scan_passes rows vs1 vs' ->
    scan_passes rows vs vs'.

(** The scan at the first field of a data line: the file is read up to
    the end of that line, [more] are the lines after it. *)
Definition row_start (text : string) (vs : list DataVar.t) (row : list string)
    (more : list (list string)) (s : scan) : Prop :=
  vars s = vs
  /\ file s = mkistream text (csv_text more) false false
  /\ ess s = istream_open (join_fields row)
  /\ cnt s = 0.

(** The scan goes from [s] to [s'] by turns of its loops. *)
Inductive scan_reaches : scan -> scan -> Prop :=
| reaches_here s : scan_reaches s s
| reaches_next s s1 s' :
    scan_step s = inl s1 -> scan_reaches s1 s' -> scan_reaches s s'.

(** The turn of the loop that demotes column [k] at the token [tok]:
    before it the scan is at column [k], whose variable is quantitative
    with its size fixed, and the field it reads is [tok]; after it the
    variable is categorical with its size undetermined again, and the scan
    is at the first field of the first data line [row1], the file rewound
    and read up to the end of that line. *)
Definition demotes (text : string) (row1 : list string) (more : list (list string))
    (k : nat) (tok : string) (s s' : scan) : Prop :=
  scan_step s = inl s'
  /\ cnt s = Z.of_nat k
  /\ (exists e', getline (ess s) (line s) "," = (e', tok) /\ failbit e' = false)
  /\ (exists v, nth_error (vars s) k = Some v
                /\ DataVar.data_type v = QUANTITATIVE
                /\ DataVar.size v = sizeof_QUANT)
  /\ (exists v', nth_error (vars s') k = Some v'
                 /\ DataVar.data_type v' = CATEGORICAL
                 /\ DataVar.size v' = SIZE_MAX)
  /\ row_start text (vars s') row1 more s'.

(** The scan as one column sees it: the tokens of the column in line
    order, to the end or to a restart caused by this column. *)
Fixpoint column_scan (v : DataVar.t) (col : list string) : bool * DataVar.t :=
  match col with
  | [] => (false, v)
  | tok :: col' =>
      let (restart, v') := scan_field v tok in
      if restart then (true, v') else column_scan v' col'
  end.

(** The tokens of column [k], one per line. *)
Definition column_of (k : nat) (rows : list (list string)) (col : list string) : Prop :=
  Forall2 (fun row tok => nth_error row k = Some tok) rows col.

Definition is_quantitative (v : DataVar.t) : nat :=
  if DataVar.DataType_eqb (DataVar.data_type v) QUANTITATIVE then 1 else 0.

(** What a column named [name] whose tokens are ["1"], ["2"], ["abc"] can
    be during the scan: quantitative, of size undetermined or fixed, or
    categorical, of size undetermined or of the size of a token seen. *)
Definition demotion_states (name : string) (v : DataVar.t) : Prop :=
  DataVar.identifier v = name
  /\ ((DataVar.data_type v = QUANTITATIVE
       /\ (DataVar.size v = SIZE_MAX \/ DataVar.size v = sizeof_QUANT))
      \/ (DataVar.data_type v = CATEGORICAL
          /\ (DataVar.size v = SIZE_MAX \/ DataVar.size v = 2 \/ DataVar.size v = 4))).

(** The variables the header loop makes of the column names. *)
Definition header_vars (names : list string) : list DataVar.t :=
  map (fun name => DataVar.make name EXPLANATORY QUANTITATIVE SIZE_MAX 0) names.

(** The scan of the file [csv_text (names :: row1 :: more)] where its
    loops begin: the header line made into variables, the first data line
    read, the scan at the first field of that line. *)
Definition scan_start (names row1 : list string) (more : list (list string)) : scan :=
  mkscan (header_vars names)
         (mkistream (csv_text (names :: row1 :: more)) (csv_text more) false false)
         (join_fields row1) (istream_open (join_fields row1)) 0.

(** The number of quantitative variables: it drops at every restart. *)
Definition quantitative_count (vs : list DataVar.t) : nat :=
  list_sum (map is_quantitative vs).

End Scan.

(** ** Invariants and histories *)

(** The packing rule: each offset is the sum, in [size_t], of the sizes of
    the variables before it. *)
Fixpoint running_offsets (total : Z) (vars : list DataVar.t) : Prop :=
  match vars with
  | [] => True
  | v :: vs =>
      DataVar.offset v = total
      /\ running_offsets (size_t_wrap (total + DataVar.size v)) vs
  end.

Definition packed (vars : list DataVar.t) : Prop := running_offsets 0 vars.

(** Every row is a buffer of the element size of its set. *)
Definition rows_fit (ds : DataSet) : Prop :=
  Forall (fun e => buffer_size (data e) = get_element_size ds) (data_elements ds).

(** The data set a caller holds after a mutating method: every [throw] of
    [remove_var], [remove_element] and [forge_variable] comes before the
    first write to a member, so a thrown exception leaves the object as it
    was; after undefined behaviour nothing is known.  (An exception of the
    transform given to [forge_variable] is none of these: what it leaves
    is in [forge_variable_with].) *)
Definition state_after (ds : DataSet) (r : result DataSet) : option DataSet :=
  match r with
  | Ok ds' => Some ds'
  | Throw _ => Some ds
  | Undefined => None
  end.

(** The data sets a program can build: one constructed from a list of
    variables, then changed by the public methods of [DataSet].  The flag
    tells whether a transform given to [forge_variable] has thrown on the
    way; the store is then the one the exception left.  (Writes through
    the pointers that [get_var_by_id] and [get_element] hand out are not
    methods of the store and are not steps.) *)
Inductive reached : bool -> DataSet -> Prop :=
| reach_new vars ds :
    DataSet_new vars = Ok ds -> reached false ds
| reach_copy b ds ds' :
    reached b ds -> DataSet_copy ds = Ok ds' -> reached b ds'
| reach_insert b ds index dat ds' :
    reached b ds -> insert_element ds index dat = Ok ds' -> reached b ds'
| reach_append b ds dat ds' :
    reached b ds -> append_element ds dat = Ok ds' -> reached b ds'
| reach_remove_element b ds index ds' :
    reached b ds -> remove_element ds index = Ok ds' -> reached b ds'
| reach_remove_all b ds :
    reached b ds -> reached b (remove_all ds)
| reach_remove_var b ds var ds' :
    reached b ds -> remove_var ds var = Ok ds' -> reached b ds'
| reach_remove_var_id b ds id ds' :
    reached b ds -> remove_var_id ds id = Ok ds' -> reached b ds'
| reach_forge (T : Type) (VT : ValueType T) b ds new_var_id mut_id
    (mut : ptr -> transformed T) ds' :
    reached b ds ->
    forge_variable_with ds new_var_id mut_id mut = Ok (Forged ds') ->
    reached b ds'
| reach_forge_escaped (T : Type) (VT : ValueType T) b ds new_var_id mut_id
    (mut : ptr -> transformed T) ds' :
    reached b ds ->
    forge_variable_with ds new_var_id mut_id mut = Ok (Escaped ds') ->
    reached true ds'.

Definition reachable (ds : DataSet) : Prop := exists escaped, reached escaped ds.

(** ** Export and import of one store *)

(** The cells of a field of a row. *)
Definition field_cells (e : DataElement) (v : DataVar.t) : result buffer :=
  deref (get_field_var e v) (DataVar.size v).

(** Two stores hold the same value in every field of every row. *)
Definition same_fields (ds ds' : DataSet) : Prop :=
  Forall2
    (fun e e' => Forall (fun v => field_cells e' v = field_cells e v) (data_variables ds))
    (data_elements ds) (data_elements ds').

(** The variables laid out from offset [o] with no gap, overlap or
    overflow, up to [total]. *)
Fixpoint layout (o : Z) (vars : list DataVar.t) (total : Z) : Prop :=
  match vars with
  | [] => o = total
  | v :: vs =>
      DataVar.offset v = o /\ 0 <= DataVar.size v
      /\ layout (o + DataVar.size v) vs total
  end.

Section ExportedStore.

Context {Q : QuantType}.

(** The text [tok] of a field that holds determinate bytes, and from which
    the import gets the same bytes back: for a quantitative field, of the
    size of [QUANT_TYPE], the text of the value, which converts back to
    the value; for a categorical field the bytes themselves. *)
Definition field_text (e : DataElement) (v : DataVar.t) (tok : string) : Prop :=
  exists bytes : list ascii,
    field_cells e v = Ok (map Some bytes)
    /\ match DataVar.data_type v with
       | QUANTITATIVE =>
           DataVar.size v = sizeof_QUANT
           /\ tok = bytes_text bytes
           /\ text_bytes tok = Ok bytes
       | CATEGORICAL => tok = string_of_list_ascii bytes
       end.

(** A row whose fields have texts that make a record. *)
Definition row_texts (vars : list DataVar.t) (e : DataElement) (toks : list string)
  : Prop :=
  Forall2 (field_text e) vars toks /\ record toks.

(** The stores the CSV format can carry: there is a variable, and no
    more than [INT_MAX] of them (the import counts fields in an [int]);
    the variables are laid out without gap up to the element size, every
    row has that size, no column name holds a newline, and the field
    texts of every row make a record (no comma, no newline, a last field
    that is not empty). *)
Definition exportable (ds : DataSet) : Prop :=
  data_variables ds <> []
  /\ Z.of_nat (List.length (data_variables ds)) <= INT_MAX
  /\ layout 0 (data_variables ds) (get_element_size ds)
  /\ rows_fit ds
  /\ Forall (fun v => all_chars (fun c => negb (Ascii.eqb c "010")) (DataVar.identifier v)
                      = true)
            (data_variables ds)
  /\ Forall (fun e => exists toks, row_texts (data_variables ds) e toks)
            (data_elements ds).

(** The file at the first field of a line to import, or at its end. *)
Definition lines_left (text : string) (f : istream) (l : string)
    (rows : list (list string)) : Prop :=
  match rows with
  | [] => eof f = true
  | toks :: more =>
      f = mkistream text (csv_text more) false false /\ l = join_fields toks
  end.

End ExportedStore.

(** ** Sample data sets *)

Module Samples.

Definition col_a : DataVar.t := DataVar.make "a" EXPLANATORY CATEGORICAL 1 0.
Definition col_b : DataVar.t := DataVar.make "b" RESPONSE CATEGORICAL 1 1.

(** Two one-byte categorical columns and the row ["xy"]. *)
Definition one_row : DataSet :=
  mkDataSet [mkElement (chars "xy")] [col_a; col_b].

(** The same columns, two rows that agree on [a] and differ on [b]. *)
Definition two_rows : DataSet :=
  mkDataSet [mkElement (chars "xy"); mkElement (chars "xz")] [col_a; col_b].

(** A transform for [forge_variable]: the first byte of the field. *)
Definition first_char (p : ptr) : ascii :=
  match deref p 1 with
  | Ok [Some c] => c
  | _ => "?"%char
  end.

(** A transform that throws on a field that begins with ['z']. *)
Definition refuse_z (p : ptr) : transformed ascii :=
  if Ascii.eqb (first_char p) "z" then Raises else Yields (first_char p).

(** What [forge_variable] of ["c"] from ["b"] with [refuse_z] leaves of
    [two_rows]: three variables, the first row with three bytes, the
    second with two. *)
Definition half_forged : DataSet :=
  mkDataSet [mkElement (chars "xyy"); mkElement (chars "xz")]
            [col_a; col_b; DataVar.make "c" RESPONSE CATEGORICAL 1 2].

(** A stand-in for [QUANT_TYPE] with a text conversion that can be run:
    a value is four bytes, the four characters of its numeral (["3.25"],
    ["0042"]); a text that is no numeral of four characters is refused as
    [std::stod] refuses a text that is no number. *)
#[export] Instance decimal4 : QuantType.
Proof.
  refine {| sizeof_QUANT := 4;
            text_bytes := fun s =>
              if Helpers.is_number s && (String.length s =? 4)%nat
              then Ok (list_ascii_of_string s)
              else Throw (invalid_argument "stod");
            bytes_text := string_of_list_ascii |}.
  - split; reflexivity.
  - intros s b. destruct (Helpers.is_number s); [| discriminate]. cbn [andb].
    destruct (Nat.eqb_spec (String.length s) 4) as [Hlen | _]; [| discriminate].
    intros Hb. injection Hb as <-.
    replace (List.length (list_ascii_of_string s)) with (String.length s);
      [rewrite Hlen; reflexivity |].
    clear Hlen. induction s as [| c s IH]; [reflexivity |]. simpl. f_equal. exact IH.
Defined.

(** A file system holding one file. *)
Definition one_file (path text : string) : filesystem :=
  mkfs (fun p => if String.eqb p path then Some text else None) (fun _ => true).

(** One categorical column of one byte, and a row that holds a comma. *)
Definition comma_row : DataSet := mkDataSet [mkElement (chars ",")] [col_a].

(** What the import makes of the export of [comma_row]. *)
Definition nul_row : DataSet := mkDataSet [mkElement [Some zero]] [col_a].

(** A quantitative and a categorical column, two rows. *)
Definition priced : DataSet :=
  mkDataSet [mkElement (chars "3.25ab"); mkElement (chars "0042cd")]
            [DataVar.make "price" EXPLANATORY QUANTITATIVE 4 0;
             DataVar.make "code" OTHER CATEGORICAL 2 4].

(** [QUANT_TYPE = char]: a value is one byte; [operator<<] writes the
    character itself; [std::stod] reads a text of decimal digits as the
    number they spell, which the [static_cast] makes the character of that
    code (up to 127; a larger number is outside the range of the cast).
    Other texts, which the samples do not use, are refused as [std::stod]
    refuses a text that is no number. *)
Fixpoint decimal (s : string) (acc : nat) : nat :=
  match s with
  | EmptyString => acc
  | String c s' => decimal s' (10 * acc + (nat_of_ascii c - 48))
  end.

#[export] Instance char_quant : QuantType.
Proof.
  refine {| sizeof_QUANT := 1;
            text_bytes := fun s =>
              if all_chars Helpers.isdigit s && negb (String.eqb s "")
              then if (decimal s 0 <? 128)%nat
                   then Ok [ascii_of_nat (decimal s 0)]
                   else Undefined
              else Throw (invalid_argument "stod");
            bytes_text := string_of_list_ascii |}.
  - split; reflexivity.
  - intros s b. destruct (_ && _); [| discriminate].
    destruct (_ <? _)%nat; [| discriminate].
    intros Hb. injection Hb as <-. reflexivity.
Defined.

(** The export of a store to a file and the import of that file with the
    variables of the store. *)
Definition export_import {Q : QuantType} (fuel : nat) (ds : DataSet)
  : option (result DataSet) :=
  match write_to_csv (one_file "in.csv" "") ds "out.csv" with
  | Ok fs' => read_from_csv_template fuel fs' "out.csv" (data_variables ds) true
  | Throw e => Some (Throw e)
  | Undefined => Some Undefined
  end.

(** Stores that do not come back from the file as they were. *)

(** A [char] column that holds the digit ['7']. *)
Definition digit_row : DataSet :=
  mkDataSet [mkElement (chars "7")] [DataVar.make "q" EXPLANATORY QUANTITATIVE 1 0].

(** A row that holds a newline. *)
Definition newline_row : DataSet :=
  mkDataSet [mkElement [Some "010"%char]] [col_a].

(** A column name that holds a newline. *)
Definition newline_name : DataSet :=
  mkDataSet [mkElement (chars "x")]
            [DataVar.make (String "a" (String "010" "b")) EXPLANATORY CATEGORICAL 1 0].

(** No variable left: [remove_var] of the only one. *)
Definition no_variables : DataSet := mkDataSet [mkElement []] [].

(** A variable constructed with an offset past the element size. *)
Definition offset_row : DataSet :=
  mkDataSet [mkElement (chars "x")] [DataVar.make "a" EXPLANATORY CATEGORICAL 1 1].

(** A quantitative variable of another size than [decimal4]. *)
Definition short_quantity : DataSet :=
  mkDataSet [mkElement (chars "3.25")]
            [DataVar.make "q" EXPLANATORY QUANTITATIVE 2 0;
             DataVar.make "c" EXPLANATORY CATEGORICAL 2 2].

(** A last column of size 0. *)
Definition empty_last : DataSet :=
  mkDataSet [mkElement (chars "x")]
            [col_a; DataVar.make "b" EXPLANATORY CATEGORICAL 0 1].

(** The set [one_row] after forging ["c"] from ["a"] and removing ["b"]. *)
Definition forged_then_removed : DataSet :=
  mkDataSet [mkElement [Some "x"%char; None]]
            [col_a; DataVar.make "c" EXPLANATORY CATEGORICAL 1 1].

End Samples.

(** ** Integers in words *)

(** The integers of [is_integer] in words: white space, then one or more
    digits, then white space. *)
Definition integer_shape (str : string) : Prop :=
  exists pre body post : string,
    str = (pre ++ body ++ post)%string
    /\ all_chars Helpers.isspace pre = true
    /\ body <> ""
    /\ all_chars Helpers.isdigit body = true
    /\ all_chars Helpers.isspace post = true.

(** ** Columns of tokens *)


Section ColumnStates.

Context {Q : QuantType}.



End ColumnStates.

(** ** The variables after a removal *)

(** A variable moved down by [delta] bytes. *)
Definition shift_offset (delta : Z) (d : DataVar.t) : DataVar.t :=
  DataVar.set_offset d (DataVar.offset d - delta).

(** ** BasicStats *)

(** The result of a statistic: a value, the [DataMismatchException] thrown
    for a categorical variable, or undefined behaviour. *)
Inductive stat (R : Type) : Type :=
| Returns (r : R)
| DataMismatchException (what : string)
| Unspecified.

Arguments Returns {R} r.
Arguments DataMismatchException {R} what.
Arguments Unspecified {R}.

(** The template parameter [RSLT_TYPE]: the literal [0.0], the
    [static_cast] of an [int], the [static_cast] of the [QUANT_TYPE] value
    read from the bytes of a field, the arithmetic and [sqrt]. *)
Class ResultType (R : Type) : Type := {
  zero_literal : R;
  of_int : Z -> R;
  of_quant : list ascii -> R;
  radd : R -> R -> R;
  rsub : R -> R -> R;
  rmul : R -> R -> R;
  rdiv : R -> R -> R;
  rsqrt : R -> R
}.

Section BasicStats.

Context {Q : QuantType} {R : Type} {RT : ResultType R}.

(** The value of the field of [var] in the element at [i]: the bytes read
    through a [QUANT_TYPE] pointer and cast to [RSLT_TYPE]. *)
Definition field_value (ds : DataSet) (var : DataVar.t) (i : Z) : result R :=
  de <- get_element ds i ;;
  cells <- deref (get_field_var de var) sizeof_QUANT ;;
  bytes <- read_chars cells ;;
  Ok (of_quant bytes).

(** The indices of [for (int i = 0; i < num_elems; ++i)]. *)
Definition indices (num_elems : Z) : list Z :=
  map Z.of_nat (seq 0 (Z.to_nat num_elems)).

(** The loops that add up the values of a variable. *)
Definition sum_values (ds : DataSet) (var : DataVar.t) (num_elems : Z) : result R :=
  for_each (fun rslt i => val <- field_value ds var i ;; Ok (radd rslt val))
           (indices num_elems) zero_literal.

Definition of_result (r : result R) : stat R :=
  match r with
  | Ok x => Returns x
  | _ => Unspecified
  end.

(** [mean]. *)
Definition mean (ds : DataSet) (id : string) : stat R :=
  match get_var_by_id ds id with
  | None => Unspecified
  | Some var =>
      if DataVar.DataType_eqb (DataVar.data_type var) CATEGORICAL
      then DataMismatchException "Cannot compute mean for categorical variable."
      else
        let num_elems := to_int (get_num_elements ds) in
        if num_elems >? 0
        then of_result (rslt <- sum_values ds var num_elems ;;
                        Ok (rdiv rslt (of_int num_elems)))
        else Returns (of_int 0)
  end.

(** [variance]: the divisor is [num_elems - 0]. *)
Definition variance (ds : DataSet) (id : string) : stat R :=
  match get_var_by_id ds id with
  | None => Unspecified
  | Some var =>
      if DataVar.DataType_eqb (DataVar.data_type var) CATEGORICAL
      then DataMismatchException
             "Cannot compute variance or standard deviation for categorical variable."
      else
        let num_elems := to_int (get_num_elements ds) in
        if num_elems >? 1
        then of_result
               (mean <- sum_values ds var num_elems ;;
                let mean := rdiv mean (of_int num_elems) in
                varia <- for_each
                           (fun varia i =>
                              val <- field_value ds var i ;;
                              Ok (radd varia (rmul (rsub val mean) (rsub val mean))))
                           (indices num_elems) zero_literal ;;
                Ok (rdiv varia (rsub (of_int num_elems) (of_int 0))))
        else Returns (of_int 0)
  end.

(** [stdev]. *)
Definition stdev (ds : DataSet) (id : string) : stat R :=
  match variance ds id with
  | Returns v => Returns (rsqrt v)
  | DataMismatchException what => DataMismatchException what
  | Unspecified => Unspecified
  end.

End BasicStats.

(** Results as integers, to run the statistics on a sample: a value is the
    number its digits spell (["0042"] is 42), the division and the root
    are the integer ones. *)
Module StatSamples.

Definition digits_value (bytes : list ascii) : Z :=
  fold_left (fun acc c =>
               if Helpers.isdigit c then 10 * acc + (Z.of_nat (nat_of_ascii c) - 48) else acc)
            bytes 0.

#[export] Instance integer_result : ResultType Z := {|
  zero_literal := 0;
  of_int := fun z => z;
  of_quant := digits_value;
  radd := Z.add;
  rsub := Z.sub;
  rmul := Z.mul;
  rdiv := Z.div;
  rsqrt := Z.sqrt
|}.

Definition amount : DataVar.t := DataVar.make "amount" EXPLANATORY QUANTITATIVE 4 0.

Definition amounts : DataSet :=
  mkDataSet [mkElement (chars "0040"); mkElement (chars "0044")] [amount].

End StatSamples.

(** * Properties *)

Example remove_last_column :
  remove_var Samples.one_row Samples.col_b
  = Ok (mkDataSet [mkElement (chars "x")] [Samples.col_a]).
Proof. reflexivity. Qed.

(** ** Results and buffers *)

Lemma bind_Ok {A B : Type} (r : result A) (k : A -> result B) (b : B) :
  bind r k = Ok b -> exists a, r = Ok a /\ k a = Ok b.
Proof.
  destruct r as [a | e |]; simpl; intros Hk; try discriminate.
  exists a; split; [reflexivity | exact Hk].
Qed.

Ltac inv_bind H :=
  let x := fresh "x" in
  let Hx := fresh "Hx" in
  apply bind_Ok in H; destruct H as [x [Hx H]].

Lemma map_result_Forall {A B : Type} (f : A -> result B) (P : B -> Prop) :
  (forall x y, f x = Ok y -> P y) ->
  forall xs ys, map_result f xs = Ok ys -> Forall P ys.
Proof.
  intros Hf xs; induction xs as [| x xs IH]; simpl; intros ys Hys.
  - injection Hys as <-. constructor.
  - inv_bind Hys. inv_bind Hys. injection Hys as <-.
    constructor; [eapply Hf; eassumption | apply IH; assumption].
Qed.

Lemma map_result_length {A B : Type} (f : A -> result B) :
  forall xs ys, map_result f xs = Ok ys -> List.length ys = List.length xs.
Proof.
  induction xs as [| x xs IH]; simpl; intros ys Hys.
  - injection Hys as <-. reflexivity.
  - inv_bind Hys. inv_bind Hys. injection Hys as <-. simpl. f_equal. auto.
Qed.

Lemma In_firstn {A : Type} (n : nat) (l : list A) (x : A) :
  In x (firstn n l) -> In x l.
Proof.
  intros H. rewrite <- (firstn_skipn n l). apply in_or_app. left. exact H.
Qed.

Lemma In_skipn {A : Type} (n : nat) (l : list A) (x : A) :
  In x (skipn n l) -> In x l.
Proof.
  intros H. rewrite <- (firstn_skipn n l). apply in_or_app. right. exact H.
Qed.

Lemma new_char_size (n : Z) : 0 <= n -> buffer_size (new_char n) = n.
Proof.
  intros Hn. unfold buffer_size, new_char. rewrite repeat_length. lia.
Qed.

Lemma memcpy_size dst doff src soff n r :
  memcpy dst doff src soff n = Ok r -> buffer_size r = buffer_size dst.
Proof.
  unfold memcpy, buffer_size.
  destruct (_ && _) eqn:Hc; intros Hr; [| discriminate].
  injection Hr as <-.
  repeat (apply andb_prop in Hc; destruct Hc as [Hc ?]).
  rewrite !length_app, !length_firstn, !length_skipn. lia.
Qed.

Lemma size_t_wrap_range z : 0 <= size_t_wrap z < 2 ^ 64.
Proof. unfold size_t_wrap. apply Z.mod_pos_bound. reflexivity. Qed.

Lemma compute_elem_size_from (vars : list DataVar.t) : forall acc,
  0 <= acc ->
  0 <= fold_left (fun sum var => size_t_wrap (sum + DataVar.get_size var)) vars acc.
Proof.
  induction vars as [| v vars IH]; simpl; intros acc Hacc; [exact Hacc |].
  apply IH. apply size_t_wrap_range.
Qed.

Lemma compute_elem_size_nonneg vars : 0 <= DataVar.compute_elem_size vars.
Proof. apply compute_elem_size_from. lia. Qed.

(** ** DataVar equality *)

Lemma DataVar_eqb_eq (a b : DataVar.t) : DataVar.eqb a b = true <-> a = b.
Proof.
  unfold DataVar.eqb. split.
  - intros H.
    repeat (apply andb_prop in H; destruct H as [H ?]).
    destruct a as [ia va da sa oa], b as [ib vb db sb ob]; simpl in *.
    apply String.eqb_eq in H. apply Z.eqb_eq in H0, H1.
    destruct va, vb; try discriminate; destruct da, db; try discriminate;
      subst; reflexivity.
  - intros <-. rewrite String.eqb_refl, !Z.eqb_refl.
    destruct (DataVar.variable_type a), (DataVar.data_type a); reflexivity.
Qed.

Lemma DataVar_eqb_refl (a : DataVar.t) : DataVar.eqb a a = true.
Proof. apply DataVar_eqb_eq. reflexivity. Qed.

(** ** Construction *)

(** The constructor keeps the offsets it is given. *)
Lemma DataSet_new_keeps_offset :
  DataSet_new [DataVar.make "a" EXPLANATORY QUANTITATIVE 8 5]
  = Ok (mkDataSet [] [DataVar.make "a" EXPLANATORY QUANTITATIVE 8 5]).
Proof. reflexivity. Qed.

(** Claim C2 as written fails: a single variable given offset 5 is stored
    with offset 5, which is not the running sum 0. *)
Lemma DataSet_new_not_packed :
  ~ (forall vars : list DataVar.t, vars <> [] ->
       exists ds, DataSet_new vars = Ok ds /\ packed (data_variables ds)).
Proof.
  intros H.
  destruct (H [DataVar.make "a" EXPLANATORY QUANTITATIVE 8 5]) as [ds [Hds Hp]];
    [discriminate |].
  rewrite DataSet_new_keeps_offset in Hds. injection Hds as <-.
  destruct Hp as [Hoff _]. discriminate Hoff.
Qed.

(** Claim C2, amended: construction from a non-empty list stores the
    variables exactly as supplied, offsets included, with no rows; the
    packing rule holds after construction exactly when the supplied offsets
    satisfy it. *)
Theorem DataSet_new_stores_variables (vars : list DataVar.t) :
  vars <> [] ->
  exists ds, DataSet_new vars = Ok ds
             /\ data_variables ds = vars
             /\ data_elements ds = []
             /\ (packed (data_variables ds) <-> packed vars).
Proof.
  intros Hne. exists (mkDataSet [] vars). unfold DataSet_new.
  destruct vars as [| v vars]; [contradiction |]. simpl List.length.
  destruct (Z.eqb_spec (Z.of_nat (S (List.length vars))) 0) as [H0 | _]; [lia |].
  split; [reflexivity |]. split; [reflexivity |]. split; [reflexivity |].
  cbn [data_variables]. tauto.
Qed.

Lemma DataSet_new_stores_variables_witness :
  [Samples.col_a; Samples.col_b] <> []
  /\ exists ds, DataSet_new [Samples.col_a; Samples.col_b] = Ok ds
                /\ data_variables ds = [Samples.col_a; Samples.col_b]
                /\ data_elements ds = []
                /\ (packed (data_variables ds) <-> packed [Samples.col_a; Samples.col_b]).
Proof.
  split; [discriminate |].
  apply (DataSet_new_stores_variables [Samples.col_a; Samples.col_b]). discriminate.
Defined.

(** ** Lookups *)

Lemma get_var_by_id_Some ds id v :
  get_var_by_id ds id = Some v ->
  In v (data_variables ds) /\ DataVar.identifier v = id.
Proof.
  unfold get_var_by_id. intros H. apply find_some in H. destruct H as [Hin Heq].
  split; [exact Hin | apply String.eqb_eq; exact Heq].
Qed.

Lemma get_var_by_id_None ds id :
  get_var_by_id ds id = None <-> ~ In id (get_var_ids ds).
Proof.
  unfold get_var_by_id, get_var_ids. split.
  - intros H Hin. apply in_map_iff in Hin. destruct Hin as [v [Hv Hin]].
    apply (find_none _ _ H) in Hin. unfold DataVar.get_identifier in *.
    rewrite Hv, String.eqb_refl in Hin. discriminate.
  - intros Hn. destruct (find _ _) eqn:Hf; [| reflexivity].
    exfalso. apply Hn. apply find_some in Hf. destruct Hf as [Hin Heq].
    apply String.eqb_eq in Heq. apply in_map_iff. exists t. auto.
Qed.

Lemma existsb_eqb_In (vars : list DataVar.t) var :
  existsb (fun d => DataVar.eqb d var) vars = true <-> In var vars.
Proof.
  rewrite existsb_exists. split.
  - intros [d [Hin Heq]]. apply DataVar_eqb_eq in Heq. subst. exact Hin.
  - intros Hin. exists var. split; [exact Hin | apply DataVar_eqb_refl].
Qed.

(** ** forge_variable: the name check *)

(** Claim C6 as written fails: forging ["b"] from ["a"] in a set that
    already has a column ["b"] is accepted, and the set then holds two
    variables named ["b"]. *)
Lemma forge_variable_accepts_existing_name :
  ~ (forall (ds : DataSet) (new_var_id mut_id : string) (mut : ptr -> ascii),
       new_var_id = mut_id \/ In new_var_id (get_var_ids ds) ->
       exists e, forge_variable ds new_var_id mut_id mut = Throw e).
Proof.
  intros H.
  destruct (H Samples.one_row "b" "a" Samples.first_char) as [e He].
  - right. simpl. auto.
  - vm_compute in He. discriminate He.
Qed.

Example forge_variable_duplicate_name :
  forge_variable Samples.one_row "b" "a" Samples.first_char
  = Ok (mkDataSet [mkElement (chars "xyx")]
          [Samples.col_a; Samples.col_b;
           DataVar.make "b" EXPLANATORY CATEGORICAL 1 2]).
Proof. reflexivity. Qed.

(** Claim C6, amended: [forge_variable] throws its name-conflict exception
    whenever the new name equals the name of the source column, and then the
    data set is left as it was. *)
Theorem forge_variable_name_conflict (T : Type) (VT : ValueType T)
    (ds : DataSet) (new_var_id mut_id : string) (mut : ptr -> T) :
  new_var_id = mut_id ->
  forge_variable ds new_var_id mut_id mut
  = Throw (DataException
             "Name for variable to be forged conflicts with original variable.")
  /\ state_after ds (forge_variable ds new_var_id mut_id mut) = Some ds.
Proof.
  intros ->. unfold forge_variable. rewrite String.eqb_refl. split; reflexivity.
Qed.

Lemma forge_variable_name_conflict_witness :
  "a" = "a"
  /\ forge_variable Samples.one_row "a" "a" Samples.first_char
     = Throw (DataException
                "Name for variable to be forged conflicts with original variable.")
  /\ state_after Samples.one_row (forge_variable Samples.one_row "a" "a" Samples.first_char)
     = Some Samples.one_row.
Proof.
  split; [reflexivity |].
  apply (forge_variable_name_conflict ascii char_ValueType Samples.one_row "a" "a"
           Samples.first_char).
  reflexivity.
Defined.

(** The other exception of [forge_variable]: the source column is absent. *)
Lemma forge_variable_source_absent (T : Type) (VT : ValueType T)
    (ds : DataSet) (new_var_id mut_id : string) (mut : ptr -> T) :
  new_var_id <> mut_id -> get_var_by_id ds mut_id = None ->
  forge_variable ds new_var_id mut_id mut
  = Throw (DataException "Failed to find variable to forge from.").
Proof.
  intros Hne Hnone. unfold forge_variable.
  destruct (String.eqb_spec new_var_id mut_id) as [-> | _]; [contradiction |].
  rewrite Hnone. reflexivity.
Qed.

(** ** remove_var: absent variables *)

Lemma remove_var_absent (ds : DataSet) (var : DataVar.t) :
  ~ In var (data_variables ds) ->
  remove_var ds var = Throw (DataException "Variable to be removed not in data set.")
  /\ state_after ds (remove_var ds var) = Some ds.
Proof.
  intros Hn. unfold remove_var.
  destruct (existsb _ _) eqn:He.
  - apply existsb_eqb_In in He. contradiction.
  - split; reflexivity.
Qed.

Lemma remove_var_id_absent (ds : DataSet) (id : string) :
  ~ In id (get_var_ids ds) -> remove_var_id ds id = Undefined.
Proof.
  intros Hn. apply get_var_by_id_None in Hn. unfold remove_var_id.
  rewrite Hn. reflexivity.
Qed.

(** Claim C7, at its failing input: removing by value a variable that
    differs from a member only in its offset throws and leaves the set as it
    was, but removing by a name that no variable has dereferences the null
    pointer of [get_var_by_id]: no exception is thrown. *)
Theorem remove_var_id_absent_name :
  remove_var Samples.one_row (DataVar.set_offset Samples.col_b 0)
  = Throw (DataException "Variable to be removed not in data set.")
  /\ state_after Samples.one_row
       (remove_var Samples.one_row (DataVar.set_offset Samples.col_b 0))
     = Some Samples.one_row
  /\ get_var_by_id Samples.one_row "c" = None
  /\ remove_var_id Samples.one_row "c" = Undefined
  /\ state_after Samples.one_row (remove_var_id Samples.one_row "c") = None.
Proof. repeat split; reflexivity. Qed.

(** ** Bounds checks *)

Lemma to_int_small z : 0 <= z <= INT_MAX -> to_int z = z.
Proof.
  unfold to_int, INT_MAX. intros Hz.
  rewrite Z.mod_small; lia.
Qed.

Lemma nth_error_in_range {A : Type} (l : list A) (i : Z) :
  0 <= i < Z.of_nat (List.length l) -> exists x, nth_error l (Z.to_nat i) = Some x.
Proof.
  intros Hi. destruct (nth_error l (Z.to_nat i)) eqn:Hn; [eauto |].
  apply nth_error_None in Hn. lia.
Qed.

(** [remove_element] throws exactly outside [0, row count). *)
Lemma remove_element_bounds (ds : DataSet) (index : Z) :
  get_num_elements ds <= INT_MAX ->
  (index < 0 \/ get_num_elements ds <= index ->
   remove_element ds index = Throw (out_of_range "Element to be removed out of range."))
  /\ (0 <= index < get_num_elements ds ->
      exists ds', remove_element ds index = Ok ds'
                  /\ data_variables ds' = data_variables ds
                  /\ get_num_elements ds' = get_num_elements ds - 1).
Proof.
  intros Hmax. unfold remove_element, get_num_elements in *.
  rewrite to_int_small by lia. split.
  - intros Hout.
    destruct (orb _ _) eqn:Hc; [reflexivity |].
    apply orb_false_iff in Hc. destruct Hc as [H1 H2]. lia.
  - intros Hin.
    destruct (orb _ _) eqn:Hc.
    { apply orb_true_iff in Hc. lia. }
    unfold vector_erase.
    destruct (andb _ _) eqn:Hd.
    2:{ apply andb_false_iff in Hd. lia. }
    cbn [bind]. eexists. split; [reflexivity |]. split; [reflexivity |].
    cbn [data_elements]. rewrite length_app, length_firstn, length_skipn. lia.
Qed.

(** [get_field(int)] throws exactly outside [0, column count). *)
Lemma get_field_int_bounds (set : DataSet) (e : DataElement) (index : Z) :
  get_num_vars set <= INT_MAX ->
  (index < 0 \/ get_num_vars set <= index ->
   get_field_int set e index
   = Throw (out_of_range "Attempted to access data element field that was out of range."))
  /\ (0 <= index < get_num_vars set ->
      exists p, get_field_int set e index = Ok p /\ base p = data e).
Proof.
  intros Hmax. unfold get_field_int, get_num_vars in *.
  rewrite to_int_small by lia. split.
  - intros Hout.
    destruct (orb _ _) eqn:Hc; [reflexivity |].
    apply orb_false_iff in Hc. lia.
  - intros Hin.
    destruct (orb _ _) eqn:Hc.
    { apply orb_true_iff in Hc. lia. }
    destruct (nth_error_in_range (get_var_ids set) index) as [id Hid].
    { unfold get_var_ids. rewrite length_map. lia. }
    rewrite Hid. unfold get_field.
    destruct (get_var_by_id set id) eqn:Hv.
    + eexists. split; reflexivity.
    + apply get_var_by_id_None in Hv. exfalso. apply Hv.
      eapply nth_error_In. exact Hid.
Qed.

(** [get_element] has no check: outside [0, row count) it is undefined. *)
Lemma get_element_bounds (ds : DataSet) (index : Z) :
  (index < 0 \/ get_num_elements ds <= index -> get_element ds index = Undefined)
  /\ (0 <= index < get_num_elements ds -> exists e, get_element ds index = Ok e).
Proof.
  unfold get_element, get_num_elements. split.
  - intros [Hneg | Hbig].
    + destruct (Z.leb_spec 0 index); [lia | reflexivity].
    + destruct (Z.leb_spec 0 index); [| reflexivity].
      replace (nth_error _ _) with (@None DataElement); [reflexivity |].
      symmetry. apply nth_error_None. lia.
  - intros Hin. destruct (Z.leb_spec 0 index); [| lia].
    destruct (nth_error_in_range (data_elements ds) index Hin) as [e He].
    rewrite He. eauto.
Qed.

(** Claim C8, at its failing input: with one row and two columns, index 0
    succeeds everywhere; [remove_element] at the row count and
    [get_field(int)] at the column count throw [out_of_range], but
    [get_element] at the row count (and at -1) indexes the vector unchecked:
    undefined behaviour, not the [out_of_range] its declaration promises. *)
Theorem get_element_unchecked :
  get_element Samples.one_row 0 = Ok (mkElement (chars "xy"))
  /\ get_element Samples.one_row 1 = Undefined
  /\ get_element Samples.one_row (-1) = Undefined
  /\ remove_element Samples.one_row 0 = Ok (mkDataSet [] [Samples.col_a; Samples.col_b])
  /\ remove_element Samples.one_row 1
     = Throw (out_of_range "Element to be removed out of range.")
  /\ get_field_int Samples.one_row (mkElement (chars "xy")) 0
     = Ok (mkptr (chars "xy") 0)
  /\ get_field_int Samples.one_row (mkElement (chars "xy")) 2
     = Throw (out_of_range "Attempted to access data element field that was out of range.").
Proof. repeat split; reflexivity. Qed.

(** ** get_possible_values *)

Lemma get_possible_values_absent (ds : DataSet) (id : string) :
  get_var_by_id ds id = None -> get_possible_values ds id = Ok 0.
Proof. intros H. unfold get_possible_values. rewrite H. reflexivity. Qed.

Lemma get_possible_values_quantitative (ds : DataSet) (id : string) (v : DataVar.t) :
  get_var_by_id ds id = Some v -> DataVar.data_type v = QUANTITATIVE ->
  get_possible_values ds id = Ok (-1).
Proof.
  intros Hv Hq. unfold get_possible_values. rewrite Hv, Hq. reflexivity.
Qed.

(** Claim C5, at its failing input: two rows that hold the same byte in the
    categorical column ["a"] and differ in column ["b"].  Column ["a"] has one
    distinct byte pattern, yet the count is 2: [memcmp] runs over the whole
    row buffers, and the variable found for the name is used for its type
    only. *)
Theorem get_possible_values_counts_whole_rows :
  get_var_by_id Samples.two_rows "a" = Some Samples.col_a
  /\ DataVar.data_type Samples.col_a = CATEGORICAL
  /\ map (fun e => deref (get_field_var e Samples.col_a) (DataVar.size Samples.col_a))
         (data_elements Samples.two_rows)
     = [Ok (chars "x"); Ok (chars "x")]
  /\ get_possible_values Samples.two_rows "a" = Ok 2.
Proof. repeat split; reflexivity. Qed.

(** ** remove_var: the repack *)

(** Claim C1, at its failing input: column ["a"] (offset 0) is removed from
    the row ["xy"].  The surviving column ["b"] moves from offset 1 to offset
    0; the lookup of the moved variable among the old ones compares offsets
    too and finds nothing, so nothing is copied: the byte of ["b"] in the new
    row is the indeterminate content of the fresh buffer, not ["y"]. *)
Theorem remove_var_drops_moved_column :
  deref (get_field_var (mkElement (chars "xy")) Samples.col_b) 1 = Ok [Some "y"%char]
  /\ remove_var Samples.one_row Samples.col_a
     = Ok (mkDataSet [mkElement [None]] [DataVar.set_offset Samples.col_b 0])
  /\ find (fun ent => DataVar.eqb ent (DataVar.set_offset Samples.col_b 0))
          (data_variables Samples.one_row) = None
  /\ deref (get_field_var (mkElement [None]) (DataVar.set_offset Samples.col_b 0)) 1
     = Ok [None].
Proof. repeat split; reflexivity. Qed.

(** ** Row buffers have the element size *)

Lemma for_each_invariant {A S : Type} (body : S -> A -> result S) (P : S -> Prop) :
  (forall acc x acc', P acc -> body acc x = Ok acc' -> P acc') ->
  forall xs acc r, P acc -> for_each body xs acc = Ok r -> P r.
Proof.
  intros Hbody xs; induction xs as [| x xs IH]; simpl; intros acc r Hacc Hr.
  - injection Hr as <-. exact Hacc.
  - inv_bind Hr. eapply IH; [| exact Hr]. eapply Hbody; eassumption.
Qed.

Lemma DataElement_new_fit dat set e :
  DataElement_new dat set = Ok e -> buffer_size (data e) = get_element_size set.
Proof.
  unfold DataElement_new. intros H. inv_bind H. injection H as <-. simpl.
  apply memcpy_size in Hx. rewrite Hx. apply new_char_size.
  apply compute_elem_size_nonneg.
Qed.

Lemma DataElement_copy_fit e0 set e :
  DataElement_copy e0 set = Ok e -> buffer_size (data e) = get_element_size set.
Proof.
  unfold DataElement_copy. intros H. inv_bind H. injection H as <-. simpl.
  apply memcpy_size in Hx. rewrite Hx. apply new_char_size.
  apply compute_elem_size_nonneg.
Qed.

Lemma repack_fit old_variables new_variables d e :
  repack old_variables new_variables (DataVar.compute_elem_size new_variables) d = Ok e ->
  buffer_size (data e) = DataVar.compute_elem_size new_variables.
Proof.
  unfold repack. intros H. inv_bind H. injection H as <-. simpl.
  eapply (for_each_invariant _
            (fun b => buffer_size b = DataVar.compute_elem_size new_variables));
    [| | exact Hx]; cbv beta.
  - intros acc v acc' Hacc Hstep.
    destruct (find _ _); [| injection Hstep as <-; exact Hacc].
    apply memcpy_size in Hstep. congruence.
  - apply new_char_size. apply compute_elem_size_nonneg.
Qed.

Lemma rows_fit_same_variables es vars ds :
  rows_fit ds -> data_variables ds = vars ->
  (forall e, In e es -> In e (data_elements ds)) ->
  rows_fit (mkDataSet es vars).
Proof.
  unfold rows_fit, get_element_size. simpl. intros Hfit <- Hsub.
  rewrite Forall_forall in *. auto.
Qed.

Lemma remove_var_fit ds var ds' : remove_var ds var = Ok ds' -> rows_fit ds'.
Proof.
  unfold remove_var. destruct (negb _); [discriminate |].
  intros H. inv_bind H. injection H as <-.
  unfold rows_fit, get_element_size. simpl.
  eapply map_result_Forall; [| exact Hx].
  intros d e. apply repack_fit.
Qed.

Lemma forge_variable_fit (T : Type) (VT : ValueType T) ds new_var_id mut_id
    (mut : ptr -> T) ds' :
  forge_variable ds new_var_id mut_id mut = Ok ds' -> rows_fit ds'.
Proof.
  unfold forge_variable. destruct (String.eqb _ _); [discriminate |].
  destruct (get_var_by_id ds mut_id) as [src |]; [| discriminate].
  intros H. inv_bind H. injection H as <-.
  unfold rows_fit. cbn [data_elements data_variables].
  eapply map_result_Forall; [| exact Hx].
  intros de e He. cbv beta in He.
  inv_bind He. inv_bind He. inv_bind He. injection He as <-.
  unfold reformat. cbn [data].
  apply memcpy_size in Hx2, Hx0. rewrite Hx2, Hx0.
  apply new_char_size. apply compute_elem_size_nonneg.
Qed.

(** *** A transform that may throw *)

Lemma forge_rows_returning (f : DataElement -> result DataElement)
    (step : DataElement -> result (option DataElement)) (rows : list DataElement) :
  (forall de, step de = (e <- f de ;; Ok (Some e))) ->
  forge_rows step rows = (es <- map_result f rows ;; Ok (inl es)).
Proof.
  intros Hstep. induction rows as [| de rows IH]; cbn [forge_rows map_result bind];
    [reflexivity |].
  rewrite Hstep. destruct (f de) as [e | |]; cbn [bind]; try reflexivity.
  rewrite IH. destruct (map_result f rows); reflexivity.
Qed.

(** With a transform that returns on every field, [forge_variable_with]
    is [forge_variable]. *)
Lemma forge_variable_with_returning (T : Type) (VT : ValueType T) (ds : DataSet)
    (new_var_id mut_id : string) (mut : ptr -> T) :
  forge_variable_with ds new_var_id mut_id (fun p => Yields (mut p))
  = (ds' <- forge_variable ds new_var_id mut_id mut ;; Ok (Forged ds')).
Proof.
  unfold forge_variable_with, forge_variable.
  destruct (String.eqb new_var_id mut_id); [reflexivity |].
  destruct (get_var_by_id ds mut_id) as [src |]; [| reflexivity].
  cbv zeta.
  match goal with
  | |- _ = (ds' <- (es <- map_result ?f _ ;; _) ;; _) =>
      rewrite (forge_rows_returning f)
  end.
  - destruct (map_result _ (data_elements ds)); reflexivity.
  - intros de. destruct (memcpy _ 0 (get_raw_data de) 0 _); cbn [bind]; try reflexivity.
    destruct (get_field _ de mut_id); cbn [bind]; try reflexivity.
    destruct (memcpy _ _ _ 0 _); reflexivity.
Qed.

Lemma forge_rows_Forall (P : DataElement -> Prop)
    (step : DataElement -> result (option DataElement)) :
  (forall de e, step de = Ok (Some e) -> P e) ->
  forall rows es, forge_rows step rows = Ok (inl es) -> Forall P es.
Proof.
  intros Hstep rows. induction rows as [| de rows IH]; cbn [forge_rows]; intros es Hes.
  - injection Hes as <-. constructor.
  - inv_bind Hes. destruct x as [e |]; [| discriminate].
    inv_bind Hes. destruct x as [es' | es']; [| discriminate].
    injection Hes as <-. constructor; [eapply Hstep; eassumption | apply IH; assumption].
Qed.

Lemma forge_variable_with_fit (T : Type) (VT : ValueType T) ds new_var_id mut_id
    (mut : ptr -> transformed T) ds' :
  forge_variable_with ds new_var_id mut_id mut = Ok (Forged ds') -> rows_fit ds'.
Proof.
  unfold forge_variable_with. destruct (String.eqb _ _); [discriminate |].
  destruct (get_var_by_id ds mut_id) as [src |]; [| discriminate].
  intros H. inv_bind H. destruct x as [es | es]; [| discriminate]. injection H as <-.
  unfold rows_fit. cbn [data_elements data_variables].
  eapply forge_rows_Forall; [| exact Hx].
  intros de e He. cbv beta in He.
  inv_bind He. inv_bind He. destruct (mut x0) as [y |]; [| discriminate].
  inv_bind He. injection He as <-.
  unfold reformat. cbn [data].
  apply memcpy_size in Hx2, Hx0. rewrite Hx2, Hx0.
  apply new_char_size. apply compute_elem_size_nonneg.
Qed.

(** Claim C3, amended: in every data set built by the constructor and the
    public methods of [DataSet], as long as no transform given to
    [forge_variable] has thrown, each row buffer has exactly the current
    element size, the sum of the sizes of the variables; [remove_var] and
    [forge_variable] allocate every replacement buffer at the new element
    size, and rows are created at the current one. *)
Theorem reachable_rows_fit (ds : DataSet) : reached false ds -> rows_fit ds.
Proof.
  intros H. remember false as escaped eqn:Hflag.
  induction H as
    [vars ds Hnew
    | b ds ds' _ IH Hop | b ds index dat ds' _ IH Hop | b ds dat ds' _ IH Hop
    | b ds index ds' _ IH Hop | b ds _ IH | b ds var ds' _ IH Hop
    | b ds id ds' _ IH Hop | T VT b ds new_var_id mut_id mut ds' _ IH Hop
    | T VT b ds new_var_id mut_id mut ds' _ IH Hop];
    try specialize (IH Hflag).
  - unfold DataSet_new in Hnew. destruct (_ =? _); [discriminate |].
    injection Hnew as <-. constructor.
  - unfold DataSet_copy in Hop. inv_bind Hop. injection Hop as <-.
    unfold rows_fit, get_element_size. simpl.
    eapply map_result_Forall; [| exact Hx].
    intros e0 e. apply DataElement_copy_fit.
  - unfold insert_element in Hop. inv_bind Hop. inv_bind Hop. injection Hop as <-.
    apply DataElement_new_fit in Hx. unfold vector_insert in Hx0.
    destruct (_ && _); [| discriminate]. injection Hx0 as <-.
    unfold rows_fit in *. simpl. apply Forall_app. split.
    + apply Forall_forall. intros e He. apply In_firstn in He.
      rewrite Forall_forall in IH. auto.
    + constructor; [exact Hx |].
      apply Forall_forall. intros e He. apply In_skipn in He.
      rewrite Forall_forall in IH. auto.
  - unfold append_element in Hop. inv_bind Hop. injection Hop as <-.
    apply DataElement_new_fit in Hx.
    unfold rows_fit in *. simpl. apply Forall_app. split; [exact IH |].
    constructor; [exact Hx | constructor].
  - unfold remove_element in Hop. destruct (_ || _); [discriminate |].
    inv_bind Hop. injection Hop as <-. unfold vector_erase in Hx.
    destruct (_ && _); [| discriminate]. injection Hx as <-.
    apply (rows_fit_same_variables _ _ ds IH eq_refl).
    intros e He. apply in_app_or in He. destruct He as [He | He].
    + eapply In_firstn. exact He.
    + apply (In_skipn (S (Z.to_nat index))). exact He.
  - constructor.
  - eapply remove_var_fit. exact Hop.
  - unfold remove_var_id in Hop. destruct (get_var_by_id ds id); [| discriminate].
    eapply remove_var_fit. exact Hop.
  - eapply forge_variable_with_fit. exact Hop.
  - discriminate Hflag.
Qed.

Lemma reachable_rows_fit_witness :
  reached false Samples.forged_then_removed /\ rows_fit Samples.forged_then_removed.
Proof.
  assert (H : reached false Samples.forged_then_removed).
  { apply (reach_remove_var_id false
             (mkDataSet [mkElement (chars "xyx")]
                [Samples.col_a; Samples.col_b;
                 DataVar.make "c" EXPLANATORY CATEGORICAL 1 2]) "b");
      [| reflexivity].
    apply (reach_forge ascii char_ValueType false Samples.one_row "c" "a"
             (fun p => Yields (Samples.first_char p)));
      [| reflexivity].
    apply (reach_append false (mkDataSet [] [Samples.col_a; Samples.col_b]) (chars "xy"));
      [| reflexivity].
    apply (reach_new [Samples.col_a; Samples.col_b]). reflexivity. }
  split; [exact H | exact (reachable_rows_fit Samples.forged_then_removed H)].
Defined.

Lemma reached_two_rows : reached false Samples.two_rows.
Proof.
  apply (reach_append false (mkDataSet [mkElement (chars "xy")] [Samples.col_a; Samples.col_b])
           (chars "xz")); [| reflexivity].
  apply (reach_append false (mkDataSet [] [Samples.col_a; Samples.col_b]) (chars "xy"));
    [| reflexivity].
  apply (reach_new [Samples.col_a; Samples.col_b]). reflexivity.
Qed.

Lemma reachable_half_forged : reachable Samples.half_forged.
Proof.
  exists true.
  apply (reach_forge_escaped ascii char_ValueType false Samples.two_rows "c" "b"
           Samples.refuse_z Samples.half_forged reached_two_rows).
  reflexivity.
Qed.

(** Claim C3 as written fails: a transform that throws on the second of
    two rows leaves the store with the new variable, the first row at the
    new element size and the second at the old one. *)
Theorem forge_variable_escaped_unfit :
  reached false Samples.two_rows
  /\ forge_variable_with Samples.two_rows "c" "b" Samples.refuse_z
     = Ok (Escaped Samples.half_forged)
  /\ reachable Samples.half_forged
  /\ get_element_size Samples.half_forged = 3
  /\ map (fun e => buffer_size (data e)) (data_elements Samples.half_forged) = [3; 2]
  /\ ~ rows_fit Samples.half_forged.
Proof.
  split; [exact reached_two_rows |]. split; [reflexivity |].
  split; [exact reachable_half_forged |].
  split; [reflexivity |]. split; [reflexivity |].
  intros Hfit. inversion Hfit as [| e es _ Hrest]; subst.
  inversion Hrest as [| e' es' Hsecond _]; subst.
  vm_compute in Hsecond. discriminate Hsecond.
Qed.

(** ** Helpers::is_number *)

Section IsNumber.

Import Helpers.

Local Open Scope string_scope.

Lemma numeral_char_not_space c : numeral_char c = true -> isspace c = false.
Proof.
  destruct c as [[] [] [] [] [] [] [] []]; vm_compute; congruence.
Qed.

Lemma numeral_char_cases c :
  numeral_char c = true ->
  negb (isdigit c) && negb (Ascii.eqb c ".") = false.
Proof.
  unfold numeral_char. destruct (isdigit c), (Ascii.eqb c "."); simpl; congruence.
Qed.

Lemma only_spaces_all_chars s : only_spaces s = all_chars isspace s.
Proof.
  induction s as [| c s IH]; simpl; [reflexivity |].
  destruct (isspace c); simpl; [exact IH | reflexivity].
Qed.

Lemma count_char_nonneg c s : 0 <= count_char c s.
Proof.
  induction s as [| x s IH]; simpl; [lia |]. destruct (Ascii.eqb x c); lia.
Qed.

(** The first loop drops a prefix of white space and stops at the end or
    at a character that is not white space. *)
Lemma skip_spaces_split s :
  exists pre, s = pre ++ skip_spaces s /\ all_chars isspace pre = true.
Proof.
  induction s as [| c s [pre [Heq Hpre]]]; simpl.
  - exists "". split; reflexivity.
  - destruct (isspace c) eqn:Hc; simpl.
    + exists (String c pre). simpl. rewrite Hc, Hpre. split; [congruence | reflexivity].
    + exists "". split; reflexivity.
Qed.

Lemma skip_spaces_prefix pre s :
  all_chars isspace pre = true -> skip_spaces (pre ++ s) = skip_spaces s.
Proof.
  induction pre as [| c pre IH]; simpl; intros H; [reflexivity |].
  apply andb_prop in H. destruct H as [Hc Hpre]. rewrite Hc. simpl. auto.
Qed.

Lemma skip_spaces_numeral body post :
  body <> "" -> all_chars numeral_char body = true ->
  skip_spaces (body ++ post) = body ++ post.
Proof.
  destruct body as [| c body]; [congruence |]. simpl. intros _ H.
  apply andb_prop in H. destruct H as [Hc _].
  rewrite (numeral_char_not_space c Hc). reflexivity.
Qed.

(** What the middle loop has read when it stops without returning. *)
Lemma number_loop_Some s : forall num_read num_radix rest n,
  number_loop s num_read num_radix = Some (rest, n) ->
  exists body,
    s = body ++ rest
    /\ all_chars numeral_char body = true
    /\ (count_char "." body = 0 \/ num_radix + count_char "." body <= 1)
    /\ n = num_read + string_size body.
Proof.
  induction s as [| c s IH]; simpl; intros num_read num_radix rest n H.
  - injection H as <- <-. exists "". repeat split; auto. unfold string_size; simpl; lia.
  - destruct (isspace c) eqn:Hsp.
    { injection H as <- <-. exists "". repeat split; auto.
      unfold string_size; simpl; lia. }
    destruct (negb (isdigit c) && negb (Ascii.eqb c ".")) eqn:Hnc; [discriminate |].
    assert (Hch : numeral_char c = true).
    { unfold numeral_char. destruct (isdigit c), (Ascii.eqb c "."); simpl in *; congruence. }
    destruct (Ascii.eqb c ".") eqn:Hdot.
    + destruct (num_radix + 1 >? 1) eqn:Hr; [discriminate |].
      apply IH in H. destruct H as [body [-> [Hall [Hcnt ->]]]].
      exists (String c body). simpl. rewrite Hch, Hall, Hdot.
      repeat split; auto.
      * right. pose proof (count_char_nonneg "." body).
        destruct (Z.gtb_spec (num_radix + 1) 1); [discriminate |]. lia.
      * unfold string_size. simpl String.length. lia.
    + apply IH in H. destruct H as [body [-> [Hall [Hcnt ->]]]].
      exists (String c body). simpl. rewrite Hch, Hall, Hdot.
      repeat split; auto.
      unfold string_size. simpl String.length. lia.
Qed.

(** The middle loop over a body of numeral characters followed by white
    space reads exactly the body. *)
Lemma number_loop_numeral body : forall post num_read num_radix,
  all_chars numeral_char body = true ->
  0 <= num_radix ->
  num_radix + count_char "." body <= 1 ->
  all_chars isspace post = true ->
  number_loop (body ++ post) num_read num_radix
  = Some (post, num_read + string_size body).
Proof.
  induction body as [| c body IH]; simpl; intros post num_read num_radix Hall H0 Hcnt Hpost.
  - unfold string_size. simpl. rewrite Z.add_0_r.
    destruct post as [| p post]; [reflexivity |]. simpl in *.
    apply andb_prop in Hpost. destruct Hpost as [Hp _]. rewrite Hp. reflexivity.
  - apply andb_prop in Hall. destruct Hall as [Hc Hall].
    rewrite (numeral_char_not_space c Hc), (numeral_char_cases c Hc).
    pose proof (count_char_nonneg "." body) as Hnn.
    destruct (Ascii.eqb c ".") eqn:Hdot.
    + destruct (Z.gtb_spec (num_radix + 1) 1); [lia |].
      rewrite IH; try assumption; try lia.
      f_equal. f_equal. unfold string_size. simpl String.length. lia.
    + rewrite IH; try assumption; try lia.
      f_equal. f_equal. unfold string_size. simpl String.length. lia.
Qed.

Lemma is_number_shape str : is_number str = true -> numeral_shape str.
Proof.
  unfold is_number. intros H.
  destruct (skip_spaces_split str) as [pre [Hstr Hpre]].
  destruct (number_loop (skip_spaces str) 0 0) as [[rest n] |] eqn:Hloop;
    [| discriminate].
  destruct (only_spaces rest) eqn:Hrest; [| discriminate].
  apply number_loop_Some in Hloop. destruct Hloop as [body [Hbody [Hall [Hcnt ->]]]].
  exists pre, body, rest. rewrite <- Hbody.
  repeat split; auto.
  - intros ->. vm_compute in H. discriminate.
  - lia.
  - rewrite <- only_spaces_all_chars. exact Hrest.
Qed.

Lemma shape_is_number str : numeral_shape str -> is_number str = true.
Proof.
  intros [pre [body [post [-> [Hpre [Hne [Hall [Hcnt Hpost]]]]]]]].
  unfold is_number.
  rewrite (skip_spaces_prefix pre _ Hpre), (skip_spaces_numeral body post Hne Hall).
  rewrite (number_loop_numeral body post 0 0 Hall); [| lia | lia | exact Hpost].
  rewrite only_spaces_all_chars, Hpost.
  destruct body as [| c body]; [congruence |].
  unfold string_size. simpl String.length.
  destruct (Z.gtb_spec (0 + Z.of_nat (S (String.length body))) 0); [reflexivity | lia].
Qed.

(** A leading sign is neither a digit nor ['.']. *)
Lemma is_number_signed s : is_number (String "-" s) = false.
Proof. reflexivity. Qed.

End IsNumber.

(** ** Streams over token lists *)

Lemma string_app_assoc (a b c : string) : ((a ++ b) ++ c = a ++ (b ++ c))%string.
Proof. induction a as [| x a IH]; simpl; [reflexivity | rewrite IH; reflexivity]. Qed.

Lemma string_app_empty_r (a : string) : (a ++ "")%string = a.
Proof. induction a as [| x a IH]; simpl; [reflexivity | rewrite IH; reflexivity]. Qed.

Lemma all_chars_app p (a b : string) :
  all_chars p (a ++ b) = all_chars p a && all_chars p b.
Proof.
  induction a as [| x a IH]; simpl; [reflexivity |].
  rewrite IH, andb_assoc. reflexivity.
Qed.

Lemma all_chars_impl (p q : ascii -> bool) (s : string) :
  (forall c, p c = true -> q c = true) -> all_chars p s = true -> all_chars q s = true.
Proof.
  intros Hpq. induction s as [| c s IH]; simpl; [reflexivity |].
  intros H. apply andb_prop in H. destruct H as [Hc Hs].
  rewrite (Hpq c Hc), (IH Hs). reflexivity.
Qed.

(** Up to a delimiter that the token does not hold. *)
Lemma extract_delim delim (tok r : string) :
  all_chars (fun c => negb (Ascii.eqb c delim)) tok = true ->
  extract delim (tok ++ String delim r) = (tok, r, false).
Proof.
  induction tok as [| c tok IH]; simpl; intros H.
  - rewrite Ascii.eqb_refl. reflexivity.
  - apply andb_prop in H. destruct H as [Hc Htok].
    apply negb_true_iff in Hc. rewrite Hc, (IH Htok). reflexivity.
Qed.

(** Up to the end of the text. *)
Lemma extract_end delim (tok : string) :
  all_chars (fun c => negb (Ascii.eqb c delim)) tok = true ->
  extract delim tok = (tok, "", true).
Proof.
  induction tok as [| c tok IH]; simpl; intros H; [reflexivity |].
  apply andb_prop in H. destruct H as [Hc Htok].
  apply negb_true_iff in Hc. rewrite Hc, (IH Htok). reflexivity.
Qed.

Lemma field_no_comma tok :
  field tok -> all_chars (fun c => negb (Ascii.eqb c ",")) tok = true.
Proof.
  intros [H _]. revert H. apply all_chars_impl.
  intros c Hc. unfold field_char in Hc. apply andb_prop in Hc. tauto.
Qed.

Lemma join_fields_cons tok toks :
  toks <> [] -> join_fields (tok :: toks) = (tok ++ String "," (join_fields toks))%string.
Proof. destruct toks; [congruence | reflexivity]. Qed.

Lemma join_fields_no_newline toks :
  Forall field toks ->
  all_chars (fun c => negb (Ascii.eqb c "010")) (join_fields toks) = true.
Proof.
  induction 1 as [| tok toks [Htok _] _ IH]; [reflexivity |].
  assert (Hnl : all_chars (fun c => negb (Ascii.eqb c "010")) tok = true).
  { revert Htok. apply all_chars_impl.
    intros c Hc. unfold field_char in Hc. apply andb_prop in Hc. tauto. }
  destruct toks as [| t toks]; [exact Hnl |].
  rewrite join_fields_cons by discriminate.
  rewrite all_chars_app, Hnl. simpl all_chars at 1. exact IH.
Qed.

Lemma record_cons tok t toks : record (tok :: t :: toks) -> record (t :: toks).
Proof.
  intros [Hall Hlast]. split; [inversion Hall; assumption | exact Hlast].
Qed.

(** Reading the next field of a record. *)
Lemma getline_field (e : istream) (l tok : string) (toks : list string) :
  fields_left e (tok :: toks) -> record (tok :: toks) ->
  exists e', getline e l "," = (e', tok) /\ failbit e' = false /\ fields_left e' toks.
Proof.
  intros [Hrest [Heof Hfail]] Hrec. unfold getline. rewrite Heof, Hfail. simpl orb. cbv iota.
  rewrite Hrest.
  assert (Htok : all_chars (fun c => negb (Ascii.eqb c ",")) tok = true).
  { apply field_no_comma. destruct Hrec as [Hall _]. inversion Hall; assumption. }
  destruct toks as [| t toks].
  - simpl join_fields. rewrite (extract_end _ _ Htok).
    destruct Hrec as [_ Hlast]. simpl in Hlast.
    destruct tok; [congruence |]. eexists. split; [reflexivity |]. split; reflexivity.
  - rewrite join_fields_cons by discriminate.
    rewrite (extract_delim _ _ _ Htok).
    destruct tok; (eexists; split; [reflexivity |]; repeat split; reflexivity).
Qed.

(** [std::getline] at the end of a record fails. *)
Lemma getline_no_field (e : istream) (l : string) :
  fields_left e [] -> exists e', getline e l "," = (e', l) /\ failbit e' = true.
Proof.
  simpl. intros Heof. unfold getline. rewrite Heof. simpl.
  eexists. split; reflexivity.
Qed.

(** A fresh string stream over the text of a record. *)
Lemma fields_left_open toks : toks <> [] -> fields_left (istream_open (join_fields toks)) toks.
Proof.
  destruct toks; [congruence |]. intros _. simpl. repeat split; reflexivity.
Qed.

(** Reading one line of a file of records. *)
Lemma getline_record (text : string) (l : string) (toks : list string) (more : string) :
  Forall field toks ->
  getline (mkistream text (join_fields toks ++ String "010" more) false false) l "010"
  = (mkistream text more false false, join_fields toks).
Proof.
  intros Hall. unfold getline. simpl orb. cbv iota. cbn [rest content].
  rewrite (extract_delim _ _ _ (join_fields_no_newline toks Hall)).
  destruct (join_fields toks); reflexivity.
Qed.

(** At the end of the file [std::getline] sets [eofbit]. *)
Lemma getline_eof (text l : string) :
  getline (mkistream text "" false false) l "010" = (mkistream text "" true true, "").
Proof. reflexivity. Qed.

(** ** Vectors *)

Section VectorSet.

Context {A : Type}.

Lemma vector_set_length (v : list A) (c : nat) (x : A) :
  (c < List.length v)%nat -> List.length (vector_set v (Z.of_nat c) x) = List.length v.
Proof.
  intros Hc. unfold vector_set. rewrite Nat2Z.id.
  rewrite length_app, length_firstn. cbn [List.length]. rewrite length_skipn. lia.
Qed.

Lemma vector_set_same (v : list A) (c : nat) (x : A) :
  (c < List.length v)%nat -> nth_error (vector_set v (Z.of_nat c) x) c = Some x.
Proof.
  intros Hc. unfold vector_set. rewrite Nat2Z.id.
  rewrite nth_error_app2; rewrite length_firstn; [| lia].
  replace (c - Nat.min c (List.length v))%nat with 0%nat by lia. reflexivity.
Qed.

Lemma vector_set_other (v : list A) (c i : nat) (x : A) :
  (c < List.length v)%nat -> i <> c ->
  nth_error (vector_set v (Z.of_nat c) x) i = nth_error v i.
Proof.
  intros Hc Hi. unfold vector_set. rewrite Nat2Z.id.
  rewrite <- (firstn_skipn c v) at 3.
  destruct (Nat.lt_ge_cases i c) as [Hlt | Hge].
  - rewrite !nth_error_app1; try (rewrite length_firstn; lia). reflexivity.
  - rewrite !nth_error_app2; try (rewrite length_firstn; lia).
    rewrite length_firstn, (nth_error_skipn c v).
    replace (i - Nat.min c (List.length v))%nat with (S (i - c - 1)) at 1 by lia.
    cbn [nth_error].
    rewrite nth_error_skipn. f_equal. lia.
Qed.

Lemma vector_set_split (v : list A) (c : nat) (x y : A) :
  nth_error v c = Some y ->
  v = firstn c v ++ y :: skipn (S c) v
  /\ vector_set v (Z.of_nat c) x = firstn c v ++ x :: skipn (S c) v.
Proof.
  intros Hy. split.
  - rewrite <- (firstn_skipn c v) at 1. f_equal.
    revert c Hy. induction v as [| a v IH]; intros [| c]; simpl; intros Hy;
      try discriminate.
    + injection Hy as ->. reflexivity.
    + apply IH. exact Hy.
  - unfold vector_set. rewrite Nat2Z.id. reflexivity.
Qed.

End VectorSet.

(** ** The scan of the inferring import, over token lists *)

Section ScanSimulation.

Context {Q : QuantType}.

Variables (names row1 : list string) (rows1 : list (list string)).

Hypothesis names_count : Z.of_nat (List.length names) <= INT_MAX.
Hypothesis names_fields : Forall field names.
Hypothesis rows_records : Forall record (row1 :: rows1).
Hypothesis rows_width :
  Forall (fun r => List.length r = List.length names) (row1 :: rows1).

Local Abbreviation text := (csv_text (names :: row1 :: rows1)).

Lemma scan_field_restart v tok v' :
  scan_field v tok = (true, v') ->
  DataVar.data_type v = QUANTITATIVE /\ DataVar.data_type v' = CATEGORICAL.
Proof.
  unfold scan_field.
  destruct (_ && _); [discriminate |].
  destruct (DataVar.DataType_eqb (DataVar.data_type v) QUANTITATIVE) eqn:Hq;
    cbn [andb]; [| discriminate].
  destruct (negb _); [| discriminate].
  intros H. injection H as <-. split; [| reflexivity].
  destruct (DataVar.data_type v); [discriminate | reflexivity].
Qed.

(** The restart: rewind, skip the header, read the first data line. *)
Lemma restart_reads_first_line (f : istream) (l : string) :
  content f = text ->
  let (f1, l1) := getline (seekg0 (clear f)) l "010" in
  getline f1 l1 "010"
  = (mkistream text (csv_text rows1) false false, join_fields row1).
Proof.
  intros Hcontent. unfold clear, seekg0. cbn [failbit content]. rewrite Hcontent.
  cbn [csv_text]. rewrite (getline_record _ l names _ names_fields).
  apply getline_record. inversion rows_records as [| ? ? [Hall _] _]. exact Hall.
Qed.

(** The fields of one line, from column [c] on. *)
Lemma scan_fields_sim (toks : list string) : forall (vs : list DataVar.t) (c : nat) (s : scan),
  vars s = vs -> cnt s = Z.of_nat c -> fields_left (ess s) toks ->
  (toks <> [] -> record toks) ->
  (c + List.length toks = List.length vs)%nat ->
  List.length vs = List.length names ->
  content (file s) = text ->
  exists (k : nat) (s' : scan),
    (forall fuel, scan_loop (k + fuel) s = scan_loop fuel s')
    /\ vars s' = snd (scan_fields vs c toks)
    /\ List.length (vars s') = List.length names
    /\ if fst (scan_fields vs c toks)
       then row_start text (vars s') row1 rows1 s'
       else file s' = file s /\ fields_left (ess s') []
            /\ cnt s' = Z.of_nat (List.length names).
Proof.
  induction toks as [| tok toks IH]; intros vs c s Hvars Hcnt Hess Hrec Hlen Hn Htext.
  - exists 0%nat, s. cbn [scan_fields fst snd]. simpl in Hlen.
    repeat split; auto; try congruence.
    rewrite Hcnt. f_equal. lia.
  - specialize (Hrec ltac:(discriminate)).
    destruct (getline_field (ess s) (line s) tok toks Hess Hrec)
      as [e' [Hget [Hfail Hleft]]].
    cbn [List.length] in Hlen.
    destruct (nth_error vs c) as [v |] eqn:Hv.
    2:{ apply nth_error_None in Hv. lia. }
    assert (Hstep : scan_step s =
                    let (restart, v') := scan_field v tok in
                    let vars' := vector_set vs (Z.of_nat c) v' in
                    if restart
                    then inl (mkscan vars' (mkistream text (csv_text rows1) false false)
                                (join_fields row1) (istream_open (join_fields row1)) 0)
                    else inl (mkscan vars' (file s) tok e' (Z.of_nat (S c)))).
    { unfold scan_step. rewrite Hget, Hfail, Hvars, Hcnt. cbn [negb].
      rewrite to_int_small by lia.
      destruct (Z.geb_spec (Z.of_nat c) (Z.of_nat (List.length vs))); [lia |].
      rewrite Nat2Z.id, Hv.
      destruct (scan_field v tok) as [restart v']. destruct restart.
      - pose proof (restart_reads_first_line (file s) tok Htext) as Hre.
        destruct (getline (seekg0 (clear (file s))) tok "010") as [f1 l1].
        rewrite Hre. reflexivity.
      - do 2 f_equal. lia. }
    cbn [scan_fields]. rewrite Hv.
    destruct (scan_field v tok) as [restart v'] eqn:Hfield. destruct restart.
    + eexists 1%nat, _. cbn [fst snd].
      split; [intros fuel; cbn [Nat.add scan_loop]; rewrite Hstep; reflexivity |].
      cbn [vars]. split; [reflexivity |].
      split; [rewrite vector_set_length; lia |].
      repeat split; reflexivity.
    + destruct (IH (vector_set vs (Z.of_nat c) v') (S c)
                  (mkscan (vector_set vs (Z.of_nat c) v') (file s) tok e' (Z.of_nat (S c))))
        as [k [s' [Hloop [Hvs' [Hlen' Hend]]]]]; auto.
      * intros Hne. destruct toks as [| t toks]; [congruence |].
        eapply record_cons. exact Hrec.
      * rewrite vector_set_length; lia.
      * rewrite vector_set_length; lia.
      * exists (S k), s'.
        split; [intros fuel; cbn [Nat.add scan_loop]; rewrite Hstep; apply Hloop |].
        split; [exact Hvs' |]. split; [exact Hlen' |].
        destruct (fst (scan_fields _ _ _)); [exact Hend |].
        exact Hend.
Qed.

Lemma scan_fields_length (toks : list string) : forall vs c,
  List.length (snd (scan_fields vs c toks)) = List.length vs.
Proof.
  induction toks as [| tok toks IH]; intros vs c; cbn [scan_fields snd]; [reflexivity |].
  destruct (nth_error vs c) as [v |] eqn:Hv; [| reflexivity].
  assert (Hc : (c < List.length vs)%nat) by (apply nth_error_Some; congruence).
  destruct (scan_field v tok) as [[] v']; cbn [snd].
  - apply vector_set_length. exact Hc.
  - rewrite IH. apply vector_set_length. exact Hc.
Qed.

Lemma scan_rows_length (rows : list (list string)) : forall vs,
  List.length (snd (scan_rows vs rows)) = List.length vs.
Proof.
  induction rows as [| row rows IH]; intros vs; cbn [scan_rows snd]; [reflexivity |].
  pose proof (scan_fields_length row vs 0) as Hrow.
  destruct (scan_fields vs 0 row) as [[] vs1]; cbn [snd] in *; [exact Hrow |].
  rewrite IH. exact Hrow.
Qed.

Lemma scan_rows_cons vs row (rows : list (list string)) :
  scan_rows vs (row :: rows)
  = let (restart, vs') := scan_fields vs 0 row in
    if restart then (true, vs') else scan_rows vs' rows.
Proof. reflexivity. Qed.

(** One pass, from the first field of a data line. *)
Lemma scan_rows_sim (more : list (list string)) : forall (row : list string) vs s,
  Forall record (row :: more) ->
  Forall (fun r => List.length r = List.length names) (row :: more) ->
  List.length vs = List.length names ->
  row_start text vs row more s ->
  if fst (scan_rows vs (row :: more))
  then exists (k : nat) (s' : scan),
         (forall fuel, scan_loop (k + fuel) s = scan_loop fuel s')
         /\ row_start text (snd (scan_rows vs (row :: more))) row1 rows1 s'
  else exists k : nat,
         forall fuel, scan_loop (k + fuel) s = Some (Ok (snd (scan_rows vs (row :: more)))).
Proof.
  induction more as [| row2 more IH]; intros row vs s Hrecs Hwidth Hn Hstart;
    destruct Hstart as [Hvars [Hfile [Hess Hcnt]]];
    inversion Hrecs as [| ? ? Hrec Hrecs']; subst;
    inversion Hwidth as [| ? ? Hw Hwidth']; subst;
    (assert (Hne : row <> []) by (destruct Hrec as [_ Hl]; destruct row; auto; discriminate));
    (destruct (scan_fields_sim row (vars s) 0 s eq_refl Hcnt) as [k [s1 [Hloop [Hvs1 [Hlen1 Hend]]]]];
     [ rewrite Hess; apply fields_left_open; exact Hne
     | intros _; exact Hrec | simpl; lia | exact Hn | rewrite Hfile; reflexivity | ]);
    rewrite scan_rows_cons;
    destruct (scan_fields (vars s) 0 row) as [restart vs1] eqn:Hrow;
    cbn [fst snd] in *; destruct restart; cbn [fst snd];
    try (exists k, s1; split; [exact Hloop | rewrite <- Hvs1; exact Hend]).
  - (* the last line: the file is at its end *)
    destruct Hend as [Hfile1 [Hess1 Hcnt1]].
    exists (k + 1)%nat. intros fuel. rewrite <- Nat.add_assoc, Hloop.
    cbn [Nat.add scan_loop]. unfold scan_step.
    destruct (getline_no_field (ess s1) (line s1) Hess1) as [e' [Hget Hfail]].
    rewrite Hget, Hfail, Hcnt1, Hlen1. cbn [negb].
    rewrite to_int_small by lia.
    destruct (Z.ltb_spec (Z.of_nat (List.length names)) (Z.of_nat (List.length names)));
      [lia |].
    rewrite Hfile1, Hfile. cbn [csv_text]. rewrite getline_eof. cbn [eof eofbit].
    rewrite Hvs1. reflexivity.
  - (* another line follows *)
    destruct Hend as [Hfile1 [Hess1 Hcnt1]].
    assert (Hnext : exists s2, (forall fuel, scan_loop (S fuel) s1 = scan_loop fuel s2)
                               /\ row_start text vs1 row2 more s2).
    { destruct (getline_no_field (ess s1) (line s1) Hess1) as [e' [Hget Hfail]].
      eexists. split.
      - intros fuel. cbn [scan_loop]. unfold scan_step.
        rewrite Hget, Hfail, Hcnt1, Hlen1. cbn [negb].
        rewrite to_int_small by lia.
        destruct (Z.ltb_spec (Z.of_nat (List.length names)) (Z.of_nat (List.length names)));
          [lia |].
        rewrite Hfile1, Hfile. cbn [csv_text].
        rewrite getline_record by (inversion Hrecs' as [| ? ? [Hall _] _]; exact Hall).
        cbn [eof eofbit]. reflexivity.
      - repeat split; auto. }
    destruct Hnext as [s2 [Hstep Hstart2]].
    specialize (IH row2 vs1 s2 Hrecs' Hwidth' ltac:(congruence) Hstart2).
    destruct (fst (scan_rows vs1 (row2 :: more))).
    + destruct IH as [k2 [s' [Hloop2 Hstart']]].
      exists (k + S k2)%nat, s'. split; [| exact Hstart'].
      intros fuel. rewrite <- Nat.add_assoc, Hloop. cbn [Nat.add].
      rewrite Hstep. apply Hloop2.
    + destruct IH as [k2 Hloop2].
      exists (k + S k2)%nat. intros fuel. rewrite <- Nat.add_assoc, Hloop. cbn [Nat.add].
      rewrite Hstep. apply Hloop2.
Qed.

(** All the passes, from the first field of the first data line. *)
Lemma scan_passes_sim vs vs' :
  scan_passes (row1 :: rows1) vs vs' -> forall s,
  List.length vs = List.length names ->
  row_start text vs row1 rows1 s ->
  exists k : nat, forall fuel, scan_loop (k + fuel) s = Some (Ok vs').
Proof.
  induction 1 as [vs vs' Hpass | vs vs1 vs' Hpass _ IH]; intros s Hn Hstart.
  - pose proof (scan_rows_sim rows1 row1 vs s rows_records rows_width Hn Hstart) as Hsim.
    rewrite Hpass in Hsim. exact Hsim.
  - pose proof (scan_rows_sim rows1 row1 vs s rows_records rows_width Hn Hstart) as Hsim.
    pose proof (scan_rows_length (row1 :: rows1) vs) as Hlen.
    rewrite Hpass in Hsim, Hlen. cbn [fst snd] in Hsim, Hlen.
    destruct Hsim as [k [s' [Hloop Hstart']]].
    destruct (IH s' ltac:(congruence) Hstart') as [k2 Hloop2].
    exists (k + k2)%nat. intros fuel. rewrite <- Nat.add_assoc, Hloop. apply Hloop2.
Qed.

End ScanSimulation.

(** ** The passes of the scan end *)

Section ScanPasses.

Context {Q : QuantType}.

Lemma quantitative_count_set vs c v v' :
  nth_error vs c = Some v ->
  (quantitative_count (vector_set vs (Z.of_nat c) v') + is_quantitative v
   = quantitative_count vs + is_quantitative v')%nat.
Proof.
  intros Hv. destruct (vector_set_split vs c v' v Hv) as [Hvs Hset].
  rewrite Hset. rewrite Hvs at 3. unfold quantitative_count.
  rewrite !map_app, !list_sum_app. cbn [map list_sum fold_right]. lia.
Qed.

Lemma scan_field_count v tok :
  if fst (scan_field v tok)
  then (is_quantitative (snd (scan_field v tok)) < is_quantitative v)%nat
  else (is_quantitative (snd (scan_field v tok)) <= is_quantitative v)%nat.
Proof.
  destruct v as [id vt dt sz off]. unfold scan_field, is_quantitative.
  cbn [DataVar.data_type DataVar.size].
  destruct (Helpers.is_number tok), dt, (sz =? SIZE_MAX);
    cbn [DataVar.DataType_eqb andb negb orb fst snd];
    try destruct (sz <? size_t_wrap (string_size tok + 1));
    cbn; lia.
Qed.

Lemma scan_fields_count (toks : list string) : forall vs c,
  if fst (scan_fields vs c toks)
  then (quantitative_count (snd (scan_fields vs c toks)) < quantitative_count vs)%nat
  else (quantitative_count (snd (scan_fields vs c toks)) <= quantitative_count vs)%nat.
Proof.
  induction toks as [| tok toks IH]; intros vs c; cbn [scan_fields fst snd]; [lia |].
  destruct (nth_error vs c) as [v |] eqn:Hv; cbn [fst snd]; [| lia].
  pose proof (scan_field_count v tok) as Hf.
  destruct (scan_field v tok) as [restart v']. cbn [fst snd] in Hf.
  pose proof (quantitative_count_set vs c v v' Hv) as Hset.
  destruct restart; cbn [fst snd]; [lia |].
  specialize (IH (vector_set vs (Z.of_nat c) v') (S c)).
  destruct (fst (scan_fields _ _ _)); lia.
Qed.

Lemma scan_rows_count (rows : list (list string)) : forall vs,
  if fst (scan_rows vs rows)
  then (quantitative_count (snd (scan_rows vs rows)) < quantitative_count vs)%nat
  else (quantitative_count (snd (scan_rows vs rows)) <= quantitative_count vs)%nat.
Proof.
  induction rows as [| row rows IH]; intros vs; cbn [scan_rows fst snd]; [lia |].
  pose proof (scan_fields_count row vs 0) as Hrow.
  destruct (scan_fields vs 0 row) as [restart vs1]. cbn [fst snd] in Hrow.
  destruct restart; cbn [fst snd]; [exact Hrow |].
  specialize (IH vs1). destruct (fst (scan_rows vs1 rows)); lia.
Qed.

(** Every restart turns a quantitative column categorical, so there are
    at most as many restarts as columns. *)
Lemma scan_passes_end (rows : list (list string)) (vs : list DataVar.t) :
  exists vs', scan_passes rows vs vs'.
Proof.
  remember (quantitative_count vs) as n eqn:Hn.
  revert vs Hn. induction n as [n IH] using lt_wf_ind. intros vs Hn.
  pose proof (scan_rows_count rows vs) as Hcount.
  destruct (scan_rows vs rows) as [restart vs1] eqn:Hpass. cbn [fst snd] in Hcount.
  destruct restart.
  - destruct (IH (quantitative_count vs1) ltac:(lia) vs1 eq_refl) as [vs' Hvs'].
    exists vs'. eapply restarted_pass; eassumption.
  - exists vs1. apply last_pass. exact Hpass.
Qed.

(** *** Columns are scanned independently *)

Lemma scan_fields_before (toks : list string) : forall vs c k,
  (k < c)%nat -> nth_error (snd (scan_fields vs c toks)) k = nth_error vs k.
Proof.
  induction toks as [| tok toks IH]; intros vs c k Hk; cbn [scan_fields snd];
    [reflexivity |].
  destruct (nth_error vs c) as [v |] eqn:Hv; [| reflexivity].
  assert (Hc : (c < List.length vs)%nat) by (apply nth_error_Some; congruence).
  destruct (scan_field v tok) as [[] v']; cbn [snd].
  - apply vector_set_other; [exact Hc | lia].
  - rewrite IH by lia. apply vector_set_other; [exact Hc | lia].
Qed.

(** On column [k] a line acts through its [k]-th token alone; a restart
    caused by another column leaves it as it was. *)
Lemma scan_fields_column (toks : list string) : forall vs c k v tok,
  (c <= k)%nat -> nth_error vs k = Some v -> nth_error toks (k - c) = Some tok ->
  if fst (scan_fields vs c toks)
  then nth_error (snd (scan_fields vs c toks)) k = Some v
       \/ nth_error (snd (scan_fields vs c toks)) k = Some (snd (scan_field v tok))
  else fst (scan_field v tok) = false
       /\ nth_error (snd (scan_fields vs c toks)) k = Some (snd (scan_field v tok)).
Proof.
  induction toks as [| tok0 toks IH]; intros vs c k v tok Hck Hv Htok.
  - destruct (k - c)%nat; discriminate.
  - cbn [scan_fields].
    assert (Hk : (k < List.length vs)%nat) by (apply nth_error_Some; congruence).
    destruct (nth_error vs c) as [v0 |] eqn:Hv0.
    2:{ apply nth_error_None in Hv0. lia. }
    assert (Hc : (c < List.length vs)%nat) by lia.
    destruct (Nat.eq_dec c k) as [-> | Hne].
    + rewrite Nat.sub_diag in Htok. injection Htok as ->.
      rewrite Hv in Hv0. injection Hv0 as <-.
      destruct (scan_field v tok) as [restart v'] eqn:Hfield. cbn [fst snd].
      destruct restart; cbn [fst snd].
      * right. apply vector_set_same. exact Hk.
      * pose proof (scan_fields_before toks (vector_set vs (Z.of_nat k) v') (S k) k
                      ltac:(lia)) as Hsame.
        rewrite vector_set_same in Hsame by exact Hk.
        destruct (fst (scan_fields _ _ _)); auto.
    + replace (k - c)%nat with (S (k - S c)) in Htok by lia. cbn [nth_error] in Htok.
      destruct (scan_field v0 tok0) as [restart v0'] eqn:Hfield0.
      destruct restart; cbn [fst snd].
      * left. rewrite vector_set_other by (auto; lia). exact Hv.
      * apply IH; [lia | | exact Htok].
        rewrite vector_set_other by (auto; lia). exact Hv.
Qed.

(** A pass that runs to the end acts on each column as [column_scan]. *)
Lemma scan_rows_column (rows : list (list string)) : forall col vs k v vs',
  column_of k rows col -> nth_error vs k = Some v ->
  scan_rows vs rows = (false, vs') ->
  exists v', column_scan v col = (false, v') /\ nth_error vs' k = Some v'.
Proof.
  induction rows as [| row rows IH]; intros col vs k v vs' Hcol Hv Hpass;
    inversion Hcol as [| ? tok ? col' Htok Hcol']; subst.
  - cbn in Hpass. injection Hpass as <-. exists v. split; [reflexivity | exact Hv].
  - cbn [scan_rows] in Hpass. cbn [column_scan].
    pose proof (scan_fields_column row vs 0 k v tok ltac:(lia) Hv) as Hrow.
    rewrite Nat.sub_0_r in Hrow. specialize (Hrow Htok).
    destruct (scan_fields vs 0 row) as [restart vs1]. cbn [fst snd] in Hrow.
    destruct restart; [discriminate |]. destruct Hrow as [Hno Hv1].
    destruct (scan_field v tok) as [r v1]. cbn [fst snd] in Hno, Hv1. subst r.
    eapply IH; eassumption.
Qed.

(** Whatever a pass does, it keeps a property of column [k] that the
    tokens of the column keep. *)
Lemma scan_rows_keeps (P : DataVar.t -> Prop) (k : nat) (rows : list (list string)) :
  forall col vs v,
  column_of k rows col ->
  Forall (fun tok => forall v, P v -> P (snd (scan_field v tok))) col ->
  nth_error vs k = Some v -> P v ->
  exists v', nth_error (snd (scan_rows vs rows)) k = Some v' /\ P v'.
Proof.
  induction rows as [| row rows IH]; intros col vs v Hcol Hkeep Hv HP;
    inversion Hcol as [| ? tok ? col' Htok Hcol']; subst.
  - exists v. split; [exact Hv | exact HP].
  - inversion Hkeep as [| ? ? Hk Hkeep']; subst.
    cbn [scan_rows].
    pose proof (scan_fields_column row vs 0 k v tok ltac:(lia) Hv) as Hrow.
    rewrite Nat.sub_0_r in Hrow. specialize (Hrow Htok).
    destruct (scan_fields vs 0 row) as [restart vs1]. cbn [fst snd] in Hrow.
    destruct restart; cbn [snd].
    + destruct Hrow as [Hsame | Hnew]; eauto.
    + destruct Hrow as [_ Hnew]. eapply IH; eauto.
Qed.

End ScanPasses.

(** ** The variables the scan ends with *)

Section ScanResult.

Context {Q : QuantType}.

Lemma sizeof_QUANT_determined : (sizeof_QUANT =? SIZE_MAX) = false.
Proof. pose proof sizeof_QUANT_range. apply Z.eqb_neq. unfold SIZE_MAX. lia. Qed.

Lemma field_size_wrap tok :
  field tok -> size_t_wrap (string_size tok + 1) = string_size tok + 1.
Proof.
  intros [_ Hlen]. unfold size_t_wrap, SIZE_MAX, string_size in *.
  apply Z.mod_small. lia.
Qed.

(** A field that does not restart the scan leaves its column with a size. *)
Lemma scan_field_sized v tok v' :
  field tok -> scan_field v tok = (false, v') -> DataVar.size v' <> SIZE_MAX.
Proof.
  intros Hfield. pose proof (field_size_wrap tok Hfield) as Hwrap.
  destruct Hfield as [_ Hlen].
  pose proof sizeof_QUANT_determined as Hq. apply Z.eqb_neq in Hq.
  destruct v as [id vt dt sz off]. unfold scan_field.
  cbn [DataVar.data_type DataVar.size]. rewrite Hwrap.
  destruct (Helpers.is_number tok), dt;
    cbn [DataVar.DataType_eqb andb];
    destruct (Z.eqb_spec sz SIZE_MAX); cbn [negb orb];
    try destruct (Z.ltb_spec sz (string_size tok + 1));
    intros Hres; inversion Hres; subst;
    cbn [DataVar.size DataVar.set_size DataVar.set_data_type]; lia.
Qed.

Lemma column_scan_sized (col : list string) : forall v v',
  Forall field col -> column_scan v col = (false, v') ->
  col = [] \/ DataVar.size v' <> SIZE_MAX.
Proof.
  induction col as [| tok col IH]; intros v v' Hcol Hscan; [left; reflexivity |].
  right. inversion Hcol as [| ? ? Htok Hcol']; subst.
  cbn [column_scan] in Hscan.
  destruct (scan_field v tok) as [[] v1] eqn:Hfield; [discriminate |].
  destruct (IH v1 v' Hcol' Hscan) as [-> | Hsized]; [| exact Hsized].
  cbn in Hscan. injection Hscan as <-.
  eapply scan_field_sized; eassumption.
Qed.

(** The tokens of a column of records of at least [k + 1] fields. *)
Lemma column_of_exists (k : nat) (rows : list (list string)) :
  Forall (fun r => (k < List.length r)%nat) rows -> Forall record rows ->
  exists col, column_of k rows col /\ Forall field col
              /\ List.length col = List.length rows.
Proof.
  induction 1 as [| row rows Hk _ IH]; intros Hrecs.
  - exists []. repeat constructor.
  - inversion Hrecs as [| ? ? [Hfields _] Hrecs']; subst.
    destruct (IH Hrecs') as [col [Hcol [Hall Hlen]]].
    destruct (nth_error row k) as [tok |] eqn:Htok.
    2:{ apply nth_error_None in Htok. lia. }
    exists (tok :: col). split; [constructor; assumption |]. split.
    + constructor; [| exact Hall].
      rewrite Forall_forall in Hfields. apply Hfields.
      eapply nth_error_In. exact Htok.
    + simpl. congruence.
Qed.

(** After a pass to the end over at least one line, every size is
    determined. *)
Lemma scan_rows_sized (rows : list (list string)) (vs vs' : list DataVar.t) :
  rows <> [] -> Forall record rows ->
  Forall (fun r => List.length r = List.length vs) rows ->
  scan_rows vs rows = (false, vs') ->
  Forall (fun v => DataVar.size v <> SIZE_MAX) vs'.
Proof.
  intros Hne Hrecs Hwidth Hpass.
  pose proof (scan_rows_length rows vs) as Hlen. rewrite Hpass in Hlen. cbn [snd] in Hlen.
  apply Forall_forall. intros v' Hin.
  apply In_nth_error in Hin. destruct Hin as [k Hk].
  assert (Hkn : (k < List.length vs)%nat).
  { rewrite <- Hlen. apply nth_error_Some. congruence. }
  destruct (nth_error vs k) as [v |] eqn:Hv.
  2:{ apply nth_error_None in Hv. lia. }
  destruct (column_of_exists k rows) as [col [Hcol [Hfields Hcollen]]]; auto.
  { revert Hwidth. apply Forall_impl. intros r Hr. lia. }
  destruct (scan_rows_column rows col vs k v vs' Hcol Hv Hpass) as [v1 [Hscan Hv1]].
  rewrite Hk in Hv1. injection Hv1 as <-.
  destruct (column_scan_sized col v v' Hfields Hscan) as [-> | Hsized]; [| exact Hsized].
  destruct rows; [congruence | discriminate].
Qed.

(** *** The last loop: offsets *)

Lemma assign_offsets_sized (vs : list DataVar.t) : forall total,
  Forall (fun v => DataVar.size v <> SIZE_MAX) vs ->
  exists vs', assign_offsets vs total = Ok vs'
              /\ running_offsets total vs'
              /\ Forall2 (fun v v' => exists off, v' = DataVar.set_offset v off) vs vs'.
Proof.
  induction vs as [| v vs IH]; intros total Hsized.
  - exists []. repeat split; constructor.
  - inversion Hsized as [| ? ? Hv Hvs]; subst.
    destruct (IH (size_t_wrap (total + DataVar.size v)) Hvs) as [vs' [Hvs' [Hrun Hall]]].
    exists (DataVar.set_offset v total :: vs'). cbn [assign_offsets].
    apply Z.eqb_neq in Hv. rewrite Hv, Hvs'. cbn [bind].
    split; [reflexivity |]. split.
    + cbn [running_offsets DataVar.offset DataVar.size DataVar.set_offset].
      split; [reflexivity | exact Hrun].
    + constructor; [eexists; reflexivity | exact Hall].
Qed.

Lemma Forall2_nth_error {A B : Type} (R : A -> B -> Prop) (xs : list A) (ys : list B) :
  Forall2 R xs ys -> forall k x, nth_error xs k = Some x ->
  exists y, nth_error ys k = Some y /\ R x y.
Proof.
  induction 1 as [| x0 y0 xs ys HR _ IH]; intros [| k] x Hx; try discriminate.
  - injection Hx as <-. exists y0. split; [reflexivity | exact HR].
  - apply IH. exact Hx.
Qed.

(** *** The header loop *)

Lemma read_header_fields (toks : list string) : forall (e : istream) (l : string)
    (acc : list DataVar.t) (fuel : nat),
  fields_left e toks -> (toks <> [] -> record toks) ->
  (List.length toks < fuel)%nat ->
  read_header fuel e l acc = Some (acc ++ header_vars toks).
Proof.
  induction toks as [| tok toks IH]; intros e l acc fuel Hleft Hrec Hfuel;
    (destruct fuel as [| fuel]; [simpl in Hfuel; lia |]); cbn [read_header].
  - destruct (getline_no_field e l Hleft) as [e' [Hget Hfail]].
    rewrite Hget, Hfail, app_nil_r. reflexivity.
  - specialize (Hrec ltac:(discriminate)).
    destruct (getline_field e l tok toks Hleft Hrec) as [e' [Hget [Hfail Hleft']]].
    rewrite Hget, Hfail. rewrite IH; auto.
    + cbn [header_vars map]. rewrite <- app_assoc. reflexivity.
    + intros Hne. destruct toks; [congruence |]. eapply record_cons. exact Hrec.
    + simpl in Hfuel. lia.
Qed.

End ScanResult.

(** ** The demotion of a numeric column *)

Section Demotion.

Context {Q : QuantType}.

(** [scan_field] case by case. *)
Lemma scan_field_quantitative_number id vt sz off tok :
  Helpers.is_number tok = true ->
  scan_field (DataVar.make id vt QUANTITATIVE sz off) tok
  = (false,
     DataVar.make id vt QUANTITATIVE (if sz =? SIZE_MAX then sizeof_QUANT else sz) off).
Proof.
  intros Hnum. unfold scan_field. rewrite Hnum.
  cbn [DataVar.data_type DataVar.size DataVar.DataType_eqb andb].
  destruct (sz =? SIZE_MAX); reflexivity.
Qed.

Lemma scan_field_quantitative_text id vt sz off tok :
  Helpers.is_number tok = false ->
  scan_field (DataVar.make id vt QUANTITATIVE sz off) tok
  = if sz =? SIZE_MAX
    then (false,
          DataVar.make id vt CATEGORICAL (size_t_wrap (string_size tok + 1)) off)
    else (true, DataVar.make id vt CATEGORICAL SIZE_MAX off).
Proof.
  intros Hnum. unfold scan_field. rewrite Hnum.
  cbn [DataVar.data_type DataVar.size DataVar.DataType_eqb andb].
  destruct (sz =? SIZE_MAX); reflexivity.
Qed.

Lemma scan_field_categorical id vt sz off tok :
  scan_field (DataVar.make id vt CATEGORICAL sz off) tok
  = (false,
     DataVar.make id vt CATEGORICAL
       (if (sz =? SIZE_MAX) || (sz <? size_t_wrap (string_size tok + 1))
        then size_t_wrap (string_size tok + 1) else sz) off).
Proof.
  unfold scan_field.
  cbn [DataVar.data_type DataVar.size DataVar.DataType_eqb andb].
  rewrite andb_false_r.
  destruct ((sz =? SIZE_MAX) || (sz <? size_t_wrap (string_size tok + 1))); reflexivity.
Qed.

Ltac demotion_cases v H :=
  destruct v as [id vt dt sz off];
  destruct H as [Hid [[Hdt [Hsz | Hsz]] | [Hdt [Hsz | [Hsz | Hsz]]]]];
  cbn [DataVar.identifier DataVar.data_type DataVar.size] in Hid, Hdt, Hsz; subst.

Ltac step_field :=
  first [ rewrite scan_field_quantitative_number by reflexivity
        | rewrite scan_field_quantitative_text by reflexivity
        | rewrite scan_field_categorical ];
  rewrite ?Z.eqb_refl, ?sizeof_QUANT_determined; cbv beta iota.

Lemma demotion_states_kept (name tok : string) (v : DataVar.t) :
  tok = "1" \/ tok = "2" \/ tok = "abc" ->
  demotion_states name v -> demotion_states name (snd (scan_field v tok)).
Proof.
  intros Htok Hv. demotion_cases v Hv;
    destruct Htok as [-> | [-> | ->]]; step_field;
    (split; [reflexivity |]);
    cbn [snd DataVar.identifier DataVar.data_type DataVar.size];
    first [ left; split; [reflexivity |]; first [left; reflexivity | right; reflexivity]
          | right; split; [reflexivity |];
            first [ left; reflexivity | right; left; reflexivity
                  | right; right; reflexivity ] ].
Qed.

(** A pass that ends saw the column categorical from its start, and
    leaves it as wide as ["abc"] and its terminator. *)
Lemma demotion_last_pass (name : string) (v v' : DataVar.t) :
  demotion_states name v ->
  column_scan v ["1"; "2"; "abc"] = (false, v') ->
  DataVar.identifier v' = name
  /\ DataVar.data_type v' = CATEGORICAL
  /\ DataVar.size v' = 4.
Proof.
  intros Hv. demotion_cases v Hv;
    cbn [column_scan]; step_field; step_field; step_field;
    intros Hscan; try discriminate Hscan;
    injection Hscan as <-; repeat split; reflexivity.
Qed.

Lemma scan_passes_demotion (rows : list (list string)) (k : nat) (name : string)
    (vs vs' : list DataVar.t) :
  column_of k rows ["1"; "2"; "abc"] ->
  scan_passes rows vs vs' ->
  forall v, nth_error vs k = Some v -> demotion_states name v ->
  exists v', nth_error vs' k = Some v'
             /\ DataVar.identifier v' = name
             /\ DataVar.data_type v' = CATEGORICAL
             /\ DataVar.size v' = 4.
Proof.
  intros Hcol. induction 1 as [vs vs' Hpass | vs vs1 vs' Hpass _ IH]; intros v Hv Hstate.
  - destruct (scan_rows_column rows _ vs k v vs' Hcol Hv Hpass) as [v' [Hscan Hv']].
    exists v'. split; [exact Hv' |]. eapply demotion_last_pass; eassumption.
  - destruct (scan_rows_keeps (demotion_states name) k rows _ vs v Hcol) as [v1 [Hv1 Hstate1]];
      auto.
    + apply Forall_cons; [| apply Forall_cons; [| apply Forall_cons; [| apply Forall_nil]]];
        intros v0; apply demotion_states_kept; auto.
    + rewrite Hpass in Hv1. cbn [snd] in Hv1. eapply IH; eassumption.
Qed.

End Demotion.

(** ** The import keeps the variables it is given *)

Lemma bind_fuel_Ok {A B : Type} (r : option (result A)) (k : A -> option (result B)) (b : B) :
  bind_fuel r k = Some (Ok b) -> exists a, r = Some (Ok a) /\ k a = Some (Ok b).
Proof.
  destruct r as [[a | e |] |]; simpl; intros Hk; try discriminate.
  exists a. split; [reflexivity | exact Hk].
Qed.

Section ImportVariables.

Context {Q : QuantType}.

Lemma read_lines_variables (fuel : nat) : forall vars elem_sz f l ds ds',
  read_lines fuel vars elem_sz f l ds = Some (Ok ds') ->
  data_variables ds' = data_variables ds.
Proof.
  induction fuel as [| fuel IH]; intros vars elem_sz f l ds ds' Hread; [discriminate |].
  cbn [read_lines] in Hread.
  destruct (eof f); [injection Hread as <-; reflexivity |].
  apply bind_fuel_Ok in Hread. destruct Hread as [[[l1 dat] i] [_ Hread]].
  destruct (negb _); [discriminate |].
  apply bind_fuel_Ok in Hread. destruct Hread as [ds1 [Happend Hread]].
  destruct (getline f l1 "010") as [f2 l2].
  apply IH in Hread. rewrite Hread.
  injection Happend as Happend. unfold append_element in Happend.
  inv_bind Happend. injection Happend as <-. reflexivity.
Qed.

Lemma read_from_csv_template_variables fuel fs path var_template skip_first ds :
  read_from_csv_template fuel fs path var_template skip_first = Some (Ok ds) ->
  data_variables ds = var_template.
Proof.
  unfold read_from_csv_template. destruct (files fs path) as [text |]; [| discriminate].
  destruct (if skip_first then _ else _) as [f temp].
  intros Hread. apply bind_fuel_Ok in Hread. destruct Hread as [ds0 [Hnew Hread]].
  destruct (getline f "" "010") as [f1 l1].
  apply read_lines_variables in Hread. rewrite Hread.
  injection Hnew as Hnew. unfold DataSet_new in Hnew.
  destruct (_ =? _); [discriminate |]. injection Hnew as <-. reflexivity.
Qed.

End ImportVariables.

(** ** The turn that demotes a column *)

Section DemotionTrace.

Context {Q : QuantType}.

Variables (names row1 : list string) (rows1 : list (list string)) (k : nat).

Hypothesis names_count : Z.of_nat (List.length names) <= INT_MAX.
Hypothesis names_fields : Forall field names.
Hypothesis rows_records : Forall record (row1 :: rows1).

Local Abbreviation file_text := (csv_text (names :: row1 :: rows1)).

Lemma scan_reaches_step (s s' : scan) : scan_step s = inl s' -> scan_reaches s s'.
Proof. intros Hstep. eapply reaches_next; [exact Hstep | apply reaches_here]. Qed.

Lemma scan_reaches_trans (s1 s2 s3 : scan) :
  scan_reaches s1 s2 -> scan_reaches s2 s3 -> scan_reaches s1 s3.
Proof.
  induction 1 as [s | s sa sb Hstep _ IH]; intros H23; [exact H23 |].
  eapply reaches_next; [exact Hstep | apply IH; exact H23].
Qed.

Lemma record_suffix (a b : list string) : record (a ++ b) -> b <> [] -> record b.
Proof.
  induction a as [| x a IH]; intros Hrec Hb; [exact Hrec |].
  apply IH; [| exact Hb]. cbn [app] in Hrec.
  destruct (a ++ b) as [| t toks] eqn:Hab.
  - destruct a; [cbn in Hab; congruence | discriminate].
  - eapply record_cons. exact Hrec.
Qed.

(** The turn of the loop on the field [tok] of column [c]. *)
Lemma scan_step_field (s : scan) (c : nat) (tok : string) (toks : list string)
    (v : DataVar.t) :
  cnt s = Z.of_nat c -> fields_left (ess s) (tok :: toks) -> record (tok :: toks) ->
  nth_error (vars s) c = Some v ->
  List.length (vars s) = List.length names ->
  content (file s) = file_text ->
  exists e',
    getline (ess s) (line s) "," = (e', tok) /\ failbit e' = false
    /\ fields_left e' toks
    /\ scan_step s
       = inl (if fst (scan_field v tok)
              then mkscan (vector_set (vars s) (Z.of_nat c) (snd (scan_field v tok)))
                          (mkistream file_text (csv_text rows1) false false)
                          (join_fields row1) (istream_open (join_fields row1)) 0
              else mkscan (vector_set (vars s) (Z.of_nat c) (snd (scan_field v tok)))
                          (file s) tok e' (Z.of_nat (S c))).
Proof.
  intros Hcnt Hess Hrec Hv Hn Htext.
  destruct (getline_field (ess s) (line s) tok toks Hess Hrec) as [e' [Hget [Hfail Hleft]]].
  exists e'. split; [exact Hget |]. split; [exact Hfail |]. split; [exact Hleft |].
  assert (Hc : (c < List.length (vars s))%nat) by (apply nth_error_Some; congruence).
  unfold scan_step. rewrite Hget, Hfail, Hcnt. cbn [negb].
  rewrite to_int_small by lia.
  destruct (Z.geb_spec (Z.of_nat c) (Z.of_nat (List.length (vars s)))); [lia |].
  rewrite Nat2Z.id, Hv.
  destruct (scan_field v tok) as [restart v']. cbn [fst snd]. destruct restart.
  - pose proof (restart_reads_first_line names row1 rows1 names_fields rows_records
                  (file s) tok Htext) as Hre.
    destruct (getline (seekg0 (clear (file s))) tok "010") as [f1 l1].
    rewrite Hre. reflexivity.
  - do 2 f_equal. lia.
Qed.

(** The fields [pre] of a line, none of them of column [k]: the column is
    left as it is, whether another column restarts the scan or not. *)
Lemma scan_other_fields (pre : list string) : forall (post : list string) (c : nat)
    (s : scan) (v : DataVar.t),
  cnt s = Z.of_nat c -> fields_left (ess s) (pre ++ post) ->
  (pre ++ post <> [] -> record (pre ++ post)) ->
  (c + List.length pre + List.length post = List.length names)%nat ->
  List.length (vars s) = List.length names ->
  content (file s) = file_text ->
  (k < c \/ c + List.length pre <= k)%nat ->
  nth_error (vars s) k = Some v ->
  exists s',
    scan_reaches s s'
    /\ List.length (vars s') = List.length names
    /\ nth_error (vars s') k = Some v
    /\ ((row_start file_text (vars s') row1 rows1 s'
         /\ (quantitative_count (vars s') < quantitative_count (vars s))%nat)
        \/ (file s' = file s /\ cnt s' = Z.of_nat (c + List.length pre)
            /\ fields_left (ess s') post
            /\ (quantitative_count (vars s') <= quantitative_count (vars s))%nat)).
Proof.
  induction pre as [| tok pre IH]; intros post c s v Hcnt Hess Hrec Hwidth Hn Htext Hk Hv.
  - exists s. split; [apply reaches_here |]. split; [exact Hn |]. split; [exact Hv |].
    right. cbn [List.length app] in *. rewrite Nat.add_0_r.
    split; [reflexivity |]. split; [exact Hcnt |]. split; [exact Hess | lia].
  - cbn [app List.length] in *.
    specialize (Hrec ltac:(discriminate)).
    destruct (nth_error (vars s) c) as [vc |] eqn:Hvc.
    2:{ apply nth_error_None in Hvc. lia. }
    assert (Hc : (c < List.length (vars s))%nat) by (apply nth_error_Some; congruence).
    destruct (scan_step_field s c tok (pre ++ post) vc Hcnt Hess Hrec Hvc Hn Htext)
      as [e' [Hget [Hfail [Hleft Hstep]]]].
    pose proof (scan_field_count vc tok) as Hfc.
    pose proof (quantitative_count_set (vars s) c vc (snd (scan_field vc tok)) Hvc) as Hset.
    assert (Hother : nth_error (vector_set (vars s) (Z.of_nat c) (snd (scan_field vc tok))) k
                     = Some v).
    { rewrite vector_set_other; [exact Hv | exact Hc | lia]. }
    destruct (fst (scan_field vc tok)).
    + eexists. split; [apply scan_reaches_step; exact Hstep |]. cbn [vars].
      split; [rewrite vector_set_length; auto |]. split; [exact Hother |].
      left. split; [repeat split; reflexivity | lia].
    + destruct (IH post (S c)
                  (mkscan (vector_set (vars s) (Z.of_nat c) (snd (scan_field vc tok)))
                          (file s) tok e' (Z.of_nat (S c))) v)
        as [s' [Hreach [Hlen [Hv' Hcase]]]]; cbn [cnt ess vars file]; auto; try lia.
      * intros Hne. destruct (pre ++ post) as [| t toks]; [congruence |].
        eapply record_cons. exact Hrec.
      * rewrite vector_set_length; auto.
      * exists s'. split; [eapply reaches_next; [exact Hstep | exact Hreach] |].
        split; [exact Hlen |]. split; [exact Hv' |].
        cbn [vars file] in Hcase.
        destruct Hcase as [[Hstart Hless] | [Hfile [Hcnt' [Hess' Hle]]]]; [left | right].
        -- split; [exact Hstart | lia].
        -- split; [exact Hfile |]. split; [rewrite Hcnt'; f_equal; lia |].
           split; [exact Hess' | lia].
Qed.

(** The turn on a number in column [k], quantitative so far: the size is
    fixed, the scan goes on with the next field. *)
Lemma scan_number_field (s : scan) (tok : string) (toks : list string) (v : DataVar.t) :
  cnt s = Z.of_nat k -> fields_left (ess s) (tok :: toks) -> record (tok :: toks) ->
  nth_error (vars s) k = Some v ->
  DataVar.data_type v = QUANTITATIVE ->
  DataVar.size v = SIZE_MAX \/ DataVar.size v = sizeof_QUANT ->
  Helpers.is_number tok = true ->
  List.length (vars s) = List.length names ->
  content (file s) = file_text ->
  exists (s' : scan) (v' : DataVar.t),
    scan_step s = inl s'
    /\ file s' = file s /\ cnt s' = Z.of_nat (S k) /\ fields_left (ess s') toks
    /\ List.length (vars s') = List.length names
    /\ nth_error (vars s') k = Some v'
    /\ DataVar.data_type v' = QUANTITATIVE /\ DataVar.size v' = sizeof_QUANT
    /\ quantitative_count (vars s') = quantitative_count (vars s).
Proof.
  intros Hcnt Hess Hrec Hv Hdt Hsz Hnum Hn Htext.
  assert (Hk : (k < List.length (vars s))%nat) by (apply nth_error_Some; congruence).
  destruct (scan_step_field s k tok toks v Hcnt Hess Hrec Hv Hn Htext)
    as [e' [Hget [Hfail [Hleft Hstep]]]].
  pose proof (quantitative_count_set (vars s) k v (snd (scan_field v tok)) Hv) as Hset.
  destruct v as [id vt dt sz off]. cbn [DataVar.data_type DataVar.size] in Hdt, Hsz.
  subst dt. rewrite scan_field_quantitative_number in Hstep, Hset by exact Hnum.
  cbn [fst snd] in Hstep, Hset.
  eexists _, _. split; [exact Hstep |]. cbn [file cnt ess vars].
  split; [reflexivity |]. split; [reflexivity |]. split; [exact Hleft |].
  split; [rewrite vector_set_length; auto |].
  split; [apply vector_set_same; exact Hk |].
  cbn [DataVar.data_type DataVar.size]. split; [reflexivity |]. split.
  - destruct Hsz as [-> | ->]; [rewrite Z.eqb_refl | rewrite sizeof_QUANT_determined];
      reflexivity.
  - unfold is_quantitative in Hset. cbn [DataVar.data_type DataVar.DataType_eqb] in Hset. lia.
Qed.

(** The turn on a text that is no number in column [k], quantitative with
    its size fixed: the demotion. *)
Lemma scan_text_field (s : scan) (tok : string) (toks : list string) (v : DataVar.t) :
  cnt s = Z.of_nat k -> fields_left (ess s) (tok :: toks) -> record (tok :: toks) ->
  nth_error (vars s) k = Some v ->
  DataVar.data_type v = QUANTITATIVE -> DataVar.size v = sizeof_QUANT ->
  Helpers.is_number tok = false ->
  List.length (vars s) = List.length names ->
  content (file s) = file_text ->
  exists s' : scan, demotes file_text row1 rows1 k tok s s'.
Proof.
  intros Hcnt Hess Hrec Hv Hdt Hsz Hnum Hn Htext.
  assert (Hk : (k < List.length (vars s))%nat) by (apply nth_error_Some; congruence).
  destruct (scan_step_field s k tok toks v Hcnt Hess Hrec Hv Hn Htext)
    as [e' [Hget [Hfail [Hleft Hstep]]]].
  assert (Hfield : scan_field v tok
                   = (true, DataVar.make (DataVar.identifier v) (DataVar.variable_type v)
                                         CATEGORICAL SIZE_MAX (DataVar.offset v))).
  { destruct v as [id vt dt sz off]. cbn [DataVar.data_type DataVar.size] in Hdt, Hsz.
    subst dt sz. rewrite scan_field_quantitative_text by exact Hnum.
    rewrite sizeof_QUANT_determined. reflexivity. }
  rewrite Hfield in Hstep. cbn [fst snd] in Hstep.
  eexists. split; [exact Hstep |]. split; [exact Hcnt |].
  split; [exists e'; split; assumption |].
  split; [exists v; repeat split; assumption |].
  cbn [vars]. split.
  - eexists. split; [apply vector_set_same; exact Hk |]. split; reflexivity.
  - repeat split; reflexivity.
Qed.

(** The end of a line that another line follows. *)
Lemma scan_next_line (s : scan) (row2 : list string) (more2 : list (list string)) :
  fields_left (ess s) [] -> cnt s = Z.of_nat (List.length names) ->
  List.length (vars s) = List.length names ->
  file s = mkistream file_text (csv_text (row2 :: more2)) false false ->
  Forall field row2 ->
  exists s' : scan,
    scan_step s = inl s' /\ vars s' = vars s
    /\ row_start file_text (vars s') row2 more2 s'.
Proof.
  intros Hess Hcnt Hn Hfile Hrow2.
  destruct (getline_no_field (ess s) (line s) Hess) as [e' [Hget Hfail]].
  eexists. split.
  - unfold scan_step. rewrite Hget, Hfail, Hcnt, Hn. cbn [negb].
    rewrite to_int_small by lia.
    destruct (Z.ltb_spec (Z.of_nat (List.length names)) (Z.of_nat (List.length names)));
      [lia |].
    rewrite Hfile. cbn [csv_text]. rewrite (getline_record _ _ row2 _ Hrow2).
    cbn [eof eofbit]. reflexivity.
  - cbn [vars]. repeat split; reflexivity.
Qed.

Local Abbreviation quantitative_at vs v :=
  (nth_error vs k = Some v
   /\ DataVar.data_type v = QUANTITATIVE
   /\ (DataVar.size v = SIZE_MAX \/ DataVar.size v = sizeof_QUANT)).

(** A line with a number in column [k]: a restart by another column, or
    the next line with the size of the column fixed. *)
Lemma scan_number_line (row row2 : list string) (more2 : list (list string))
    (tok : string) (s : scan) (v : DataVar.t) :
  row_start file_text (vars s) row (row2 :: more2) s ->
  record row -> Forall field row2 ->
  List.length row = List.length names ->
  List.length (vars s) = List.length names ->
  nth_error row k = Some tok -> Helpers.is_number tok = true ->
  quantitative_at (vars s) v ->
  exists (s' : scan) (v' : DataVar.t),
    scan_reaches s s'
    /\ List.length (vars s') = List.length names
    /\ quantitative_at (vars s') v'
    /\ ((row_start file_text (vars s') row1 rows1 s'
         /\ (quantitative_count (vars s') < quantitative_count (vars s))%nat)
        \/ (row_start file_text (vars s') row2 more2 s'
            /\ DataVar.size v' = sizeof_QUANT
            /\ (quantitative_count (vars s') <= quantitative_count (vars s))%nat)).
Proof.
  intros [_ [Hfile [Hess Hcnt]]] Hrec Hrow2 Hwidth Hn Htok Hnum [Hv [Hdt Hsz]].
  destruct (nth_error_split row k Htok) as [l1 [l2 [Hrow Hl1]]].
  assert (Hne : row <> []) by (rewrite Hrow; destruct l1; discriminate).
  assert (Htext : content (file s) = file_text) by (rewrite Hfile; reflexivity).
  rewrite Hrow in Hwidth. rewrite length_app in Hwidth. cbn [List.length] in Hwidth.
  (* the fields before column k *)
  destruct (scan_other_fields l1 (tok :: l2) 0 s v) as [sa [Hra [Hna [Hva Hcase]]]]; auto;
    try lia.
  { rewrite Hess, <- Hrow. apply fields_left_open. exact Hne. }
  { intros _. rewrite <- Hrow. exact Hrec. }
  destruct Hcase as [[Hstart Hless] | [Hfa [Hca [Hea Hle]]]].
  { exists sa, v. split; [exact Hra |]. split; [exact Hna |].
    split; [repeat split; assumption |]. left. split; assumption. }
  (* the field of column k *)
  cbn [Nat.add] in Hca. rewrite Hl1 in Hca.
  assert (Hrec2 : record (tok :: l2)).
  { apply (record_suffix l1); [rewrite <- Hrow; exact Hrec | discriminate]. }
  destruct (scan_number_field sa tok l2 v Hca Hea Hrec2 Hva Hdt Hsz Hnum Hna)
    as [sb [v' [Hstep [Hfb [Hcb [Heb [Hnb [Hvb [Hdtb [Hszb Hcountb]]]]]]]]]].
  { rewrite Hfa. exact Htext. }
  (* the fields after column k *)
  destruct (scan_other_fields l2 [] (S k) sb v') as [sc [Hrc [Hnc [Hvc Hcase]]]]; auto;
    try lia.
  { rewrite app_nil_r. exact Heb. }
  { rewrite app_nil_r. intros Hl2. apply (record_suffix [tok]); [exact Hrec2 | exact Hl2]. }
  { cbn [List.length]. lia. }
  { rewrite Hfb, Hfa. exact Htext. }
  assert (Hreach : scan_reaches s sc).
  { eapply scan_reaches_trans; [exact Hra |].
    eapply reaches_next; [exact Hstep | exact Hrc]. }
  destruct Hcase as [[Hstart Hless] | [Hfc [Hcc [Hec Hle2]]]].
  { exists sc, v'. split; [exact Hreach |]. split; [exact Hnc |].
    split; [repeat split; auto |]. left. split; [exact Hstart | lia]. }
  (* the end of the line *)
  destruct (scan_next_line sc row2 more2) as [sd [Hstepd [Hvd Hstartd]]]; auto.
  { rewrite Hcc. f_equal. lia. }
  { rewrite Hfc, Hfb, Hfa. exact Hfile. }
  exists sd, v'. split; [eapply scan_reaches_trans; [exact Hreach |];
                         apply scan_reaches_step; exact Hstepd |].
  rewrite Hvd. split; [exact Hnc |]. split; [repeat split; auto |].
  right. rewrite Hvd in Hstartd. split; [exact Hstartd |]. split; [exact Hszb | lia].
Qed.

(** A line with a text that is no number in column [k], whose size is
    fixed: a restart by another column, or the demotion. *)
Lemma scan_text_line (row : list string) (more : list (list string))
    (tok : string) (s : scan) (v : DataVar.t) :
  row_start file_text (vars s) row more s ->
  record row ->
  List.length row = List.length names ->
  List.length (vars s) = List.length names ->
  nth_error row k = Some tok -> Helpers.is_number tok = false ->
  nth_error (vars s) k = Some v ->
  DataVar.data_type v = QUANTITATIVE -> DataVar.size v = sizeof_QUANT ->
  exists s' : scan,
    scan_reaches s s'
    /\ ((row_start file_text (vars s') row1 rows1 s'
         /\ List.length (vars s') = List.length names
         /\ nth_error (vars s') k = Some v
         /\ (quantitative_count (vars s') < quantitative_count (vars s))%nat)
        \/ (file s' = mkistream file_text (csv_text more) false false
            /\ exists s'' : scan, demotes file_text row1 rows1 k tok s' s'')).
Proof.
  intros [_ [Hfile [Hess Hcnt]]] Hrec Hwidth Hn Htok Hnum Hv Hdt Hsz.
  destruct (nth_error_split row k Htok) as [l1 [l2 [Hrow Hl1]]].
  assert (Hne : row <> []) by (rewrite Hrow; destruct l1; discriminate).
  assert (Htext : content (file s) = file_text) by (rewrite Hfile; reflexivity).
  rewrite Hrow in Hwidth. rewrite length_app in Hwidth. cbn [List.length] in Hwidth.
  destruct (scan_other_fields l1 (tok :: l2) 0 s v) as [sa [Hra [Hna [Hva Hcase]]]]; auto;
    try lia.
  { rewrite Hess, <- Hrow. apply fields_left_open. exact Hne. }
  { intros _. rewrite <- Hrow. exact Hrec. }
  exists sa. split; [exact Hra |].
  destruct Hcase as [[Hstart Hless] | [Hfa [Hca [Hea Hle]]]]; [left; auto | right].
  cbn [Nat.add] in Hca. rewrite Hl1 in Hca.
  split; [rewrite Hfa; exact Hfile |].
  apply (scan_text_field sa tok l2 v); auto.
  - apply (record_suffix l1); [rewrite <- Hrow; exact Hrec | discriminate].
  - rewrite Hfa. exact Htext.
Qed.

(** One pass over three lines with two numbers and then a text that is no
    number in column [k]: a restart by another column, which leaves the
    column quantitative and a quantitative column less, or the demotion at
    the third line. *)
Lemma scan_pass_demotes (r2 r3 : list string) (tok1 tok2 tok3 : string)
    (s : scan) (v : DataVar.t) :
  rows1 = [r2; r3] ->
  List.length row1 = List.length names ->
  List.length r2 = List.length names ->
  List.length r3 = List.length names ->
  nth_error row1 k = Some tok1 -> Helpers.is_number tok1 = true ->
  nth_error r2 k = Some tok2 -> Helpers.is_number tok2 = true ->
  nth_error r3 k = Some tok3 -> Helpers.is_number tok3 = false ->
  row_start file_text (vars s) row1 rows1 s ->
  List.length (vars s) = List.length names ->
  quantitative_at (vars s) v ->
  exists s' : scan,
    scan_reaches s s'
    /\ ((row_start file_text (vars s') row1 rows1 s'
         /\ List.length (vars s') = List.length names
         /\ (exists v', quantitative_at (vars s') v')
         /\ (quantitative_count (vars s') < quantitative_count (vars s))%nat)
        \/ (file s' = mkistream file_text "" false false
            /\ exists s'' : scan, demotes file_text row1 rows1 k tok3 s' s'')).
Proof.
  intros Hrows Hw1 Hw2 Hw3 Hk1 Hn1 Hk2 Hn2 Hk3 Hn3 Hstart Hn Hv.
  pose proof rows_records as Hrecs. rewrite Hrows in Hrecs.
  assert (Hstart' : row_start file_text (vars s) row1 [r2; r3] s).
  { destruct Hstart as [Hvars [Hfile [Hess Hcnt]]]. repeat split; auto.
    rewrite Hfile. f_equal. rewrite Hrows. reflexivity. }
  clear Hstart. rename Hstart' into Hstart.
  apply Forall_cons_iff in Hrecs. destruct Hrecs as [Hrec1 Hrecs].
  apply Forall_cons_iff in Hrecs. destruct Hrecs as [Hrec2 Hrecs].
  apply Forall_cons_iff in Hrecs. destruct Hrecs as [Hrec3 _].
  (* the first line *)
  destruct (scan_number_line row1 r2 [r3] tok1 s v Hstart Hrec1 (proj1 Hrec2) Hw1 Hn Hk1 Hn1 Hv)
    as [sa [va [Hra [Hna [Hva Hcase]]]]].
  destruct Hcase as [[Hstarta Hless] | [Hstarta [Hsza Hle]]].
  { exists sa. split; [exact Hra |]. left.
    split; [exact Hstarta |]. split; [exact Hna |]. split; [exists va; exact Hva | exact Hless]. }
  (* the second line *)
  destruct (scan_number_line r2 r3 [] tok2 sa va Hstarta Hrec2 (proj1 Hrec3) Hw2 Hna Hk2 Hn2 Hva)
    as [sb [vb [Hrb [Hnb [Hvb Hcase]]]]].
  destruct Hcase as [[Hstartb Hless] | [Hstartb [Hszb Hle2]]].
  { exists sb. split; [eapply scan_reaches_trans; eassumption |]. left.
    split; [exact Hstartb |]. split; [exact Hnb |]. split; [exists vb; exact Hvb | lia]. }
  (* the third line *)
  destruct Hvb as [Hvb [Hdtb _]].
  destruct (scan_text_line r3 [] tok3 sb vb Hstartb Hrec3 Hw3 Hnb Hk3 Hn3 Hvb Hdtb Hszb)
    as [sc [Hrc Hcase]].
  exists sc. split; [eapply scan_reaches_trans; [exact Hra |];
                     eapply scan_reaches_trans; eassumption |].
  destruct Hcase as [[Hstartc [Hnc [Hvc Hless]]] | [Hfc Hdem]]; [left | right].
  - split; [exact Hstartc |]. split; [exact Hnc |].
    split; [exists vb; repeat split; auto | lia].
  - split; [exact Hfc |]. exact Hdem.
Qed.

(** Every restart by another column leaves a quantitative column less, so
    a pass reaches the third line of column [k]. *)
Lemma scan_reaches_demotion (r2 r3 : list string) (tok1 tok2 tok3 : string) :
  rows1 = [r2; r3] ->
  List.length row1 = List.length names ->
  List.length r2 = List.length names ->
  List.length r3 = List.length names ->
  nth_error row1 k = Some tok1 -> Helpers.is_number tok1 = true ->
  nth_error r2 k = Some tok2 -> Helpers.is_number tok2 = true ->
  nth_error r3 k = Some tok3 -> Helpers.is_number tok3 = false ->
  forall (n : nat) (s : scan) (v : DataVar.t),
  quantitative_count (vars s) = n ->
  row_start file_text (vars s) row1 rows1 s ->
  List.length (vars s) = List.length names ->
  quantitative_at (vars s) v ->
  exists s' s'' : scan,
    scan_reaches s s'
    /\ file s' = mkistream file_text "" false false
    /\ demotes file_text row1 rows1 k tok3 s' s''.
Proof.
  intros Hrows Hw1 Hw2 Hw3 Hk1 Hn1 Hk2 Hn2 Hk3 Hn3 n.
  induction n as [n IH] using lt_wf_ind. intros s v Hcount Hstart Hn Hv.
  destruct (scan_pass_demotes r2 r3 tok1 tok2 tok3 s v Hrows Hw1 Hw2 Hw3
              Hk1 Hn1 Hk2 Hn2 Hk3 Hn3 Hstart Hn Hv) as [s1 [Hr1 Hcase]].
  destruct Hcase as [[Hstart1 [Hlen1 [[v1 Hv1] Hless]]] | [Hfile [s2 Hdem]]].
  - destruct (IH (quantitative_count (vars s1)) ltac:(lia) s1 v1 eq_refl Hstart1 Hlen1 Hv1)
      as [s' [s'' [Hr [Hfile Hdem]]]].
    exists s', s''. split; [eapply scan_reaches_trans; eassumption |]. split; assumption.
  - exists s1, s2. split; [exact Hr1 |]. split; assumption.
Qed.

End DemotionTrace.

Section InferVariables.

Context {Q : QuantType}.

Lemma scan_passes_last (rows : list (list string)) (vs vs' : list DataVar.t) :
  scan_passes rows vs vs' ->
  exists vs0, scan_rows vs0 rows = (false, vs') /\ List.length vs0 = List.length vs.
Proof.
  induction 1 as [vs vs' Hpass | vs vs1 vs' Hpass _ [vs0 [Hlast Hlen]]].
  - exists vs. split; [exact Hpass | reflexivity].
  - exists vs0. split; [exact Hlast |].
    pose proof (scan_rows_length rows vs) as Hl. rewrite Hpass in Hl. cbn [snd] in Hl.
    congruence.
Qed.

(** The inferring import on a file of a header and data lines, all
    records of one length: enough fuel gives the variables of the last
    pass, with running offsets. *)
Lemma infer_variables_passes (fs : filesystem) (path : string)
    (names row1 : list string) (rows1 : list (list string)) :
  record names -> Forall record (row1 :: rows1) ->
  Forall (fun r => List.length r = List.length names) (row1 :: rows1) ->
  Z.of_nat (List.length names) <= INT_MAX ->
  files fs path = Some (csv_text (names :: row1 :: rows1)) ->
  exists (fuel0 : nat) (scanned vars : list DataVar.t),
    (forall fuel, infer_variables (fuel0 + fuel) fs path = Some (Ok vars))
    /\ scan_passes (row1 :: rows1) (header_vars names) scanned
    /\ Forall2 (fun v v' => exists off, v' = DataVar.set_offset v off) scanned vars
    /\ packed vars.
Proof.
  intros Hnames Hrecs Hwidth Hcount Hfile.
  assert (Hhlen : List.length (header_vars names) = List.length names)
    by apply length_map.
  destruct (scan_passes_end (row1 :: rows1) (header_vars names)) as [scanned Hpasses].
  destruct (scan_passes_last _ _ _ Hpasses) as [vs0 [Hlast Hlen0]].
  assert (Hsized : Forall (fun v => DataVar.size v <> SIZE_MAX) scanned).
  { apply (scan_rows_sized (row1 :: rows1) vs0); auto; [discriminate |].
    revert Hwidth. apply Forall_impl. intros r Hr. congruence. }
  destruct (assign_offsets_sized scanned 0 Hsized) as [vars [Hassign [Hpacked Hall]]].
  set (s0 := mkscan (header_vars names)
               (mkistream (csv_text (names :: row1 :: rows1)) (csv_text rows1) false false)
               (join_fields row1) (istream_open (join_fields row1)) 0).
  destruct (scan_passes_sim names row1 rows1 Hcount (proj1 Hnames) Hrecs Hwidth
              _ _ Hpasses s0 Hhlen) as [k Hloop].
  { repeat split; reflexivity. }
  exists (k + S (List.length names))%nat, scanned, vars.
  split; [| repeat split; assumption].
  intros fuel. unfold infer_variables. rewrite Hfile.
  unfold istream_open at 1. cbn [csv_text].
  rewrite (getline_record _ _ names _ (proj1 Hnames)).
  assert (Hne : names <> []).
  { destruct Hnames as [_ Hl]. destruct names; [contradiction | discriminate]. }
  rewrite (read_header_fields names _ _ [] _ (fields_left_open names Hne) (fun _ => Hnames))
    by lia.
  cbn [app].
  inversion Hrecs as [| ? ? [Hrow1 _] _]; subst.
  rewrite (getline_record _ _ row1 _ Hrow1). cbn [eof eofbit].
  rewrite <- Nat.add_assoc. fold s0. rewrite Hloop. cbn [bind_fuel].
  rewrite Hassign. reflexivity.
Qed.

(** Claim C4, amended: in a file whose header and three data lines all
    end with a newline and are records of one length, a column whose
    tokens are ["1"], ["2"], ["abc"] in that order is inferred categorical
    of size 4, whatever the other columns hold.  The scan, which begins at
    the first field of the first data line, reaches the token ["abc"] of
    the third line with the column quantitative and its size fixed; that
    turn of the loop makes the column categorical, makes its size
    undetermined again and restarts the scan at the first field of the
    first data line.  The inference then ends, with running offsets, and
    [read_from_csv] goes on as the import with the inferred variables. *)
Theorem infer_variables_demotes (fs : filesystem) (path : string)
    (names r1 r2 r3 : list string) (k : nat) (name : string) :
  record names -> record r1 -> record r2 -> record r3 ->
  List.length r1 = List.length names ->
  List.length r2 = List.length names ->
  List.length r3 = List.length names ->
  Z.of_nat (List.length names) <= INT_MAX ->
  files fs path = Some (csv_text [names; r1; r2; r3]) ->
  nth_error names k = Some name ->
  nth_error r1 k = Some "1" ->
  nth_error r2 k = Some "2" ->
  nth_error r3 k = Some "abc" ->
  exists (fuel0 : nat) (vars : list DataVar.t) (v : DataVar.t),
    (forall fuel, infer_variables (fuel0 + fuel) fs path = Some (Ok vars))
    /\ nth_error vars k = Some v
    /\ DataVar.identifier v = name
    /\ DataVar.data_type v = CATEGORICAL
    /\ DataVar.size v = 4
    /\ 4 <= DataVar.size v
    /\ packed vars
    /\ (forall fuel ds, read_from_csv (fuel0 + fuel) fs path = Some (Ok ds) ->
                        data_variables ds = vars)
    /\ (forall fuel, (List.length names < fuel)%nat ->
          infer_variables fuel fs path
          = (scanned <-- scan_loop fuel (scan_start names r1 [r2; r3]) ;;
             Some (assign_offsets scanned 0)))
    /\ (exists s s' : scan,
          scan_reaches (scan_start names r1 [r2; r3]) s
          /\ file s = mkistream (csv_text [names; r1; r2; r3]) "" false false
          /\ demotes (csv_text [names; r1; r2; r3]) r1 [r2; r3] k "abc" s s')
    /\ (forall fuel,
          read_from_csv (fuel0 + fuel) fs path
          = read_from_csv_template (fuel0 + fuel) fs path vars true).
Proof.
  intros Hnames H1 H2 H3 Hl1 Hl2 Hl3 Hcount Hfile Hname Hk1 Hk2 Hk3.
  assert (Hrecs : Forall record [r1; r2; r3])
    by (repeat (apply Forall_cons; [assumption |]); apply Forall_nil).
  destruct (infer_variables_passes fs path names r1 [r2; r3])
    as [fuel0 [scanned [vars [Hrun [Hpasses [Hall Hpacked]]]]]]; auto;
    try (repeat (apply Forall_cons; [assumption |]); apply Forall_nil).
  assert (Hcol : column_of k [r1; r2; r3] ["1"; "2"; "abc"])
    by (repeat (apply Forall2_cons; [assumption |]); apply Forall2_nil).
  assert (Hheader : nth_error (header_vars names) k
                    = Some (DataVar.make name EXPLANATORY QUANTITATIVE SIZE_MAX 0)).
  { unfold header_vars.
    apply (map_nth_error
             (fun name => DataVar.make name EXPLANATORY QUANTITATIVE SIZE_MAX 0)
             k names Hname). }
  destruct (scan_passes_demotion _ k name _ _ Hcol Hpasses
              (DataVar.make name EXPLANATORY QUANTITATIVE SIZE_MAX 0) Hheader)
    as [v' [Hv' [Hid [Hdt Hsz]]]].
  { split; [reflexivity |]. left. split; [reflexivity | left; reflexivity]. }
  destruct (Forall2_nth_error _ _ _ Hall k v' Hv') as [v [Hv [off ->]]].
  exists fuel0, vars, (DataVar.set_offset v' off).
  cbn [DataVar.set_offset DataVar.identifier DataVar.data_type DataVar.size].
  split; [exact Hrun |]. split; [exact Hv |]. split; [exact Hid |].
  split; [exact Hdt |]. split; [exact Hsz |]. split; [lia |]. split; [exact Hpacked |].
  split.
  { intros fuel ds. unfold read_from_csv. rewrite Hrun. cbn [bind_fuel].
    apply read_from_csv_template_variables. }
  split.
  { intros fuel Hfuel. unfold infer_variables. rewrite Hfile.
    unfold istream_open at 1. cbn [csv_text].
    rewrite (getline_record _ _ names _ (proj1 Hnames)).
    assert (Hne : names <> []).
    { destruct Hnames as [_ Hl]. destruct names; [contradiction | discriminate]. }
    rewrite (read_header_fields names _ _ [] _ (fields_left_open names Hne)
               (fun _ => Hnames)) by lia.
    cbn [app]. rewrite (getline_record _ _ r1 _ (proj1 H1)). cbn [eof eofbit].
    reflexivity. }
  split.
  { apply (scan_reaches_demotion names r1 [r2; r3] k Hcount (proj1 Hnames) Hrecs
             r2 r3 "1" "2" "abc" eq_refl Hl1 Hl2 Hl3 Hk1 eq_refl Hk2 eq_refl Hk3 eq_refl
             (quantitative_count (header_vars names)) (scan_start names r1 [r2; r3])
             (DataVar.make name EXPLANATORY QUANTITATIVE SIZE_MAX 0) eq_refl).
    - repeat split; reflexivity.
    - apply length_map.
    - split; [exact Hheader |]. split; [reflexivity | left; reflexivity]. }
  intros fuel. unfold read_from_csv. rewrite Hrun. reflexivity.
Qed.

End InferVariables.

Lemma infer_variables_demotes_witness :
  exists (fuel0 : nat) (vars : list DataVar.t) (v : DataVar.t),
    (forall fuel,
        @infer_variables Samples.decimal4 (fuel0 + fuel)
          (Samples.one_file "data.csv" (csv_text [["h"]; ["1"]; ["2"]; ["abc"]]))
          "data.csv" = Some (Ok vars))
    /\ nth_error vars 0 = Some v
    /\ DataVar.identifier v = "h"
    /\ DataVar.data_type v = CATEGORICAL
    /\ DataVar.size v = 4
    /\ 4 <= DataVar.size v
    /\ packed vars
    /\ (forall fuel ds,
           @read_from_csv Samples.decimal4 (fuel0 + fuel)
             (Samples.one_file "data.csv" (csv_text [["h"]; ["1"]; ["2"]; ["abc"]]))
             "data.csv" = Some (Ok ds) ->
           data_variables ds = vars)
    /\ (forall fuel, (List.length ["h"] < fuel)%nat ->
          @infer_variables Samples.decimal4 fuel
            (Samples.one_file "data.csv" (csv_text [["h"]; ["1"]; ["2"]; ["abc"]]))
            "data.csv"
          = (scanned <-- @scan_loop Samples.decimal4 fuel
                           (scan_start ["h"] ["1"] [["2"]; ["abc"]]) ;;
             Some (assign_offsets scanned 0)))
    /\ (exists s s' : scan,
          @scan_reaches Samples.decimal4 (scan_start ["h"] ["1"] [["2"]; ["abc"]]) s
          /\ file s = mkistream (csv_text [["h"]; ["1"]; ["2"]; ["abc"]]) "" false false
          /\ @demotes Samples.decimal4 (csv_text [["h"]; ["1"]; ["2"]; ["abc"]])
               ["1"] [["2"]; ["abc"]] 0 "abc" s s')
    /\ (forall fuel,
          @read_from_csv Samples.decimal4 (fuel0 + fuel)
            (Samples.one_file "data.csv" (csv_text [["h"]; ["1"]; ["2"]; ["abc"]]))
            "data.csv"
          = @read_from_csv_template Samples.decimal4 (fuel0 + fuel)
              (Samples.one_file "data.csv" (csv_text [["h"]; ["1"]; ["2"]; ["abc"]]))
              "data.csv" vars true).
Proof.
  assert (Hrec : forall tok : string,
             all_chars field_char tok = true -> string_size tok + 1 < SIZE_MAX ->
             tok <> "" -> record [tok]).
  { intros tok Hc Hl Hne. split; [repeat constructor; assumption | exact Hne]. }
  apply (@infer_variables_demotes Samples.decimal4
           (Samples.one_file "data.csv" (csv_text [["h"]; ["1"]; ["2"]; ["abc"]]))
           "data.csv" ["h"] ["1"] ["2"] ["abc"] 0 "h");
    try reflexivity; try (apply Hrec; [reflexivity | reflexivity | discriminate]).
  vm_compute. discriminate.
Defined.

(** The whole import of the file of the witness: three rows of four bytes. *)
Example read_from_csv_demoted :
  @read_from_csv Samples.decimal4 20
    (Samples.one_file "data.csv" (csv_text [["h"]; ["1"]; ["2"]; ["abc"]])) "data.csv"
  = Some (Ok (mkDataSet
                [mkElement (chars (pad "1" 4)); mkElement (chars (pad "2" 4));
                 mkElement (chars (pad "abc" 4))]
                [DataVar.make "h" EXPLANATORY CATEGORICAL 4 0])).
Proof. vm_compute. reflexivity. Qed.

(** Claim C4 as written fails: when no newline ends the third data line,
    that line is read with [eofbit] set and is never scanned, so the
    column whose data rows are ["1"], ["2"], ["abc"] is inferred
    quantitative, of the size of [QUANT_TYPE], and nothing is demoted. *)
Theorem infer_variables_unterminated_line :
  (forall fuel : nat,
      @infer_variables Samples.decimal4 (9 + fuel)
        (Samples.one_file "data.csv" (csv_text [["h"]; ["1"]; ["2"]] ++ "abc")) "data.csv"
      = Some (Ok [DataVar.make "h" EXPLANATORY QUANTITATIVE 4 0]))
  /\ @sizeof_QUANT Samples.decimal4 = 4.
Proof. split; [intros fuel; reflexivity | reflexivity]. Qed.

(** ** The classifier *)

(** Claim C10: [is_number] holds exactly of the texts made of white space,
    then one or more characters that are digits or ['.'] with at most one
    ['.'], then white space.  So a signed numeral is no number, the lone
    ["."] is one, and a CSV column of negative numbers is inferred
    categorical. *)
Theorem is_number_numeral_shape :
  (forall str : string, Helpers.is_number str = true <-> numeral_shape str)
  /\ Helpers.is_number "-1" = false
  /\ (forall s : string, Helpers.is_number (String "-" s) = false)
  /\ Helpers.is_number "." = true
  /\ @infer_variables Samples.decimal4 20
       (Samples.one_file "data.csv" (csv_text [["h"]; ["-1"]; ["-2"]])) "data.csv"
     = Some (Ok [DataVar.make "h" EXPLANATORY CATEGORICAL 3 0]).
Proof.
  split; [| repeat split; reflexivity].
  intros str. split; [apply is_number_shape | apply shape_is_number].
Qed.

(** ** Export, then import *)

Example write_to_csv_comma :
  @write_to_csv Samples.decimal4 (Samples.one_file "in.csv" "") Samples.comma_row "out.csv"
  = Ok (write_file (Samples.one_file "in.csv" "") "out.csv"
          (csv_text [["a"]; [","]])).
Proof. reflexivity. Qed.

Example read_from_csv_comma :
  @read_from_csv_template Samples.decimal4 5
    (write_file (Samples.one_file "in.csv" "") "out.csv" (csv_text [["a"]; [","]]))
    "out.csv" [Samples.col_a] true
  = Some (Ok Samples.nul_row).
Proof. reflexivity. Qed.

Lemma reachable_comma_row : reachable Samples.comma_row.
Proof.
  exists false.
  apply (reach_append false (mkDataSet [] [Samples.col_a]) (chars ",")); [| reflexivity].
  apply (reach_new [Samples.col_a]). reflexivity.
Qed.

(** The round trip does not hold of every store: a one-byte categorical
    field that holds a comma is exported as the line [","], which the
    import splits at the comma: it reads one empty field, pads it, and the
    re-imported row holds a zero byte where the store held the comma. *)
Lemma export_import_comma :
  ~ (forall (Q : QuantType) (fs : filesystem) (ds : DataSet) (path : string)
            (fs' : filesystem),
        reachable ds ->
        write_to_csv fs ds path = Ok fs' ->
        exists (fuel : nat) (ds' : DataSet),
          read_from_csv_template fuel fs' path (data_variables ds) true = Some (Ok ds')
          /\ same_fields ds ds').
Proof.
  intros H.
  destruct (H Samples.decimal4 (Samples.one_file "in.csv" "") Samples.comma_row "out.csv" _
              reachable_comma_row write_to_csv_comma) as [fuel [ds' [Hread Hsame]]].
  assert (Hds' : ds' = Samples.nul_row).
  { destruct fuel as [| [| [| [| [| fuel]]]]]; vm_compute in Hread;
      try discriminate Hread; injection Hread as <-; reflexivity. }
  subst ds'. inversion Hsame as [| e e' es es' Hfields _]; subst.
  inversion Hfields as [| v vs Hfield _]; subst.
  vm_compute in Hfield. discriminate Hfield.
Qed.

(** *** Stores the file does not carry *)

Ltac reach_row vars dat :=
  exists false; apply (reach_append false (mkDataSet [] vars) dat);
  [apply (reach_new vars); reflexivity | reflexivity].

Lemma reachable_no_variables : reachable Samples.no_variables.
Proof.
  exists false.
  apply (reach_remove_var false (mkDataSet [mkElement (chars "x")] [Samples.col_a])
           Samples.col_a); [| reflexivity].
  apply (reach_append false (mkDataSet [] [Samples.col_a]) (chars "x")); [| reflexivity].
  apply (reach_new [Samples.col_a]). reflexivity.
Qed.

Lemma reachable_forged_then_removed : reachable Samples.forged_then_removed.
Proof.
  exists false.
  apply (reach_remove_var_id false
           (mkDataSet [mkElement (chars "xyx")]
              [Samples.col_a; Samples.col_b;
               DataVar.make "c" EXPLANATORY CATEGORICAL 1 2]) "b");
    [| reflexivity].
  apply (reach_forge ascii char_ValueType false Samples.one_row "c" "a"
           (fun p => Yields (Samples.first_char p)));
    [| reflexivity].
  apply (reach_append false (mkDataSet [] [Samples.col_a; Samples.col_b]) (chars "xy"));
    [| reflexivity].
  apply (reach_new [Samples.col_a; Samples.col_b]). reflexivity.
Qed.

(** Claim C9 as written fails, for every condition of its amended form.
    Each store below is built by the constructor and the public methods,
    and does not come back from its file with the fields it had:
    - a categorical field that holds a comma comes back as an empty field,
      padded; one that holds a newline makes a line with too few fields;
    - with [QUANT_TYPE = char] the digit ['7'] is written as the text ["7"],
      which is read as the number 7: the byte that comes back is not the
      byte that was stored (the numeric round trip is a property of
      [QUANT_TYPE], not of the store);
    - a quantitative variable of another size than [QUANT_TYPE] is
      refused by the import;
    - a column name that holds a newline makes a second header line, which
      is imported as a row;
    - a store without variables, as [remove_var] leaves it, is refused by
      the constructor the import calls;
    - a variable constructed with an offset past the element size, a row
      with an indeterminate byte, as [remove_var] leaves it, and a row
      shorter than the element size, as a transform that throws leaves
      it, make the export read what it must not (undefined behaviour);
    - a last field that is written as the empty text (a column of size 0)
      is lost: too few fields. *)
Theorem export_import_differs :
  ~ (forall (Q : QuantType) (fs : filesystem) (ds : DataSet) (path : string)
            (fs' : filesystem),
        reachable ds ->
        write_to_csv fs ds path = Ok fs' ->
        exists (fuel : nat) (ds' : DataSet),
          read_from_csv_template fuel fs' path (data_variables ds) true = Some (Ok ds')
          /\ same_fields ds ds')
  /\ (reachable Samples.comma_row
      /\ forall fuel,
           @Samples.export_import Samples.decimal4 (9 + fuel) Samples.comma_row
           = Some (Ok Samples.nul_row))
  /\ (reachable Samples.newline_row
      /\ forall fuel,
           @Samples.export_import Samples.decimal4 (9 + fuel) Samples.newline_row
           = Some (Throw (DataIOException "Inconsistent file format (too few fields).")))
  /\ (reachable Samples.digit_row
      /\ forall fuel,
           @Samples.export_import Samples.char_quant (9 + fuel) Samples.digit_row
           = Some (Ok (mkDataSet [mkElement [Some (ascii_of_nat 7)]]
                                 (data_variables Samples.digit_row))))
  /\ (reachable Samples.short_quantity
      /\ forall fuel,
           @Samples.export_import Samples.decimal4 (9 + fuel) Samples.short_quantity
           = Some (Throw (DataIOException "Quantitative variable size mismatch.")))
  /\ (reachable Samples.newline_name
      /\ forall fuel,
           @Samples.export_import Samples.decimal4 (9 + fuel) Samples.newline_name
           = Some (Ok (mkDataSet [mkElement (chars "b"); mkElement (chars "x")]
                                 (data_variables Samples.newline_name))))
  /\ (reachable Samples.no_variables
      /\ forall fuel,
           @Samples.export_import Samples.decimal4 (9 + fuel) Samples.no_variables
           = Some (Throw (DataException "Too few variables for DataSet.")))
  /\ (reachable Samples.offset_row
      /\ forall fuel,
           @Samples.export_import Samples.decimal4 (9 + fuel) Samples.offset_row
           = Some Undefined)
  /\ (reachable Samples.forged_then_removed
      /\ forall fuel,
           @Samples.export_import Samples.decimal4 (9 + fuel) Samples.forged_then_removed
           = Some Undefined)
  /\ (reachable Samples.half_forged
      /\ forall fuel,
           @Samples.export_import Samples.decimal4 (9 + fuel) Samples.half_forged
           = Some Undefined)
  /\ (reachable Samples.empty_last
      /\ forall fuel,
           @Samples.export_import Samples.decimal4 (9 + fuel) Samples.empty_last
           = Some (Throw (DataIOException "Inconsistent file format (too few fields)."))).
Proof.
  split; [exact export_import_comma |].
  split; [split; [exact reachable_comma_row | intros fuel; reflexivity] |].
  split; [split; [reach_row [Samples.col_a] [Some "010"%char] | intros fuel; reflexivity] |].
  split; [split; [reach_row (data_variables Samples.digit_row) (chars "7")
                 | intros fuel; reflexivity] |].
  split; [split; [reach_row (data_variables Samples.short_quantity) (chars "3.25")
                 | intros fuel; reflexivity] |].
  split; [split; [reach_row (data_variables Samples.newline_name) (chars "x")
                 | intros fuel; reflexivity] |].
  split; [split; [exact reachable_no_variables | intros fuel; reflexivity] |].
  split; [split; [reach_row (data_variables Samples.offset_row) (chars "x")
                 | intros fuel; reflexivity] |].
  split; [split; [exact reachable_forged_then_removed | intros fuel; reflexivity] |].
  split; [split; [exact reachable_half_forged | intros fuel; reflexivity] |].
  split; [reach_row (data_variables Samples.empty_last) (chars "x")
         | intros fuel; reflexivity].
Qed.

(** *** Buffers filled field by field *)

Lemma firstn_add {A : Type} (a b : nat) (l : list A) :
  firstn (a + b) l = firstn a l ++ firstn b (skipn a l).
Proof.
  revert l. induction a as [| a IH]; intros l; [reflexivity |].
  destruct l as [| x l]; simpl; [destruct b; reflexivity |].
  rewrite IH. reflexivity.
Qed.

Lemma firstn_app_length {A : Type} (l1 l2 : list A) :
  firstn (List.length l1) (l1 ++ l2) = l1.
Proof. induction l1 as [| x l1 IH]; simpl; [destruct l2 | rewrite IH]; reflexivity. Qed.

Lemma skipn_app_length {A : Type} (l1 l2 : list A) (k : nat) :
  skipn (List.length l1 + k) (l1 ++ l2) = skipn k l2.
Proof. induction l1 as [| x l1 IH]; simpl; [reflexivity | exact IH]. Qed.

Lemma skipn_repeat {A : Type} (x : A) (k n : nat) :
  skipn k (repeat x n) = repeat x (n - k).
Proof.
  revert n. induction k as [| k IH]; intros n; [rewrite Nat.sub_0_r; reflexivity |].
  destruct n as [| n]; simpl; [reflexivity | apply IH].
Qed.

Lemma deref_Ok (b : buffer) (o n : Z) (r : buffer) :
  deref (mkptr b o) n = Ok r ->
  0 <= o /\ 0 <= n /\ o + n <= buffer_size b
  /\ r = firstn (Z.to_nat n) (skipn (Z.to_nat o) b).
Proof.
  unfold deref. cbn [pos base].
  destruct (_ && _) eqn:Hc; [| discriminate]. intros Hr. injection Hr as <-.
  repeat (apply andb_prop in Hc; destruct Hc as [Hc ?]).
  repeat split; try lia.
Qed.

Lemma read_chars_determinate (bytes : list ascii) : read_chars (map Some bytes) = Ok bytes.
Proof.
  induction bytes as [| c bytes IH]; simpl; [reflexivity |]. rewrite IH. reflexivity.
Qed.

Lemma string_of_list_ascii_length (l : list ascii) :
  String.length (string_of_list_ascii l) = List.length l.
Proof. induction l as [| c l IH]; simpl; [reflexivity | rewrite IH; reflexivity]. Qed.

Lemma pad_exact (tok : string) (sz : Z) : string_size tok = sz -> pad tok sz = tok.
Proof.
  intros <-. unfold pad. rewrite Z.sub_diag. simpl. apply string_app_empty_r.
Qed.

(** The row buffer of the import, filled up to offset [o], after the copy
    of the next field. *)
Lemma memcpy_next (row src : buffer) (o s : Z) :
  0 <= o -> 0 <= s -> o + s <= buffer_size row -> s <= buffer_size src ->
  firstn (Z.to_nat s) src = firstn (Z.to_nat s) (skipn (Z.to_nat o) row) ->
  memcpy (firstn (Z.to_nat o) row ++ new_char (buffer_size row - o)) o src 0 s
  = Ok (firstn (Z.to_nat (o + s)) row ++ new_char (buffer_size row - (o + s))).
Proof.
  intros Ho Hs Hrow Hsrc Hcells. unfold memcpy, buffer_size, new_char in *.
  assert (Hlen : List.length (firstn (Z.to_nat o) row) = Z.to_nat o)
    by (rewrite length_firstn; lia).
  rewrite length_app, repeat_length, Hlen.
  replace (_ && _) with true.
  2:{ symmetry. repeat (apply andb_true_intro; split); apply Z.leb_le; lia. }
  f_equal. cbn [Z.to_nat skipn].
  rewrite <- Hlen at 1. rewrite firstn_app_length.
  replace (Z.to_nat (o + s)) with (List.length (firstn (Z.to_nat o) row) + Z.to_nat s)%nat
    at 1 by lia.
  rewrite skipn_app_length, skipn_repeat, Hcells.
  replace (Z.to_nat (o + s)) with (Z.to_nat o + Z.to_nat s)%nat by lia.
  rewrite firstn_add, <- app_assoc. do 3 f_equal. lia.
Qed.

Lemma append_element_fit (ds : DataSet) (e : DataElement) :
  buffer_size (data e) = get_element_size ds ->
  append_element ds (data e) = Ok (mkDataSet (data_elements ds ++ [e]) (data_variables ds)).
Proof.
  intros Hfit. unfold append_element, DataElement_new.
  pose proof (memcpy_next (data e) (data e) 0 (buffer_size (data e))) as Hcopy.
  cbn [Z.to_nat firstn skipn app] in Hcopy.
  rewrite Z.sub_0_r, Z.add_0_l, Z.sub_diag in Hcopy. rewrite <- Hfit.
  rewrite Hcopy; try lia; try reflexivity.
  2:{ unfold buffer_size. lia. }
  cbn [bind new_char Z.to_nat repeat]. rewrite app_nil_r.
  unfold buffer_size. rewrite Nat2Z.id, firstn_all. destruct e. reflexivity.
Qed.

(** *** The export *)

Section ExportImport.

Context {Q : QuantType}.

Lemma write_field_text (e : DataElement) (v : DataVar.t) (tok : string) :
  field_text e v tok -> write_field e v = Ok tok.
Proof.
  intros [bytes [Hcells Hkind]]. unfold write_field, field_cells in *.
  destruct (DataVar.data_type v); cbn [DataVar.DataType_eqb].
  - subst tok. rewrite Hcells. cbn [bind]. rewrite read_chars_determinate. reflexivity.
  - destruct Hkind as [Hsize [-> _]]. rewrite <- Hsize, Hcells. cbn [bind].
    rewrite read_chars_determinate. reflexivity.
Qed.

Lemma write_row_texts (e : DataElement) (vars : list DataVar.t) (toks : list string) :
  Forall2 (field_text e) vars toks -> vars <> [] ->
  write_row e vars = Ok (join_fields toks ++ String "010" "")%string.
Proof.
  induction 1 as [| v tok vars toks Hv Hrest IH]; intros Hne; [congruence |].
  destruct Hrest as [| v2 tok2 vars toks Hv2 Hrest].
  - cbn [write_row join_fields]. rewrite (write_field_text e v tok Hv). reflexivity.
  - change (write_row e (v :: v2 :: vars))
      with (dat <- write_field e v ;;
            more <- write_row e (v2 :: vars) ;;
            Ok (dat ++ "," ++ more)%string).
    rewrite (write_field_text e v tok Hv). rewrite IH by discriminate. cbn [bind].
    rewrite (join_fields_cons tok (tok2 :: toks)) by discriminate.
    rewrite string_app_assoc. reflexivity.
Qed.

Lemma write_rows_texts (vars : list DataVar.t) (es : list DataElement)
    (rows : list (list string)) :
  Forall2 (row_texts vars) es rows -> vars <> [] -> forall acc : string,
  for_each (fun text de => row <- write_row de vars ;; Ok (text ++ row)%string) es acc
  = Ok (acc ++ csv_text rows)%string.
Proof.
  induction 1 as [| e toks es rows [Htexts _] _ IH]; intros Hne acc; cbn [for_each csv_text].
  - rewrite string_app_empty_r. reflexivity.
  - rewrite (write_row_texts e vars toks Htexts Hne). cbn [bind].
    rewrite IH by exact Hne. rewrite !string_app_assoc. reflexivity.
Qed.

Lemma write_header_line (vars : list DataVar.t) :
  vars <> [] ->
  Forall (fun v => all_chars (fun c => negb (Ascii.eqb c "010")) (DataVar.identifier v)
                   = true) vars ->
  exists h : string,
    write_header vars = (h ++ String "010" "")%string
    /\ all_chars (fun c => negb (Ascii.eqb c "010")) h = true.
Proof.
  intros Hne Hall. induction Hall as [| v vars Hv Hall IH]; [congruence |].
  destruct vars as [| v2 vars].
  - exists (DataVar.identifier v). split; [reflexivity | exact Hv].
  - destruct IH as [h [Hh Hclean]]; [discriminate |].
    exists (DataVar.identifier v ++ "," ++ h)%string.
    change (write_header (v :: v2 :: vars))
      with (DataVar.identifier v ++ "," ++ write_header (v2 :: vars))%string.
    rewrite Hh. split.
    + rewrite !string_app_assoc. reflexivity.
    + rewrite all_chars_app, Hv. cbn. exact Hclean.
Qed.

Lemma rows_have_texts (vars : list DataVar.t) (es : list DataElement) :
  Forall (fun e => exists toks, row_texts vars e toks) es ->
  exists rows, Forall2 (row_texts vars) es rows.
Proof.
  induction 1 as [| e es [toks Htoks] _ [rows Hrows]].
  - exists []. constructor.
  - exists (toks :: rows). constructor; assumption.
Qed.

(** *** The import of one line *)

Lemma getline_line (text l h more : string) :
  all_chars (fun c => negb (Ascii.eqb c "010")) h = true ->
  getline (mkistream text (h ++ String "010" more) false false) l "010"
  = (mkistream text more false false, h).
Proof.
  intros Hh. unfold getline. simpl orb. cbv iota. cbn [rest content].
  rewrite (extract_delim _ _ _ Hh). destruct h; reflexivity.
Qed.

Lemma field_text_size (e : DataElement) (v : DataVar.t) (tok : string) (bytes : list ascii) :
  field_cells e v = Ok (map Some bytes) ->
  0 <= DataVar.offset v /\ 0 <= DataVar.size v
  /\ DataVar.offset v + DataVar.size v <= buffer_size (data e)
  /\ Z.of_nat (List.length bytes) = DataVar.size v
  /\ map Some bytes
     = firstn (Z.to_nat (DataVar.size v)) (skipn (Z.to_nat (DataVar.offset v)) (data e)).
Proof.
  unfold field_cells, get_field_var, DataVar.get_offset. intros Hcells.
  apply deref_Ok in Hcells. destruct Hcells as [Ho [Hs [Hfit Heq]]].
  repeat split; try assumption.
  apply (f_equal (@List.length cell)) in Heq.
  rewrite length_map, length_firstn, length_skipn in Heq.
  unfold buffer_size in Hfit. lia.
Qed.

Section OneRow.

Variables (e : DataElement) (var_template : list DataVar.t).

Hypothesis template_count : Z.of_nat (List.length var_template) <= INT_MAX.

(** The [for] loop over the fields of the line of row [e], from the
    field of the first variable of [todo]: the buffer ends as the row. *)
Lemma read_fields_sim (todo : list DataVar.t) : forall (done : list DataVar.t)
    (toks : list string) (ss : istream) (l : string) (o : Z) (fuel : nat),
  var_template = done ++ todo ->
  Forall2 (field_text e) todo toks ->
  fields_left ss toks -> (toks <> [] -> record toks) ->
  layout o todo (buffer_size (data e)) -> 0 <= o ->
  (List.length toks < fuel)%nat ->
  exists l' : string,
    read_fields fuel var_template ss l
      (firstn (Z.to_nat o) (data e) ++ new_char (buffer_size (data e) - o))
      (Z.of_nat (List.length done))
    = Some (Ok (l', data e, Z.of_nat (List.length var_template))).
Proof.
  induction todo as [| v todo IH];
    intros done toks ss l o fuel Htemplate Htexts Hleft Hrec Hlayout Ho Hfuel;
    inversion Htexts as [| ? tok ? toks' Hv Htexts']; subst toks;
    (destruct fuel as [| fuel]; [simpl in Hfuel; lia |]); cbn [read_fields].
  - destruct (getline_no_field ss l Hleft) as [ss' [Hget Hfail]].
    rewrite Hget, Hfail. exists l. cbn [layout] in Hlayout. subst o.
    rewrite Z.sub_diag. unfold buffer_size. rewrite Nat2Z.id, firstn_all.
    cbn [new_char Z.to_nat repeat]. rewrite !app_nil_r. subst var_template.
    rewrite app_nil_r. reflexivity.
  - specialize (Hrec ltac:(discriminate)).
    destruct (getline_field ss l tok toks' Hleft Hrec) as [ss' [Hget [Hfail Hleft']]].
    rewrite Hget, Hfail.
    assert (Hlen : List.length var_template = (List.length done + S (List.length todo))%nat)
      by (subst var_template; rewrite length_app; reflexivity).
    rewrite to_int_small by lia.
    destruct (Z.geb_spec (Z.of_nat (List.length done)) (Z.of_nat (List.length var_template)));
      [lia |].
    rewrite Nat2Z.id.
    replace (nth_error var_template (List.length done)) with (Some v).
    2:{ subst var_template. rewrite nth_error_app2 by lia.
        rewrite Nat.sub_diag. reflexivity. }
    destruct Hlayout as [Hoff [Hsize Hlayout]].
    destruct Hv as [bytes [Hcells Hkind]].
    destruct (field_text_size e v tok bytes Hcells) as [_ [_ [Hfit [Hbytes Hslice]]]].
    assert (Hnext : forall fuel' l2,
               (List.length toks' < fuel')%nat ->
               exists l', read_fields fuel' var_template ss' l2
                 (firstn (Z.to_nat (o + DataVar.size v)) (data e)
                  ++ new_char (buffer_size (data e) - (o + DataVar.size v)))
                 (Z.of_nat (List.length done) + 1)
               = Some (Ok (l', data e, Z.of_nat (List.length var_template)))).
    { intros fuel' l2 Hfuel'.
      replace (Z.of_nat (List.length done) + 1)
        with (Z.of_nat (List.length (done ++ [v])))
        by (rewrite length_app; simpl; lia).
      apply (IH (done ++ [v]) toks'); auto; try lia.
      - subst var_template. rewrite <- app_assoc. reflexivity.
      - intros Hne. destruct toks'; [congruence |]. eapply record_cons. exact Hrec. }
    destruct (DataVar.data_type v); cbn [DataVar.DataType_eqb].
    + (* categorical: the bytes themselves *)
      subst tok.
      assert (Hpad : pad (string_of_list_ascii bytes) (DataVar.size v)
                     = string_of_list_ascii bytes).
      { apply pad_exact. unfold string_size.
        rewrite string_of_list_ascii_length. exact Hbytes. }
      rewrite Hpad. unfold c_str, chars.
      rewrite list_ascii_of_string_of_list_ascii.
      rewrite <- Hoff. rewrite memcpy_next; auto; try lia.
      * cbn [bind_fuel]. rewrite Hoff. apply Hnext. simpl in Hfuel. lia.
      * unfold buffer_size. rewrite length_app, length_map. simpl. lia.
      * rewrite <- Hslice. rewrite <- Hbytes, Nat2Z.id.
        rewrite <- (length_map Some bytes) at 1. apply firstn_app_length.
    + (* quantitative: the text converts back to the bytes *)
      destruct Hkind as [Hsz [-> Hback]]. rewrite Hback. cbn [bind_fuel].
      rewrite Hsz in *. rewrite Z.eqb_refl. cbn [negb].
      rewrite <- Hoff. rewrite memcpy_next; auto; try lia.
      * cbn [bind_fuel]. rewrite Hoff. apply Hnext. simpl in Hfuel. lia.
      * unfold buffer_size. rewrite length_map. lia.
      * rewrite <- Hslice. rewrite <- Hbytes, Nat2Z.id.
        rewrite <- (length_map Some bytes) at 1. apply firstn_all.
Qed.

End OneRow.

End ExportImport.

(** *** The import of the exported file *)

Section ImportLines.

Context {Q : QuantType}.

Variables (vars : list DataVar.t) (text : string).

Hypothesis vars_count : Z.of_nat (List.length vars) <= INT_MAX.
Hypothesis vars_layout : layout 0 vars (DataVar.compute_elem_size vars).

Lemma getline_lines (l : string) (more : list (list string)) (f' : istream) (l' : string) :
  Forall record more ->
  getline (mkistream text (csv_text more) false false) l "010" = (f', l') ->
  lines_left text f' l' more.
Proof.
  intros Hrecs. destruct Hrecs as [| toks more [Hfields _] _]; cbn [csv_text].
  - rewrite getline_eof. intros Hget. injection Hget as <- <-. reflexivity.
  - rewrite (getline_record _ _ toks _ Hfields). intros Hget. injection Hget as <- <-.
    split; reflexivity.
Qed.

Lemma Forall2_length_eq {A B : Type} (R : A -> B -> Prop) (xs : list A) (ys : list B) :
  Forall2 R xs ys -> List.length xs = List.length ys.
Proof. induction 1; simpl; congruence. Qed.

(** The [while] loop over the lines of the rows still to import. *)
Lemma read_lines_sim (es : list DataElement) (rows : list (list string)) :
  Forall2 (row_texts vars) es rows ->
  forall (done : list DataElement) (f : istream) (l : string) (fuel : nat),
  Forall (fun e => buffer_size (data e) = DataVar.compute_elem_size vars) es ->
  lines_left text f l rows ->
  (List.length es + List.length vars + 1 < fuel)%nat ->
  read_lines fuel vars (DataVar.compute_elem_size vars) f l (mkDataSet done vars)
  = Some (Ok (mkDataSet (done ++ es) vars)).
Proof.
  induction 1 as [| e toks es rows [Htexts Hrec] Hrows IH];
    intros done f l fuel Hfit Hleft Hfuel;
    (destruct fuel as [| fuel]; [lia |]); cbn [read_lines].
  - cbn [lines_left] in Hleft. rewrite Hleft, app_nil_r. reflexivity.
  - destruct Hleft as [-> ->]. cbn [eof eofbit].
    inversion Hfit as [| ? ? He Hfit']; subst.
    assert (Hne : toks <> []).
    { destruct Hrec as [_ Hl]. destruct toks; [contradiction | discriminate]. }
    destruct (read_fields_sim e vars vars_count vars [] toks
                (istream_open (join_fields toks)) (join_fields toks) 0 fuel)
      as [l' Hfields]; auto; try lia.
    + apply fields_left_open. exact Hne.
    + rewrite He. exact vars_layout.
    + rewrite <- (Forall2_length_eq _ _ _ Htexts). cbn [List.length] in Hfuel. lia.
    + cbn [Z.to_nat firstn app List.length Z.of_nat] in Hfields.
      rewrite Z.sub_0_r, He in Hfields. rewrite Hfields. cbn [bind_fuel].
      rewrite Z.eqb_refl. cbn [negb].
      rewrite (append_element_fit (mkDataSet done vars) e) by exact He.
      cbn [bind_fuel data_elements data_variables].
      destruct (getline (mkistream text (csv_text rows) false false) l' "010")
        as [f2 l2] eqn:Hget.
      rewrite (IH (done ++ [e]) f2 l2 fuel Hfit').
      * rewrite <- app_assoc. reflexivity.
      * eapply getline_lines; [| exact Hget].
        clear - Hrows. induction Hrows as [| ? ? ? ? [_ Hr] _ IHr]; constructor; assumption.
      * cbn [List.length] in Hfuel. lia.
Qed.

End ImportLines.

(** Claim C9, amended: a store that the CSV format can carry (at least
    one variable and at most [INT_MAX], the variables laid out without gap
    up to the element size, rows of that size, no newline in a column
    name, and in every row fields of determinate bytes whose texts hold no
    comma and no newline, with a last field that is not empty, the
    quantitative fields of the size of [QUANT_TYPE] with values whose text
    converts back to the same bytes) is exported to a file that can be
    written, and the import of the exported file with the same variables
    yields the same store, so every field of every row holds the bytes it
    held. *)
Theorem export_import_same (Q : QuantType) (fs : filesystem) (ds : DataSet) (path : string) :
  exportable ds -> writable fs path = true ->
  exists fs' : filesystem,
    write_to_csv fs ds path = Ok fs'
    /\ exists fuel0 : nat, forall fuel : nat,
         read_from_csv_template (fuel0 + fuel) fs' path (data_variables ds) true
         = Some (Ok ds).
Proof.
  intros [Hne [Hcount [Hlayout [Hfit [Hnames Hrows]]]]] Hwritable.
  destruct ds as [es vars]. cbn [data_variables data_elements] in *.
  unfold get_element_size in Hlayout. cbn [data_variables] in Hlayout.
  destruct (rows_have_texts vars es Hrows) as [rows Htexts].
  destruct (write_header_line vars Hne Hnames) as [h [Hheader Hclean]].
  eexists. split.
  - unfold write_to_csv, write_rows. rewrite Hwritable. cbn [negb data_variables data_elements].
    rewrite (write_rows_texts vars es rows Htexts Hne). cbn [bind]. reflexivity.
  - exists (List.length es + List.length vars + 2)%nat. intros fuel.
    unfold read_from_csv_template, write_file. cbn [files].
    rewrite String.eqb_refl, Hheader. cbn [append].
    rewrite string_app_assoc. cbn [append]. unfold istream_open.
    rewrite (getline_line _ _ h _ Hclean).
    unfold DataSet_new.
    destruct (Z.eqb_spec (Z.of_nat (List.length vars)) 0) as [H0 | _].
    { destruct vars; [congruence | simpl in H0; lia]. }
    cbn [bind_fuel]. unfold get_element_size. cbn [data_variables].
    destruct (getline (mkistream (h ++ String "010" (csv_text rows)) (csv_text rows) false false)
                "" "010") as [f l] eqn:Hget.
    rewrite (read_lines_sim vars (h ++ String "010" (csv_text rows)) Hcount Hlayout
               es rows Htexts [] f l); auto.
    + eapply getline_lines; [| exact Hget].
      clear - Htexts. induction Htexts as [| ? ? ? ? [_ Hr] _ IHr]; constructor; assumption.
    + lia.
Qed.

Lemma export_import_same_witness :
  exportable (Q := Samples.decimal4) Samples.priced
  /\ writable (Samples.one_file "in.csv" "") "out.csv" = true
  /\ exists fs' : filesystem,
       @write_to_csv Samples.decimal4 (Samples.one_file "in.csv" "") Samples.priced "out.csv"
       = Ok fs'
       /\ exists fuel0 : nat, forall fuel : nat,
            @read_from_csv_template Samples.decimal4 (fuel0 + fuel) fs' "out.csv"
              (data_variables Samples.priced) true
            = Some (Ok Samples.priced).
Proof.
  assert (Hfield : forall tok : string,
             all_chars field_char tok = true -> string_size tok + 1 < SIZE_MAX -> field tok).
  { intros tok Hc Hl. split; assumption. }
  assert (Hquant : forall (e : DataElement) (v : DataVar.t) (bytes : list ascii),
             field_cells e v = Ok (map Some bytes) ->
             DataVar.data_type v = QUANTITATIVE ->
             DataVar.size v = 4 ->
             @text_bytes Samples.decimal4 (string_of_list_ascii bytes) = Ok bytes ->
             field_text (Q := Samples.decimal4) e v (string_of_list_ascii bytes)).
  { intros e v bytes Hcells Hdt Hsz Hback. exists bytes. split; [exact Hcells |].
    rewrite Hdt. split; [exact Hsz |]. split; [reflexivity | exact Hback]. }
  assert (Hcat : forall (e : DataElement) (v : DataVar.t) (bytes : list ascii),
             field_cells e v = Ok (map Some bytes) ->
             DataVar.data_type v = CATEGORICAL ->
             field_text (Q := Samples.decimal4) e v (string_of_list_ascii bytes)).
  { intros e v bytes Hcells Hdt. exists bytes. split; [exact Hcells |].
    rewrite Hdt. reflexivity. }
  assert (Hrow : forall (e : DataElement) (q c : list ascii),
             Forall2 (field_text (Q := Samples.decimal4) e) (data_variables Samples.priced)
                     [string_of_list_ascii q; string_of_list_ascii c] ->
             record [string_of_list_ascii q; string_of_list_ascii c] ->
             exists toks, row_texts (Q := Samples.decimal4)
                            (data_variables Samples.priced) e toks).
  { intros e q c Htexts Hrec. eexists. split; eassumption. }
  assert (Hexp : exportable (Q := Samples.decimal4) Samples.priced).
  { split; [discriminate |]. split; [vm_compute; discriminate |].
    split; [repeat split; vm_compute; congruence |].
    split; [repeat constructor |].
    split; [repeat constructor |].
    apply Forall_cons; [| apply Forall_cons; [| apply Forall_nil]].
    - apply (Hrow _ (list_ascii_of_string "3.25") (list_ascii_of_string "ab")).
      + apply Forall2_cons; [apply Hquant; reflexivity |].
        apply Forall2_cons; [apply Hcat; reflexivity | apply Forall2_nil].
      + split; [| discriminate].
        repeat (apply Forall_cons; [apply Hfield; reflexivity |]). apply Forall_nil.
    - apply (Hrow _ (list_ascii_of_string "0042") (list_ascii_of_string "cd")).
      + apply Forall2_cons; [apply Hquant; reflexivity |].
        apply Forall2_cons; [apply Hcat; reflexivity | apply Forall2_nil].
      + split; [| discriminate].
        repeat (apply Forall_cons; [apply Hfield; reflexivity |]). apply Forall_nil. }
  split; [exact Hexp |]. split; [reflexivity |].
  exact (export_import_same Samples.decimal4 (Samples.one_file "in.csv" "") Samples.priced
           "out.csv" Hexp eq_refl).
Defined.

(** * Further properties *)

(** ** Helpers::is_integer *)

Section IsInteger.

Import Helpers.

Local Open Scope string_scope.

Lemma digit_not_space c : isdigit c = true -> isspace c = false.
Proof. destruct c as [[] [] [] [] [] [] [] []]; vm_compute; congruence. Qed.

Lemma digit_not_dot c : isdigit c = true -> Ascii.eqb c "." = false.
Proof. destruct c as [[] [] [] [] [] [] [] []]; vm_compute; congruence. Qed.

Lemma integer_loop_Some s : forall num_read rest n,
  integer_loop s num_read = Some (rest, n) ->
  exists body,
    s = body ++ rest /\ all_chars isdigit body = true /\ n = num_read + string_size body.
Proof.
  induction s as [| c s IH]; simpl; intros num_read rest n H.
  - injection H as <- <-. exists "". repeat split. unfold string_size; simpl; lia.
  - destruct (isspace c) eqn:Hsp.
    { injection H as <- <-. exists "". repeat split. unfold string_size; simpl; lia. }
    destruct (isdigit c) eqn:Hd; [| discriminate]. cbn [negb] in H.
    apply IH in H. destruct H as [body [-> [Hall ->]]].
    exists (String c body). simpl. rewrite Hd, Hall. repeat split.
    unfold string_size. simpl String.length. lia.
Qed.

Lemma integer_loop_digits body : forall post num_read,
  all_chars isdigit body = true -> all_chars isspace post = true ->
  integer_loop (body ++ post) num_read = Some (post, num_read + string_size body).
Proof.
  induction body as [| c body IH]; simpl; intros post num_read Hall Hpost.
  - unfold string_size. simpl. rewrite Z.add_0_r.
    destruct post as [| p post]; [reflexivity |]. simpl in *.
    apply andb_prop in Hpost. destruct Hpost as [Hp _]. rewrite Hp. reflexivity.
  - apply andb_prop in Hall. destruct Hall as [Hc Hall].
    rewrite (digit_not_space c Hc), Hc. cbn [negb].
    rewrite IH by assumption. f_equal. f_equal.
    unfold string_size. simpl String.length. lia.
Qed.

Lemma skip_spaces_digits body post :
  body <> "" -> all_chars isdigit body = true ->
  skip_spaces (body ++ post) = body ++ post.
Proof.
  destruct body as [| c body]; [congruence |]. simpl. intros _ H.
  apply andb_prop in H. destruct H as [Hc _].
  rewrite (digit_not_space c Hc). reflexivity.
Qed.

Lemma is_integer_has_shape (str : string) :
  is_integer str = true -> integer_shape str.
Proof.
  unfold is_integer. intros H.
  destruct (skip_spaces_split str) as [pre [Hstr Hpre]].
  destruct (integer_loop (skip_spaces str) 0) as [[rest n] |] eqn:Hloop; [| discriminate].
  destruct (only_spaces rest) eqn:Hrest; [| discriminate].
  apply integer_loop_Some in Hloop. destruct Hloop as [body [Hbody [Hall ->]]].
  exists pre, body, rest. rewrite <- Hbody. repeat split; auto.
  - intros ->. vm_compute in H. discriminate.
  - rewrite <- only_spaces_all_chars. exact Hrest.
Qed.

(** [is_integer] holds exactly of the texts made of white space, one or
    more digits, white space. *)
Theorem is_integer_integer_shape (str : string) :
  is_integer str = true <-> integer_shape str.
Proof.
  split; [apply is_integer_has_shape |].
  unfold is_integer.
  intros [pre [body [post [-> [Hpre [Hne [Hall Hpost]]]]]]].
  rewrite (skip_spaces_prefix pre _ Hpre), (skip_spaces_digits body post Hne Hall).
  rewrite (integer_loop_digits body post 0 Hall Hpost).
  rewrite only_spaces_all_chars, Hpost.
  destruct body as [| c body]; [congruence |].
  unfold string_size. simpl String.length.
  destruct (Z.gtb_spec (0 + Z.of_nat (S (String.length body))) 0); [reflexivity | lia].
Qed.

Lemma digits_count_dot body : all_chars isdigit body = true -> count_char "." body = 0.
Proof.
  induction body as [| c body IH]; simpl; intros H; [reflexivity |].
  apply andb_prop in H. destruct H as [Hc Hall].
  rewrite (digit_not_dot c Hc), (IH Hall). reflexivity.
Qed.

(** Every text [is_integer] accepts, [is_number] accepts. *)
Theorem is_integer_is_number (str : string) :
  is_integer str = true -> is_number str = true.
Proof.
  intros H. apply is_integer_has_shape in H.
  destruct H as [pre [body [post [-> [Hpre [Hne [Hall Hpost]]]]]]].
  apply shape_is_number. exists pre, body, post. repeat split; auto.
  - revert Hall. apply all_chars_impl. intros c Hc. unfold numeral_char. rewrite Hc. reflexivity.
  - rewrite (digits_count_dot body Hall). lia.
Qed.

End IsInteger.

Lemma is_integer_is_number_witness :
  Helpers.is_integer " 42 " = true /\ Helpers.is_number " 42 " = true.
Proof.
  split; [reflexivity | apply (is_integer_is_number " 42 "); reflexivity].
Defined.

(** ** Rows in and out of a store *)

(** A copy into the part of a buffer that is still fresh, after [pre]. *)
Lemma memcpy_append (pre src : buffer) (m soff s : Z) :
  0 <= s <= m -> 0 <= soff -> soff + s <= buffer_size src ->
  memcpy (pre ++ new_char m) (buffer_size pre) src soff s
  = Ok (pre ++ firstn (Z.to_nat s) (skipn (Z.to_nat soff) src) ++ new_char (m - s)).
Proof.
  intros Hs Hsoff Hsrc. unfold memcpy, buffer_size, new_char in *.
  rewrite length_app, repeat_length.
  replace (_ && _) with true.
  2:{ symmetry. repeat (apply andb_true_intro; split); apply Z.leb_le; lia. }
  f_equal. rewrite Nat2Z.id, firstn_app_length.
  replace (Z.to_nat (Z.of_nat (List.length pre) + s))
    with (List.length pre + Z.to_nat s)%nat by lia.
  rewrite skipn_app_length, skipn_repeat. do 3 f_equal. lia.
Qed.

(** A new element holds the first bytes of the caller's buffer, as many as
    the element size; a shorter buffer is read past its end. *)
Lemma DataElement_new_firstn (dat : buffer) (set : DataSet) :
  DataElement_new dat set
  = if get_element_size set <=? buffer_size dat
    then Ok (mkElement (firstn (Z.to_nat (get_element_size set)) dat))
    else Undefined.
Proof.
  unfold DataElement_new.
  pose proof (compute_elem_size_nonneg (data_variables set)) as Hnn.
  fold (get_element_size set) in Hnn.
  destruct (Z.leb_spec (get_element_size set) (buffer_size dat)) as [Hle | Hlt].
  - pose proof (memcpy_append [] dat (get_element_size set) 0 (get_element_size set)) as Hcopy.
    cbn [app buffer_size List.length Z.of_nat Z.to_nat skipn] in Hcopy.
    rewrite Hcopy by lia. cbn [bind]. rewrite Z.sub_diag. cbn [new_char Z.to_nat repeat].
    rewrite app_nil_r. reflexivity.
  - unfold memcpy. replace (_ && _) with false; [reflexivity |].
    symmetry. apply andb_false_iff. right. apply Z.leb_gt. lia.
Qed.

(** [append_element] is defined exactly when the caller's buffer holds at
    least an element; it then adds one row at the end, the first bytes of
    the buffer, and changes nothing else. *)
Theorem append_element_firstn (ds : DataSet) (dat : buffer) :
  append_element ds dat
  = if get_element_size ds <=? buffer_size dat
    then Ok (mkDataSet
               (data_elements ds ++ [mkElement (firstn (Z.to_nat (get_element_size ds)) dat)])
               (data_variables ds))
    else Undefined.
Proof.
  unfold append_element. rewrite DataElement_new_firstn.
  destruct (_ <=? _); reflexivity.
Qed.

Lemma firstn_skipn_insert {A : Type} (l : list A) (n : nat) (x : A) :
  (n <= List.length l)%nat ->
  nth_error (firstn n l ++ x :: skipn n l) n = Some x
  /\ firstn n (firstn n l ++ x :: skipn n l)
     ++ skipn (S n) (firstn n l ++ x :: skipn n l) = l.
Proof.
  intros Hn.
  assert (Hlen : List.length (firstn n l) = n) by (rewrite length_firstn; lia).
  split.
  - rewrite nth_error_app2 by lia. rewrite Hlen, Nat.sub_diag. reflexivity.
  - rewrite <- Hlen at 1. rewrite firstn_app_length.
    replace (S n) with (List.length (firstn n l) + 1)%nat by lia.
    rewrite skipn_app_length. cbn [skipn]. apply firstn_skipn.
Qed.

(** Insert, then look at or remove what was inserted: for an index from 0
    to the number of rows and a buffer that holds at least an element,
    [insert_element] succeeds, [get_element] at that index is the new row,
    and [remove_element] at that index gives the store back. *)
Theorem insert_get_remove (ds : DataSet) (index : Z) (dat : buffer) :
  0 <= index <= get_num_elements ds ->
  get_num_elements ds < INT_MAX ->
  get_element_size ds <= buffer_size dat ->
  exists ds',
    insert_element ds index dat = Ok ds'
    /\ get_num_elements ds' = get_num_elements ds + 1
    /\ data_variables ds' = data_variables ds
    /\ get_element ds' index
       = Ok (mkElement (firstn (Z.to_nat (get_element_size ds)) dat))
    /\ remove_element ds' index = Ok ds.
Proof.
  intros Hindex Hmax Hdat. unfold get_num_elements in *.
  unfold insert_element. rewrite DataElement_new_firstn.
  destruct (Z.leb_spec (get_element_size ds) (buffer_size dat)); [| lia]. cbn [bind].
  unfold vector_insert.
  replace (_ && _) with true by (symmetry; apply andb_true_intro; split; apply Z.leb_le; lia).
  cbn [bind]. eexists. split; [reflexivity |].
  set (row := mkElement (firstn (Z.to_nat (get_element_size ds)) dat)).
  destruct (firstn_skipn_insert (data_elements ds) (Z.to_nat index) row ltac:(lia))
    as [Hnth Hback].
  assert (Hlen : List.length (firstn (Z.to_nat index) (data_elements ds)
                              ++ row :: skipn (Z.to_nat index) (data_elements ds))
                 = S (List.length (data_elements ds))).
  { rewrite length_app, length_firstn. cbn [List.length]. rewrite length_skipn. lia. }
  cbn [data_elements data_variables]. split; [rewrite Hlen; lia |]. split; [reflexivity |].
  split.
  - unfold get_element. cbn [data_elements].
    destruct (Z.leb_spec 0 index); [| lia]. rewrite Hnth. reflexivity.
  - unfold remove_element, get_num_elements. cbn [data_elements data_variables].
    rewrite Hlen, to_int_small by (unfold INT_MAX in *; lia).
    replace (_ || _) with false.
    2:{ symmetry. apply orb_false_iff.
        split; [apply Z.ltb_ge | rewrite Z.geb_leb; apply Z.leb_gt]; lia. }
    unfold vector_erase. rewrite Hlen.
    replace (_ && _) with true.
    2:{ symmetry. apply andb_true_intro. split; [apply Z.leb_le | apply Z.ltb_lt]; lia. }
    cbn [bind]. rewrite Hback. destruct ds. reflexivity.
Qed.

Lemma insert_get_remove_witness :
  0 <= 1 <= get_num_elements Samples.two_rows
  /\ exists ds',
       insert_element Samples.two_rows 1 (chars "pqr") = Ok ds'
       /\ get_num_elements ds' = get_num_elements Samples.two_rows + 1
       /\ data_variables ds' = data_variables Samples.two_rows
       /\ get_element ds' 1
          = Ok (mkElement (firstn (Z.to_nat (get_element_size Samples.two_rows)) (chars "pqr")))
       /\ remove_element ds' 1 = Ok Samples.two_rows.
Proof.
  assert (H : 0 <= 1 <= get_num_elements Samples.two_rows) by (vm_compute; split; discriminate).
  split; [exact H |].
  apply (insert_get_remove Samples.two_rows 1 (chars "pqr") H).
  - vm_compute. reflexivity.
  - vm_compute. discriminate.
Defined.

Lemma nth_error_erase {A : Type} (l : list A) (i j : nat) :
  nth_error (firstn i l ++ skipn (S i) l) j
  = if (j <? i)%nat then nth_error l j else nth_error l (S j).
Proof.
  destruct (Nat.ltb_spec j i) as [Hlt | Hge].
  - destruct (Nat.le_gt_cases (List.length l) j) as [Hout | Hin].
    + assert (Hnone : nth_error l j = None) by (apply nth_error_None; lia).
      rewrite Hnone. apply nth_error_None.
      rewrite length_app, length_firstn, length_skipn. lia.
    + rewrite nth_error_app1 by (rewrite length_firstn; lia).
      rewrite nth_error_firstn.
      destruct (Nat.ltb_spec j i); [reflexivity | lia].
  - destruct (Nat.le_gt_cases (List.length l) i) as [Hout | Hin].
    + assert (Hnone : nth_error l (S j) = None) by (apply nth_error_None; lia).
      rewrite Hnone. apply nth_error_None.
      rewrite length_app, length_firstn, length_skipn. lia.
    + rewrite nth_error_app2 by (rewrite length_firstn; lia).
      rewrite length_firstn, nth_error_skipn. f_equal. lia.
Qed.

(** [remove_element] inside the bounds closes the gap: the rows before the
    index stay where they are, every later row moves down by one. *)
Theorem remove_element_shifts (ds : DataSet) (index : Z) :
  0 <= index < get_num_elements ds ->
  get_num_elements ds <= INT_MAX ->
  exists ds',
    remove_element ds index = Ok ds'
    /\ data_variables ds' = data_variables ds
    /\ (forall j, 0 <= j < index -> get_element ds' j = get_element ds j)
    /\ (forall j, index <= j -> get_element ds' j = get_element ds (j + 1)).
Proof.
  intros Hindex Hmax. unfold get_num_elements in *. unfold remove_element, get_num_elements.
  rewrite to_int_small by lia.
  replace (_ || _) with false.
  2:{ symmetry. apply orb_false_iff.
      split; [apply Z.ltb_ge | rewrite Z.geb_leb; apply Z.leb_gt]; lia. }
  unfold vector_erase.
  replace (_ && _) with true.
  2:{ symmetry. apply andb_true_intro. split; [apply Z.leb_le | apply Z.ltb_lt]; lia. }
  cbn [bind]. eexists. split; [reflexivity |]. split; [reflexivity |].
  unfold get_element. cbn [data_elements]. split; intros j Hj.
  - destruct (Z.leb_spec 0 j); [| lia]. rewrite nth_error_erase.
    destruct (Nat.ltb_spec (Z.to_nat j) (Z.to_nat index)); [reflexivity | lia].
  - destruct (Z.leb_spec 0 j); [| lia]. destruct (Z.leb_spec 0 (j + 1)); [| lia].
    rewrite nth_error_erase.
    destruct (Nat.ltb_spec (Z.to_nat j) (Z.to_nat index)); [lia |].
    replace (Z.to_nat (j + 1)) with (S (Z.to_nat j)) by lia. reflexivity.
Qed.

Lemma remove_element_shifts_witness :
  0 <= 0 < get_num_elements Samples.two_rows
  /\ exists ds',
       remove_element Samples.two_rows 0 = Ok ds'
       /\ data_variables ds' = data_variables Samples.two_rows
       /\ (forall j, 0 <= j < 0 -> get_element ds' j = get_element Samples.two_rows j)
       /\ (forall j, 0 <= j -> get_element ds' j = get_element Samples.two_rows (j + 1)).
Proof.
  assert (H : 0 <= 0 < get_num_elements Samples.two_rows)
    by (vm_compute; split; [discriminate | reflexivity]).
  split; [exact H |].
  apply (remove_element_shifts Samples.two_rows 0 H). vm_compute. discriminate.
Defined.

(** ** Copies *)

Lemma map_result_same {A : Type} (f : A -> result A) (xs : list A) :
  Forall (fun x => f x = Ok x) xs -> map_result f xs = Ok xs.
Proof.
  induction 1 as [| x xs Hx _ IH]; simpl; [reflexivity |].
  rewrite Hx, IH. reflexivity.
Qed.

(** A copy of a store whose rows have the element size is equal to the
    store: the same variables, and rows with the same bytes. *)
Theorem DataSet_copy_same (ds : DataSet) : rows_fit ds -> DataSet_copy ds = Ok ds.
Proof.
  intros Hfit. unfold DataSet_copy. rewrite (map_result_same _ (data_elements ds)).
  - destruct ds. reflexivity.
  - revert Hfit. apply Forall_impl. intros e He.
    pose proof (DataElement_new_firstn (data e) ds) as Hnew.
    unfold DataElement_new in Hnew. unfold DataElement_copy. rewrite Hnew.
    rewrite <- He. rewrite Z.leb_refl. unfold buffer_size.
    rewrite Nat2Z.id, firstn_all. destruct e. reflexivity.
Qed.

Lemma DataSet_copy_same_witness :
  rows_fit Samples.two_rows /\ DataSet_copy Samples.two_rows = Ok Samples.two_rows.
Proof.
  assert (H : rows_fit Samples.two_rows) by (repeat constructor).
  split; [exact H | exact (DataSet_copy_same Samples.two_rows H)].
Defined.

(** ** Lookups by name and by index *)

(** [get_var_by_id] finds the first variable of the name, and finds none
    exactly when no variable has it. *)
Theorem get_var_by_id_first (ds : DataSet) (id : string) :
  (forall v, get_var_by_id ds id = Some v <->
             exists before after,
               data_variables ds = before ++ v :: after
               /\ DataVar.identifier v = id
               /\ ~ In id (map DataVar.get_identifier before))
  /\ (get_var_by_id ds id = None <-> ~ In id (get_var_ids ds)).
Proof.
  split; [| apply get_var_by_id_None].
  unfold get_var_by_id, DataVar.get_identifier.
  induction (data_variables ds) as [| d vars IH]; intros v; cbn [find].
  - split; [discriminate |]. intros [before [after [H _]]]. destruct before; discriminate.
  - destruct (String.eqb_spec (DataVar.identifier d) id) as [Hd | Hd].
    + split.
      * intros H. injection H as <-. exists [], vars. repeat split; auto.
      * intros [before [after [Heq [Hv Hnot]]]]. destruct before as [| b before].
        -- injection Heq as -> _. reflexivity.
        -- injection Heq as -> _. exfalso. apply Hnot. left. exact Hd.
    + rewrite IH. split.
      * intros [before [after [Heq [Hv Hnot]]]]. exists (d :: before), after.
        rewrite Heq. repeat split; auto. intros [Hin | Hin]; [congruence | auto].
      * intros [before [after [Heq [Hv Hnot]]]]. destruct before as [| b before].
        -- injection Heq as -> _. congruence.
        -- injection Heq as -> ->. exists before, after. repeat split; auto.
           intros Hin. apply Hnot. right. exact Hin.
Qed.

Lemma NoDup_map_injective {A B : Type} (f : A -> B) (l : list A) (x y : A) :
  NoDup (map f l) -> In x l -> In y l -> f x = f y -> x = y.
Proof.
  induction l as [| a l IH]; intros Hnd Hx Hy Hf; [contradiction |].
  inversion Hnd as [| ? ? Hnotin Hnd']; subst.
  destruct Hx as [-> | Hx], Hy as [-> | Hy]; auto.
  - exfalso. apply Hnotin. rewrite Hf. apply in_map. exact Hy.
  - exfalso. apply Hnotin. rewrite <- Hf. apply in_map. exact Hx.
Qed.

(** With names that are all different, the name of a variable finds that
    variable. *)
Lemma get_var_by_id_unique (ds : DataSet) (v : DataVar.t) :
  NoDup (get_var_ids ds) -> In v (data_variables ds) ->
  get_var_by_id ds (DataVar.identifier v) = Some v.
Proof.
  intros Hnd Hin. destruct (get_var_by_id ds (DataVar.identifier v)) as [v' |] eqn:Hfind.
  - apply get_var_by_id_Some in Hfind. destruct Hfind as [Hin' Hid].
    f_equal. eapply NoDup_map_injective; eauto.
  - apply get_var_by_id_None in Hfind. exfalso. apply Hfind.
    unfold get_var_ids. apply in_map_iff. exists v. split; [reflexivity | exact Hin].
Qed.

(** [get_field(int)] goes through the name of the variable at the index:
    with names that are all different it points at the field of that
    variable. *)
Theorem get_field_int_unique (set : DataSet) (e : DataElement) (index : Z) (v : DataVar.t) :
  NoDup (get_var_ids set) ->
  get_num_vars set <= INT_MAX ->
  0 <= index ->
  nth_error (data_variables set) (Z.to_nat index) = Some v ->
  get_field_int set e index = Ok (get_field_var e v).
Proof.
  intros Hnd Hmax Hindex Hv. unfold get_field_int, get_num_vars in *.
  assert (Hlt : (Z.to_nat index < List.length (data_variables set))%nat)
    by (apply nth_error_Some; congruence).
  rewrite to_int_small by lia.
  replace (_ || _) with false.
  2:{ symmetry. apply orb_false_iff.
      split; [apply Z.ltb_ge | rewrite Z.geb_leb; apply Z.leb_gt]; lia. }
  unfold get_var_ids. rewrite (map_nth_error _ _ _ Hv).
  unfold get_field, DataVar.get_identifier.
  rewrite (get_var_by_id_unique set v Hnd (nth_error_In _ _ Hv)). reflexivity.
Qed.

Lemma get_field_int_unique_witness :
  NoDup (get_var_ids Samples.one_row)
  /\ get_field_int Samples.one_row (mkElement (chars "xy")) 1
     = Ok (get_field_var (mkElement (chars "xy")) Samples.col_b).
Proof.
  assert (H : NoDup (get_var_ids Samples.one_row)).
  { repeat constructor; simpl; intros Hin; repeat destruct Hin as [Hin | Hin];
      try discriminate; auto. }
  split; [exact H |].
  apply (get_field_int_unique Samples.one_row (mkElement (chars "xy")) 1 Samples.col_b H).
  - vm_compute. discriminate.
  - lia.
  - reflexivity.
Defined.

(** With a name used twice, the index of the second variable gives the
    field of the first. *)
Example get_field_int_duplicate_name :
  get_field_int
    (mkDataSet [] [Samples.col_a; Samples.col_b;
                   DataVar.make "b" EXPLANATORY CATEGORICAL 1 2])
    (mkElement (chars "xyx")) 2
  = Ok (mkptr (chars "xyx") 1).
Proof. reflexivity. Qed.

(** ** Types of the variables *)

(** [all_quantitative] says that every variable is quantitative,
    [all_categorical] that every variable is categorical; both hold only
    of a store without variables. *)
Theorem all_quantitative_all_categorical (ds : DataSet) :
  (all_quantitative ds = true
   <-> Forall (fun dv => DataVar.data_type dv = QUANTITATIVE) (data_variables ds))
  /\ (all_categorical ds = true
      <-> Forall (fun dv => DataVar.data_type dv = CATEGORICAL) (data_variables ds))
  /\ (all_quantitative ds = true /\ all_categorical ds = true
      <-> data_variables ds = []).
Proof.
  unfold all_quantitative, all_categorical.
  assert (Hq : forall vars,
             forallb (fun dv => negb (DataVar.DataType_eqb (DataVar.data_type dv) CATEGORICAL))
                     vars = true
             <-> Forall (fun dv => DataVar.data_type dv = QUANTITATIVE) vars).
  { intros vars. rewrite forallb_forall, Forall_forall.
    split; intros H dv Hin; specialize (H dv Hin);
      destruct (DataVar.data_type dv); simpl in *; congruence. }
  assert (Hc : forall vars,
             forallb (fun dv => negb (DataVar.DataType_eqb (DataVar.data_type dv) QUANTITATIVE))
                     vars = true
             <-> Forall (fun dv => DataVar.data_type dv = CATEGORICAL) vars).
  { intros vars. rewrite forallb_forall, Forall_forall.
    split; intros H dv Hin; specialize (H dv Hin);
      destruct (DataVar.data_type dv); simpl in *; congruence. }
  split; [apply Hq |]. split; [apply Hc |].
  rewrite Hq, Hc. split.
  - intros [H1 H2]. destruct (data_variables ds) as [| dv vars]; [reflexivity |].
    inversion H1; inversion H2; subst. congruence.
  - intros ->. split; constructor.
Qed.

(** ** The element size *)

Lemma compute_elem_size_bound (vars : list DataVar.t) :
  DataVar.compute_elem_size vars < 2 ^ 64.
Proof.
  unfold DataVar.compute_elem_size.
  induction vars as [| v vars _] using rev_ind; [reflexivity |].
  rewrite fold_left_app. cbn [fold_left]. apply size_t_wrap_range.
Qed.

(** The element size is the sum of the sizes of the variables, modulo
    [2 ^ 64]. *)
Theorem compute_elem_size_sum (vars : list DataVar.t) :
  DataVar.compute_elem_size vars
  = size_t_wrap (fold_right Z.add 0 (map DataVar.size vars)).
Proof.
  unfold DataVar.compute_elem_size, DataVar.get_size.
  assert (H : forall acc,
             fold_left (fun sum var => size_t_wrap (sum + DataVar.size var)) vars
                       (size_t_wrap acc)
             = size_t_wrap (acc + fold_right Z.add 0 (map DataVar.size vars))).
  { induction vars as [| v vars IH]; intros acc; cbn [fold_left map fold_right].
    - rewrite Z.add_0_r. reflexivity.
    - replace (size_t_wrap (size_t_wrap acc + DataVar.size v))
        with (size_t_wrap (acc + DataVar.size v))
        by (unfold size_t_wrap; rewrite Z.add_mod_idemp_l by discriminate; reflexivity).
      rewrite IH. f_equal. lia. }
  exact (H 0).
Qed.

(** ** Removing the only variable *)

(** [remove_var] of the only variable of a store succeeds: the store is
    left without variables, which the constructor refuses, and every row
    with an empty buffer. *)
Theorem remove_only_variable (rows : list DataElement) (var : DataVar.t) :
  remove_var (mkDataSet rows [var]) var
  = Ok (mkDataSet (map (fun _ => mkElement []) rows) [])
  /\ DataSet_new [] = Throw (DataException "Too few variables for DataSet.").
Proof.
  split; [| reflexivity].
  unfold remove_var, recompute_offsets. cbn [data_variables data_elements existsb flat_map].
  unfold DataVar.neqb. rewrite DataVar_eqb_refl. cbn [orb negb app].
  replace (map_result _ rows) with (Ok (map (fun _ : DataElement => mkElement []) rows));
    [reflexivity |].
  induction rows as [| e rows IH]; [reflexivity |].
  cbn [map_result map]. rewrite <- IH. reflexivity.
Qed.

(** ** forge_variable: what is added *)

Lemma map_result_map {A B : Type} (f : A -> result B) (g : A -> B) (xs : list A) :
  Forall (fun x => f x = Ok (g x)) xs -> map_result f xs = Ok (map g xs).
Proof.
  induction 1 as [| x xs Hx _ IH]; simpl; [reflexivity |].
  rewrite Hx, IH. reflexivity.
Qed.

Lemma find_app_one {A : Type} (p : A -> bool) (l : list A) (x : A) :
  find p (l ++ [x])
  = match find p l with
    | Some y => Some y
    | None => if p x then Some x else None
    end.
Proof.
  induction l as [| a l IH]; simpl; [reflexivity |].
  destruct (p a); [reflexivity | exact IH].
Qed.

Lemma compute_elem_size_app_one (vars : list DataVar.t) (v : DataVar.t) :
  DataVar.compute_elem_size (vars ++ [v])
  = size_t_wrap (DataVar.compute_elem_size vars + DataVar.size v).
Proof. unfold DataVar.compute_elem_size. rewrite fold_left_app. reflexivity. Qed.

(** [forge_variable] from an existing column under another name, on a
    store whose rows have the element size and whose new element size does
    not overflow: one variable is added at the end, of the type of the
    source, the size of [T] and the old element size as offset; every row
    keeps its bytes and gains at its end the bytes of the value that [mut]
    makes of the source field. *)
Theorem forge_variable_appends (T : Type) (VT : ValueType T) (ds : DataSet)
    (new_var_id mut_id : string) (mut : ptr -> T) (src : DataVar.t) :
  new_var_id <> mut_id ->
  get_var_by_id ds mut_id = Some src ->
  rows_fit ds ->
  get_element_size ds + sizeof T < 2 ^ 64 ->
  forge_variable ds new_var_id mut_id mut
  = Ok (mkDataSet
          (map (fun e =>
                  mkElement (data e
                             ++ object_bytes (mut (mkptr (data e) (DataVar.offset src)))))
               (data_elements ds))
          (data_variables ds
           ++ [DataVar.make new_var_id (DataVar.variable_type src) (DataVar.data_type src)
                            (sizeof T) (get_element_size ds)])).
Proof.
  intros Hne Hsrc Hfit Hsum. unfold forge_variable.
  destruct (String.eqb_spec new_var_id mut_id) as [Heq | _]; [contradiction |].
  rewrite Hsrc. cbv zeta.
  set (new_var := DataVar.make new_var_id (DataVar.variable_type src)
                    (DataVar.data_type src) (sizeof T) (get_element_size ds)).
  pose proof (compute_elem_size_nonneg (data_variables ds)) as Hold.
  fold (get_element_size ds) in Hold.
  pose proof (@sizeof_range T VT) as Hsz.
  assert (Hnew : get_element_size (mkDataSet (data_elements ds) (data_variables ds ++ [new_var]))
                 = get_element_size ds + sizeof T).
  { unfold get_element_size. cbn [data_variables]. rewrite compute_elem_size_app_one.
    cbn [new_var DataVar.size]. unfold size_t_wrap. apply Z.mod_small.
    unfold get_element_size in *. lia. }
  rewrite Hnew.
  rewrite (map_result_map _
             (fun e => mkElement
                         (data e
                          ++ object_bytes (mut (mkptr (data e) (DataVar.offset src)))))).
  { reflexivity. }
  revert Hfit. apply Forall_impl. intros e He.
  pose proof (memcpy_append [] (data e) (get_element_size ds + sizeof T) 0
                (get_element_size ds)) as Hcopy.
  cbn [app buffer_size List.length Z.of_nat Z.to_nat skipn] in Hcopy.
  unfold get_raw_data. rewrite Hcopy by lia. cbn [bind].
  unfold get_field, get_var_by_id in *. cbn [data_variables].
  rewrite find_app_one, Hsrc. cbn [bind].
  replace (firstn (Z.to_nat (get_element_size ds)) (data e)) with (data e).
  2:{ rewrite <- He. unfold buffer_size. rewrite Nat2Z.id, firstn_all. reflexivity. }
  replace (get_element_size ds + sizeof T - get_element_size ds) with (sizeof T) by lia.
  rewrite <- He at 1. cbn [new_var DataVar.size]. unfold DataVar.get_offset.
  set (x := mut (mkptr (data e) (DataVar.offset src))).
  pose proof (object_bytes_size x) as Hx.
  rewrite memcpy_append; try lia.
  cbn [bind Z.to_nat skipn]. unfold reformat. do 3 f_equal.
  rewrite Z.sub_diag. cbn [new_char Z.to_nat repeat]. rewrite app_nil_r.
  rewrite <- Hx. unfold buffer_size.
  rewrite Nat2Z.id, firstn_all. reflexivity.
Qed.

Lemma forge_variable_appends_witness :
  forge_variable Samples.two_rows "c" "b" Samples.first_char
  = Ok (mkDataSet
          (map (fun e =>
                  mkElement (data e
                             ++ object_bytes
                                  (Samples.first_char
                                     (mkptr (data e) (DataVar.offset Samples.col_b)))))
               (data_elements Samples.two_rows))
          (data_variables Samples.two_rows
           ++ [DataVar.make "c" (DataVar.variable_type Samples.col_b)
                 (DataVar.data_type Samples.col_b) (sizeof ascii)
                 (get_element_size Samples.two_rows)])).
Proof.
  apply (forge_variable_appends ascii char_ValueType Samples.two_rows "c" "b"
           Samples.first_char Samples.col_b).
  - discriminate.
  - reflexivity.
  - repeat constructor.
  - vm_compute. reflexivity.
Defined.

(** After [forge_variable] every name that named a column names the same
    column, so a forged column whose name was in use cannot be reached by
    name; a name that was free names the forged column. *)
Theorem forge_variable_lookup (T : Type) (VT : ValueType T) (ds ds' : DataSet)
    (new_var_id mut_id : string) (mut : ptr -> T) :
  forge_variable ds new_var_id mut_id mut = Ok ds' ->
  exists src new_var,
    get_var_by_id ds mut_id = Some src
    /\ new_var = DataVar.make new_var_id (DataVar.variable_type src) (DataVar.data_type src)
                              (sizeof T) (get_element_size ds)
    /\ data_variables ds' = data_variables ds ++ [new_var]
    /\ (forall name v, get_var_by_id ds name = Some v -> get_var_by_id ds' name = Some v)
    /\ (get_var_by_id ds new_var_id = None -> get_var_by_id ds' new_var_id = Some new_var).
Proof.
  unfold forge_variable. destruct (String.eqb new_var_id mut_id); [discriminate |].
  destruct (get_var_by_id ds mut_id) as [src |]; [| discriminate].
  intros H. inv_bind H. injection H as <-.
  eexists src, _. split; [reflexivity |]. split; [reflexivity |].
  cbn [data_variables]. split; [reflexivity |].
  unfold get_var_by_id. cbn [data_variables]. split.
  - intros name v Hv. rewrite find_app_one, Hv. reflexivity.
  - intros Hnone. rewrite find_app_one, Hnone.
    unfold DataVar.get_identifier. cbn [DataVar.identifier].
    rewrite String.eqb_refl. reflexivity.
Qed.

Lemma forge_variable_lookup_witness :
  exists src new_var,
    get_var_by_id Samples.one_row "a" = Some src
    /\ new_var = DataVar.make "b" (DataVar.variable_type src) (DataVar.data_type src)
                              (sizeof ascii) (get_element_size Samples.one_row)
    /\ data_variables
         (mkDataSet [mkElement (chars "xyx")]
            [Samples.col_a; Samples.col_b; DataVar.make "b" EXPLANATORY CATEGORICAL 1 2])
       = data_variables Samples.one_row ++ [new_var]
    /\ (forall name v,
          get_var_by_id Samples.one_row name = Some v ->
          get_var_by_id
            (mkDataSet [mkElement (chars "xyx")]
               [Samples.col_a; Samples.col_b; DataVar.make "b" EXPLANATORY CATEGORICAL 1 2])
            name = Some v)
    /\ (get_var_by_id Samples.one_row "b" = None ->
        get_var_by_id
          (mkDataSet [mkElement (chars "xyx")]
             [Samples.col_a; Samples.col_b; DataVar.make "b" EXPLANATORY CATEGORICAL 1 2])
          "b" = Some new_var).
Proof.
  apply (forge_variable_lookup ascii char_ValueType Samples.one_row _ "b" "a"
           Samples.first_char).
  reflexivity.
Defined.

(** ** remove_var: the variables and the rows it leaves *)

Lemma layout_app (a b : list DataVar.t) : forall o total,
  layout o (a ++ b) total <-> exists mid, layout o a mid /\ layout mid b total.
Proof.
  induction a as [| v a IH]; intros o total; cbn [app layout].
  - split.
    + intros H. exists o. split; [reflexivity | exact H].
    + intros [mid [-> H]]. exact H.
  - rewrite IH. split.
    + intros [Hoff [Hsz [mid [Ha Hb]]]]. exists mid. auto.
    + intros [mid [[Hoff [Hsz Ha]] Hb]]. repeat split; auto. exists mid. auto.
Qed.

Lemma layout_bounds (l : list DataVar.t) : forall o total,
  layout o l total ->
  o <= total
  /\ forall d, In d l ->
       o <= DataVar.offset d /\ 0 <= DataVar.size d
       /\ DataVar.offset d + DataVar.size d <= total.
Proof.
  induction l as [| v l IH]; intros o total; cbn [layout].
  - intros ->. split; [lia | contradiction].
  - intros [Hoff [Hsz Hl]]. destruct (IH _ _ Hl) as [Hle Hall]. split; [lia |].
    intros d [<- | Hin]; [lia |]. specialize (Hall d Hin). lia.
Qed.

Lemma layout_shift (delta : Z) (l : list DataVar.t) : forall o total,
  layout o l total -> layout (o - delta) (map (shift_offset delta) l) (total - delta).
Proof.
  induction l as [| v l IH]; intros o total; cbn [layout map].
  - intros ->. reflexivity.
  - intros [Hoff [Hsz Hl]]. cbn [shift_offset DataVar.set_offset DataVar.offset DataVar.size].
    repeat split; [lia | exact Hsz |].
    replace (o - delta + DataVar.size v) with (o + DataVar.size v - delta) by lia.
    apply IH. exact Hl.
Qed.

Lemma layout_elem_size (l : list DataVar.t) : forall o total,
  layout o l total -> 0 <= o -> total < 2 ^ 64 ->
  fold_left (fun sum var => size_t_wrap (sum + DataVar.get_size var)) l o = total.
Proof.
  induction l as [| v l IH]; intros o total; cbn [layout fold_left].
  - intros -> _ _. reflexivity.
  - intros [Hoff [Hsz Hl]] Ho Htotal. unfold DataVar.get_size.
    destruct (layout_bounds _ _ _ Hl) as [Hle _].
    replace (size_t_wrap (o + DataVar.size v)) with (o + DataVar.size v)
      by (unfold size_t_wrap; rewrite Z.mod_small; lia).
    apply IH; [exact Hl | lia | exact Htotal].
Qed.

Lemma flat_map_same {A : Type} (f : A -> list A) (l : list A) :
  (forall x, In x l -> f x = [x]) -> flat_map f l = l.
Proof.
  induction l as [| a l IH]; intros H; cbn [flat_map]; [reflexivity |].
  rewrite (H a (or_introl eq_refl)), IH; [reflexivity |].
  intros x Hx. apply H. right. exact Hx.
Qed.

Lemma flat_map_map {A : Type} (f : A -> list A) (g : A -> A) (l : list A) :
  (forall x, In x l -> f x = [g x]) -> flat_map f l = map g l.
Proof.
  induction l as [| a l IH]; intros H; cbn [flat_map map]; [reflexivity |].
  rewrite (H a (or_introl eq_refl)), IH; [reflexivity |].
  intros x Hx. apply H. right. exact Hx.
Qed.

Section RemoveVar.

Variables (before after : list DataVar.t) (var : DataVar.t) (total : Z).

Hypothesis names_differ :
  NoDup (map DataVar.get_identifier (before ++ var :: after)).
Hypothesis vars_layout : layout 0 (before ++ var :: after) total.
Hypothesis total_fits : total < 2 ^ 64.

Lemma removed_differs (d : DataVar.t) : In d (before ++ after) -> DataVar.neqb d var = true.
Proof.
  intros Hin. unfold DataVar.neqb. apply negb_true_iff.
  destruct (DataVar.eqb d var) eqn:Heq; [| reflexivity]. exfalso.
  apply DataVar_eqb_eq in Heq. subst d.
  rewrite map_app in names_differ. cbn [map] in names_differ.
  apply NoDup_remove_2 in names_differ. apply names_differ.
  rewrite <- map_app. apply in_map. exact Hin.
Qed.

Lemma removed_layout :
  exists mid,
    layout 0 before mid /\ DataVar.offset var = mid /\ 0 <= DataVar.size var
    /\ layout (mid + DataVar.size var) after total
    /\ 0 <= mid /\ mid + DataVar.size var <= total.
Proof.
  destruct (proj1 (layout_app _ _ _ _) vars_layout) as [mid [Hb [Hoff [Hsz Ha]]]].
  exists mid. destruct (layout_bounds _ _ _ Hb) as [Hmid _].
  destruct (layout_bounds _ _ _ Ha) as [Hend _]. repeat split; auto.
Qed.

(** The variables after the removal: those before the removed one as they
    were, those after it moved down by its size. *)
Lemma recompute_offsets_split :
  recompute_offsets (before ++ var :: after) var
  = before ++ map (shift_offset (DataVar.size var)) after.
Proof.
  destruct removed_layout as [mid [Hb [Hoff [Hsz [Ha [Hmid Hend]]]]]].
  unfold recompute_offsets. rewrite flat_map_app. cbn [flat_map].
  unfold DataVar.neqb at 2. rewrite DataVar_eqb_refl. cbn [negb app]. f_equal.
  - apply flat_map_same. intros d Hd.
    rewrite removed_differs by (apply in_or_app; left; exact Hd).
    destruct (layout_bounds _ _ _ Hb) as [_ Hall]. specialize (Hall d Hd).
    destruct (Z.gtb_spec (DataVar.offset d) (DataVar.offset var)); [lia | reflexivity].
  - apply flat_map_map. intros d Hd.
    rewrite removed_differs by (apply in_or_app; right; exact Hd).
    destruct (layout_bounds _ _ _ Ha) as [_ Hall]. specialize (Hall d Hd).
    unfold shift_offset.
    destruct (Z.gtb_spec (DataVar.offset d) (DataVar.offset var)).
    + do 3 f_equal. unfold size_t_wrap. apply Z.mod_small. lia.
    + replace (DataVar.size var) with 0 by lia. rewrite Z.sub_0_r.
      destruct d. reflexivity.
Qed.

Lemma recompute_offsets_packs :
  layout 0 (recompute_offsets (before ++ var :: after) var) (total - DataVar.size var).
Proof.
  destruct removed_layout as [mid [Hb [Hoff [Hsz [Ha [Hmid Hend]]]]]].
  rewrite recompute_offsets_split. apply layout_app. exists mid. split; [exact Hb |].
  replace mid with (mid + DataVar.size var - DataVar.size var) at 1 by lia.
  apply layout_shift. exact Ha.
Qed.

Lemma recompute_offsets_size :
  DataVar.compute_elem_size (recompute_offsets (before ++ var :: after) var)
  = total - DataVar.size var.
Proof.
  destruct removed_layout as [mid [Hb [Hoff [Hsz [Ha [Hmid Hend]]]]]].
  apply layout_elem_size; [exact recompute_offsets_packs | lia | lia].
Qed.

(** [remove_var] keeps the packing of the variables: with names that are
    all different and variables laid out without gap up to [total], the
    variables left are laid out without gap up to [total] less the size
    of the removed one, which is the new element size. *)
Theorem recompute_offsets_layout :
  layout 0 (recompute_offsets (before ++ var :: after) var) (total - DataVar.size var)
  /\ DataVar.compute_elem_size (recompute_offsets (before ++ var :: after) var)
     = total - DataVar.size var.
Proof.
  destruct removed_layout as [mid [Hb [Hoff [Hsz [Ha [Hmid Hend]]]]]].
  assert (Hl : layout 0 (recompute_offsets (before ++ var :: after) var)
                      (total - DataVar.size var)).
  { rewrite recompute_offsets_split. apply layout_app. exists mid. split; [exact Hb |].
    replace mid with (mid + DataVar.size var - DataVar.size var) at 1 by lia.
    apply layout_shift. exact Ha. }
  split; [exact Hl |].
  apply layout_elem_size; [exact Hl | lia | lia].
Qed.

End RemoveVar.

Lemma recompute_offsets_layout_witness :
  NoDup (map DataVar.get_identifier ([Samples.col_a] ++ Samples.col_b :: []))
  /\ layout 0 ([Samples.col_a] ++ Samples.col_b :: []) 2
  /\ layout 0 (recompute_offsets ([Samples.col_a] ++ Samples.col_b :: []) Samples.col_b)
            (2 - DataVar.size Samples.col_b)
  /\ DataVar.compute_elem_size
       (recompute_offsets ([Samples.col_a] ++ Samples.col_b :: []) Samples.col_b)
     = 2 - DataVar.size Samples.col_b.
Proof.
  assert (Hnd : NoDup (map DataVar.get_identifier ([Samples.col_a] ++ Samples.col_b :: []))).
  { repeat constructor; simpl; intros Hin; repeat destruct Hin as [Hin | Hin];
      try discriminate; auto. }
  assert (Hl : layout 0 ([Samples.col_a] ++ Samples.col_b :: []) 2).
  { simpl. repeat split; try reflexivity; lia. }
  split; [exact Hnd |]. split; [exact Hl |].
  apply (recompute_offsets_layout [Samples.col_a] [] Samples.col_b 2 Hnd Hl).
  reflexivity.
Defined.

Lemma for_each_app {A S : Type} (body : S -> A -> result S) (a b : list A) : forall acc,
  for_each body (a ++ b) acc = (acc' <- for_each body a acc ;; for_each body b acc').
Proof.
  induction a as [| x a IH]; intros acc; cbn [app for_each bind]; [reflexivity |].
  destruct (body acc x); cbn [bind]; [apply IH | reflexivity | reflexivity].
Qed.

Lemma find_member (l : list DataVar.t) (v : DataVar.t) :
  In v l -> find (fun ent => DataVar.eqb ent v) l = Some v.
Proof.
  induction l as [| a l IH]; intros Hin; [contradiction |]. cbn [find].
  destruct (DataVar.eqb a v) eqn:Heq.
  - apply DataVar_eqb_eq in Heq. congruence.
  - destruct Hin as [-> | Hin]; [rewrite DataVar_eqb_refl in Heq; discriminate | auto].
Qed.

Lemma find_no_member {A : Type} (p : A -> bool) (l : list A) :
  (forall x, In x l -> p x = false) -> find p l = None.
Proof.
  induction l as [| a l IH]; intros H; [reflexivity |]. cbn [find].
  rewrite (H a (or_introl eq_refl)). apply IH. intros x Hx. apply H. right. exact Hx.
Qed.

Lemma memcpy_append_at (pre src : buffer) (m o soff s : Z) :
  buffer_size pre = o -> 0 <= s <= m -> 0 <= soff -> soff + s <= buffer_size src ->
  memcpy (pre ++ new_char m) o src soff s
  = Ok (pre ++ firstn (Z.to_nat s) (skipn (Z.to_nat soff) src) ++ new_char (m - s)).
Proof. intros <-. apply memcpy_append. Qed.

Section RemoveVarRows.

Variables (before after : list DataVar.t) (var : DataVar.t) (total : Z).

Hypothesis names_differ :
  NoDup (map DataVar.get_identifier (before ++ var :: after)).
Hypothesis vars_layout : layout 0 (before ++ var :: after) total.
Hypothesis total_fits : total < 2 ^ 64.
Hypothesis var_size : 0 < DataVar.size var.

Variable e : DataElement.

Hypothesis row_fits : buffer_size (data e) = total.

Local Abbreviation old_variables := (before ++ var :: after).
Local Abbreviation new_size := (total - DataVar.size var).

(** The body of the loop of [repack] over the variables. *)
Local Abbreviation repack_step :=
  (fun (new_data : buffer) (v : DataVar.t) =>
     match find (fun ent => DataVar.eqb ent v) old_variables with
     | Some found =>
         memcpy new_data (DataVar.offset v) (get_raw_data e) (DataVar.offset found)
                (DataVar.size v)
     | None => Ok new_data
     end).

(** The variables that did not move are found, and their bytes copied. *)
Lemma repack_unmoved (p : list DataVar.t) : forall o mid,
  layout o p mid -> 0 <= o -> mid <= new_size -> mid <= total ->
  (forall v, In v p -> In v old_variables) ->
  for_each repack_step p (firstn (Z.to_nat o) (data e) ++ new_char (new_size - o))
  = Ok (firstn (Z.to_nat mid) (data e) ++ new_char (new_size - mid)).
Proof.
  induction p as [| v p IH]; intros o mid Hl Ho Hmid Htotal Hin; cbn [layout for_each] in *.
  - subst mid. reflexivity.
  - destruct Hl as [Hoff [Hsz Hl]]. destruct (layout_bounds _ _ _ Hl) as [Hle _].
    rewrite (find_member _ v (Hin v (or_introl eq_refl))).
    unfold get_raw_data. rewrite Hoff.
    assert (Hpre : buffer_size (firstn (Z.to_nat o) (data e)) = o).
    { unfold buffer_size in *. rewrite length_firstn. lia. }
    rewrite (memcpy_append_at _ _ _ _ _ _ Hpre) by lia. cbn [bind].
    rewrite app_assoc, <- firstn_add.
    replace (Z.to_nat o + Z.to_nat (DataVar.size v))%nat
      with (Z.to_nat (o + DataVar.size v)) by lia.
    replace (new_size - o - DataVar.size v) with (new_size - (o + DataVar.size v)) by lia.
    apply IH; auto; try lia.
    intros x Hx. apply Hin. right. exact Hx.
Qed.

(** A variable that moved is looked up at its new offset and not found. *)
Lemma moved_not_found (d : DataVar.t) :
  In d after ->
  find (fun ent => DataVar.eqb ent (shift_offset (DataVar.size var) d)) old_variables = None.
Proof.
  intros Hd. apply find_no_member. intros ent Hent.
  destruct (DataVar.eqb ent (shift_offset (DataVar.size var) d)) eqn:Heq; [| reflexivity].
  exfalso. apply DataVar_eqb_eq in Heq.
  assert (Hd' : In d old_variables) by (apply in_or_app; right; right; exact Hd).
  assert (Hsame : ent = d).
  { apply (NoDup_map_injective DataVar.get_identifier old_variables); auto.
    rewrite Heq. reflexivity. }
  rewrite Hsame in Heq. apply (f_equal DataVar.offset) in Heq.
  cbn [shift_offset DataVar.set_offset DataVar.offset] in Heq. lia.
Qed.

Lemma repack_moved (q : list DataVar.t) (buf : buffer) :
  (forall d, In d q -> In d after) ->
  for_each repack_step (map (shift_offset (DataVar.size var)) q) buf = Ok buf.
Proof.
  induction q as [| d q IH]; intros Hq; cbn [map for_each]; [reflexivity |].
  rewrite (moved_not_found d (Hq d (or_introl eq_refl))).
  cbn [bind]. apply IH. intros x Hx. apply Hq. right. exact Hx.
Qed.

Lemma repack_row :
  repack old_variables (recompute_offsets old_variables var)
         (DataVar.compute_elem_size (recompute_offsets old_variables var)) e
  = Ok (mkElement (firstn (Z.to_nat (DataVar.offset var)) (data e)
                   ++ new_char (total - DataVar.size var - DataVar.offset var))).
Proof.
  destruct (removed_layout before after var total vars_layout)
    as [mid [Hb [Hoff [Hsz [Ha [Hmid Hend]]]]]].
  rewrite (recompute_offsets_size before after var total names_differ vars_layout total_fits), (recompute_offsets_split before after var total); auto.
  unfold repack. rewrite for_each_app.
  pose proof (repack_unmoved before 0 mid Hb ltac:(lia)) as Hfirst.
  cbn [Z.to_nat firstn app] in Hfirst.
  rewrite Z.sub_0_r in Hfirst. rewrite Hfirst; try lia.
  2:{ intros v Hv. apply in_or_app. left. exact Hv. }
  cbn [bind]. rewrite repack_moved by auto. cbn [bind]. rewrite Hoff. reflexivity.
Qed.

End RemoveVarRows.

(** [remove_var] of a variable of positive size from a store with names
    that are all different, variables laid out without gap and rows of the
    element size: the variables before the removed one stay, those after
    it move down by its size; in every row the bytes of the columns before
    the removed one are kept, and the rest of the new buffer, where the
    columns that moved now lie, is left as allocated. *)
Theorem remove_var_keeps_prefix (ds : DataSet) (before after : list DataVar.t)
    (var : DataVar.t) :
  data_variables ds = before ++ var :: after ->
  NoDup (get_var_ids ds) ->
  layout 0 (data_variables ds) (get_element_size ds) ->
  rows_fit ds ->
  0 < DataVar.size var ->
  remove_var ds var
  = Ok (mkDataSet
          (map (fun e =>
                  mkElement (firstn (Z.to_nat (DataVar.offset var)) (data e)
                             ++ new_char (get_element_size ds - DataVar.size var
                                          - DataVar.offset var)))
               (data_elements ds))
          (before ++ map (shift_offset (DataVar.size var)) after)).
Proof.
  intros Hvars Hnd Hl Hfit Hsz. unfold get_var_ids in Hnd.
  assert (Htotal : get_element_size ds < 2 ^ 64).
  { unfold get_element_size. apply compute_elem_size_bound. }
  unfold remove_var. rewrite Hvars in *.
  replace (existsb _ _) with true.
  2:{ symmetry. apply existsb_eqb_In. apply in_or_app. right. left. reflexivity. }
  cbn [negb].
  rewrite (map_result_map _
             (fun e => mkElement
                         (firstn (Z.to_nat (DataVar.offset var)) (data e)
                          ++ new_char (get_element_size ds - DataVar.size var
                                       - DataVar.offset var)))).
  - cbn [bind]. rewrite (recompute_offsets_split before after var (get_element_size ds));
      auto.
  - revert Hfit. apply Forall_impl. intros e He.
    apply (repack_row before after var (get_element_size ds)); auto.
Qed.

Lemma remove_var_keeps_prefix_witness :
  data_variables Samples.two_rows = [Samples.col_a] ++ Samples.col_b :: []
  /\ remove_var Samples.two_rows Samples.col_b
     = Ok (mkDataSet
             (map (fun e =>
                     mkElement (firstn (Z.to_nat (DataVar.offset Samples.col_b)) (data e)
                                ++ new_char (get_element_size Samples.two_rows
                                             - DataVar.size Samples.col_b
                                             - DataVar.offset Samples.col_b)))
                  (data_elements Samples.two_rows))
             ([Samples.col_a] ++ map (shift_offset (DataVar.size Samples.col_b)) [])).
Proof.
  split; [reflexivity |].
  apply (remove_var_keeps_prefix Samples.two_rows [Samples.col_a] [] Samples.col_b).
  - reflexivity.
  - repeat constructor; simpl; intros Hin; repeat destruct Hin as [Hin | Hin];
      try discriminate; auto.
  - simpl. repeat split; try reflexivity; lia.
  - repeat constructor.
  - reflexivity.
Defined.

(** ** get_possible_values: what is counted *)

Lemma memcmp_chars_eq (xs : list ascii) : forall ys,
  List.length xs = List.length ys -> (memcmp_chars xs ys = 0 <-> xs = ys).
Proof.
  induction xs as [| x xs IH]; intros [| y ys] Hlen; try discriminate; cbn [memcmp_chars].
  - tauto.
  - injection Hlen as Hlen. destruct (Ascii.eqb_spec x y) as [-> | Hxy].
    + rewrite (IH ys Hlen). split; [intros ->; reflexivity | intros H; injection H; auto].
    + destruct (_ <? _)%nat; split; try discriminate; intros H; injection H; congruence.
Qed.

Lemma map_Some_injective (xs ys : list ascii) : map Some xs = map Some ys -> xs = ys.
Proof.
  revert ys. induction xs as [| x xs IH]; intros [| y ys] H; try discriminate; auto.
  injection H as -> H. f_equal. auto.
Qed.

Lemma deref_whole (b : buffer) (n : Z) : buffer_size b = n -> deref (mkptr b 0) n = Ok b.
Proof.
  intros <-. unfold deref, buffer_size. cbn [pos base Z.to_nat skipn].
  replace (_ && _) with true
    by (symmetry; repeat (apply andb_true_intro; split); apply Z.leb_le; lia).
  rewrite Nat2Z.id, firstn_all. reflexivity.
Qed.

(** [memcmp] over the whole of two determinate buffers of one size is 0
    exactly when they are equal. *)
Lemma memcmp_whole (a b : buffer) (n : Z) :
  (exists xs, a = map Some xs) -> (exists ys, b = map Some ys) ->
  buffer_size a = n -> buffer_size b = n ->
  exists m, memcmp a b n = Ok m /\ (m = 0 <-> a = b).
Proof.
  intros [xs ->] [ys ->] Ha Hb. unfold memcmp.
  rewrite (deref_whole _ _ Ha), (deref_whole _ _ Hb). cbn [bind].
  rewrite !read_chars_determinate. cbn [bind].
  exists (memcmp_chars xs ys). split; [reflexivity |].
  unfold buffer_size in *. rewrite length_map in Ha, Hb.
  rewrite memcmp_chars_eq by lia.
  split; [intros ->; reflexivity | apply map_Some_injective].
Qed.

Section PossibleValues.

Variable n : Z.

Local Abbreviation whole b := ((exists xs : list ascii, b = map Some xs) /\ buffer_size b = n).

(** The inner loop: is the row among those kept so far? *)
Lemma seen_before (d : buffer) (col : list buffer) : forall cmp0 : bool,
  whole d -> Forall (fun c => whole c) col ->
  exists cmp,
    for_each (fun (cmp : bool) c => m <- memcmp c d n ;; Ok (if m =? 0 then true else cmp))
             col cmp0 = Ok cmp
    /\ (cmp = true <-> cmp0 = true \/ In d col).
Proof.
  induction col as [| c col IH]; intros cmp0 Hd Hcol; cbn [for_each].
  - exists cmp0. split; [reflexivity |]. simpl. tauto.
  - apply Forall_cons_iff in Hcol. destruct Hcol as [[Hc Hcn] Hcol'].
    destruct (memcmp_whole c d n Hc (proj1 Hd) Hcn (proj2 Hd)) as [m [Hm Hzero]].
    rewrite Hm. cbn [bind].
    destruct (IH (if m =? 0 then true else cmp0) Hd Hcol') as [cmp [Hloop Hcmp]].
    exists cmp. split; [exact Hloop |]. rewrite Hcmp. cbn [In].
    destruct (Z.eqb_spec m 0) as [H0 | H0].
    + apply Hzero in H0. tauto.
    + split; [tauto |]. intros [H | [H | H]]; auto.
      exfalso. apply H0. apply Hzero. exact H.
Qed.

(** The outer loop keeps one buffer of each kind, and counts them. *)
Lemma count_rows (es : list DataElement) : forall col : list buffer,
  Forall (fun e => whole (data e)) es -> Forall (fun c => whole c) col -> NoDup col ->
  exists col',
    for_each
      (fun (st : Z * list buffer) d =>
         let (cnt, col) := st in
         cmp <- for_each
                  (fun (cmp : bool) c =>
                     m <- memcmp c (data d) n ;; Ok (if m =? 0 then true else cmp))
                  col false ;;
         Ok (if negb cmp then (cnt + 1, col ++ [data d]) else (cnt, col)))
      es (Z.of_nat (List.length col), col)
    = Ok (Z.of_nat (List.length col'), col')
    /\ NoDup col'
    /\ (forall b, In b col' <-> In b col \/ In b (map data es)).
Proof.
  induction es as [| e es IH]; intros col Hes Hcol Hnd; cbn [for_each].
  - exists col. split; [reflexivity |]. split; [exact Hnd |]. simpl. tauto.
  - apply Forall_cons_iff in Hes. destruct Hes as [He Hes'].
    destruct (seen_before (data e) col false He Hcol) as [cmp [Hloop Hcmp]].
    rewrite Hloop. cbn [bind]. destruct cmp; cbn [negb].
    + destruct (IH col Hes' Hcol Hnd) as [col' [Hrun [Hnd' Hin]]].
      exists col'. split; [exact Hrun |]. split; [exact Hnd' |].
      intros b. rewrite Hin. cbn [map In].
      assert (Hseen : In (data e) col).
      { destruct Hcmp as [H _]. destruct (H eq_refl); [discriminate | assumption]. }
      split; [tauto |]. intros [H | [<- | H]]; auto.
    + assert (Hnew : ~ In (data e) col).
      { intros Hin. destruct Hcmp as [_ H]. specialize (H (or_intror Hin)). discriminate. }
      destruct (IH (col ++ [data e])) as [col' [Hrun [Hnd' Hin]]]; auto.
      * apply Forall_app. split; [exact Hcol | constructor; [exact He | constructor]].
      * apply NoDup_app; [exact Hnd | constructor; [simpl; tauto | constructor] |].
        intros x Hx [<- | []]. contradiction.
      * exists col'. split.
        -- rewrite <- Hrun. do 2 f_equal. rewrite length_app. simpl. f_equal. lia.
        -- split; [exact Hnd' |]. intros b. rewrite Hin, in_app_iff. cbn [map In]. tauto.
Qed.

End PossibleValues.

(** For a categorical variable of a store whose rows are determinate and
    have the element size, [get_possible_values] is the number of different
    row buffers of the store, whatever the variable. *)
Theorem get_possible_values_distinct_rows (ds : DataSet) (id : string) (v : DataVar.t) :
  get_var_by_id ds id = Some v ->
  DataVar.data_type v = CATEGORICAL ->
  Forall (fun e => (exists xs, data e = map Some xs)
                   /\ buffer_size (data e) = get_element_size ds)
         (data_elements ds) ->
  exists col : list buffer,
    get_possible_values ds id = Ok (Z.of_nat (List.length col))
    /\ NoDup col
    /\ (forall b, In b col <-> In b (map data (data_elements ds))).
Proof.
  intros Hv Hcat Hrows. unfold get_possible_values. rewrite Hv, Hcat.
  cbn [DataVar.DataType_eqb].
  destruct (count_rows (get_element_size ds) (data_elements ds) [] Hrows)
    as [col [Hrun [Hnd Hin]]]; [constructor | constructor |].
  cbn [List.length Z.of_nat] in Hrun. rewrite Hrun. cbn [bind fst].
  exists col. split; [reflexivity |]. split; [exact Hnd |].
  intros b. rewrite Hin. simpl. tauto.
Qed.

Lemma get_possible_values_distinct_rows_witness :
  get_var_by_id Samples.two_rows "a" = Some Samples.col_a
  /\ exists col : list buffer,
       get_possible_values Samples.two_rows "a" = Ok (Z.of_nat (List.length col))
       /\ NoDup col
       /\ (forall b, In b col <-> In b (map data (data_elements Samples.two_rows))).
Proof.
  split; [reflexivity |].
  apply (get_possible_values_distinct_rows Samples.two_rows "a" Samples.col_a);
    try reflexivity.
  apply Forall_cons; [| apply Forall_cons; [| apply Forall_nil]].
  - split; [exists (list_ascii_of_string "xy") | ]; reflexivity.
  - split; [exists (list_ascii_of_string "xz") | ]; reflexivity.
Defined.

(** ** The inferring import, column by column *)

Section InferColumns.

Context {Q : QuantType}.













End InferColumns.


(** The import of the file of the witness: a number column and a text
    column, whose size is that of "ab" and its terminator. *)
Example read_from_csv_two_columns :
  @read_from_csv Samples.decimal4 20
    (Samples.one_file "data.csv" (csv_text [["n"; "w"]; ["3.25"; "ab"]; ["0042"; "c"]])) "data.csv"
  = Some (Ok (mkDataSet
                [mkElement (chars "3.25" ++ chars (pad "ab" 3));
                 mkElement (chars "0042" ++ chars (pad "c" 3))]
                [DataVar.make "n" EXPLANATORY QUANTITATIVE 4 0;
                 DataVar.make "w" EXPLANATORY CATEGORICAL 3 4])).
Proof. vm_compute. reflexivity. Qed.

(** ** BasicStats *)

Section Stats.

Context {Q : QuantType} {R : Type} {RT : ResultType R}.

(** The loops of [mean] and [variance] over the elements: a fold of the
    values of the fields, in the order of the rows. *)
Lemma field_loop (g : R -> R -> R) (var : DataVar.t) (todo : list DataElement)
    (vals : list (list ascii)) :
  Forall2 (fun e bytes => deref (get_field_var e var) sizeof_QUANT = Ok (map Some bytes))
          todo vals ->
  forall (done : list DataElement) (vars : list DataVar.t) (acc : R),
  for_each (fun acc i => val <- field_value (mkDataSet (done ++ todo) vars) var i ;;
                         Ok (g acc val))
           (map Z.of_nat (seq (List.length done) (List.length todo))) acc
  = Ok (fold_left g (map of_quant vals) acc).
Proof.
  induction 1 as [| e bytes todo vals He _ IH]; intros done vars acc; [reflexivity |].
  cbn [List.length seq map for_each fold_left].
  assert (Hval : field_value (mkDataSet (done ++ e :: todo) vars) var
                   (Z.of_nat (List.length done)) = Ok (of_quant bytes)).
  { unfold field_value, get_element. cbn [data_elements].
    destruct (Z.leb_spec 0 (Z.of_nat (List.length done))) as [_ | Hneg]; [| lia].
    rewrite Nat2Z.id, nth_error_app2, Nat.sub_diag by lia. cbn [nth_error bind].
    rewrite He. cbn [bind]. rewrite read_chars_determinate. reflexivity. }
  rewrite Hval. cbn [bind].
  specialize (IH (done ++ [e]) vars (g acc (of_quant bytes))).
  rewrite <- app_assoc, length_app in IH. cbn [app List.length] in IH.
  rewrite Nat.add_1_r in IH. exact IH.
Qed.

Lemma field_loop_all (g : R -> R -> R) (ds : DataSet) (var : DataVar.t)
    (vals : list (list ascii)) (acc : R) :
  Forall2 (fun e bytes => deref (get_field_var e var) sizeof_QUANT = Ok (map Some bytes))
          (data_elements ds) vals ->
  for_each (fun acc i => val <- field_value ds var i ;; Ok (g acc val))
           (indices (Z.of_nat (List.length vals))) acc
  = Ok (fold_left g (map of_quant vals) acc).
Proof.
  intros Hvals. destruct ds as [es vars]. cbn [data_elements] in Hvals.
  unfold indices. rewrite Nat2Z.id, <- (Forall2_length_eq _ _ _ Hvals).
  exact (field_loop g var es vals Hvals [] vars acc).
Qed.

(** The mean of a quantitative variable over a store with rows, each with
    the bytes of a value in the field of the variable: the sum of the
    values, from the literal [0.0] on, in the order of the rows, divided
    by the number of rows. *)
Theorem mean_sum_by_count (ds : DataSet) (id : string) (var : DataVar.t)
    (vals : list (list ascii)) :
  get_var_by_id ds id = Some var ->
  DataVar.data_type var = QUANTITATIVE ->
  Forall2 (fun e bytes => deref (get_field_var e var) sizeof_QUANT = Ok (map Some bytes))
          (data_elements ds) vals ->
  0 < Z.of_nat (List.length vals) <= INT_MAX ->
  mean ds id
  = Returns (rdiv (fold_left radd (map of_quant vals) zero_literal)
                  (of_int (Z.of_nat (List.length vals)))).
Proof.
  intros Hvar Hquant Hvals Hcount. unfold mean, get_num_elements, sum_values.
  rewrite Hvar, Hquant. cbn [DataVar.DataType_eqb].
  rewrite (Forall2_length_eq _ _ _ Hvals), to_int_small by lia.
  destruct (Z.gtb_spec (Z.of_nat (List.length vals)) 0) as [_ | Hle]; [| lia].
  rewrite (field_loop_all radd ds var vals zero_literal Hvals). reflexivity.
Qed.

(** The variance over a store with at least two such rows: the squared
    distances of the values to their mean, summed and divided by the
    number of rows (not by one less). *)
Theorem variance_divides_by_count (ds : DataSet) (id : string) (var : DataVar.t)
    (vals : list (list ascii)) :
  get_var_by_id ds id = Some var ->
  DataVar.data_type var = QUANTITATIVE ->
  Forall2 (fun e bytes => deref (get_field_var e var) sizeof_QUANT = Ok (map Some bytes))
          (data_elements ds) vals ->
  1 < Z.of_nat (List.length vals) <= INT_MAX ->
  exists m : R,
    mean ds id = Returns m
    /\ variance ds id
       = Returns (rdiv (fold_left (fun varia val => radd varia (rmul (rsub val m) (rsub val m)))
                                  (map of_quant vals) zero_literal)
                       (rsub (of_int (Z.of_nat (List.length vals))) (of_int 0))).
Proof.
  intros Hvar Hquant Hvals Hcount. eexists. split.
  - unfold mean, get_num_elements, sum_values.
    rewrite Hvar, Hquant. cbn [DataVar.DataType_eqb].
    rewrite (Forall2_length_eq _ _ _ Hvals), to_int_small by lia.
    destruct (Z.gtb_spec (Z.of_nat (List.length vals)) 0) as [_ | Hle]; [| lia].
    rewrite (field_loop_all radd ds var vals zero_literal Hvals). reflexivity.
  - unfold variance, get_num_elements, sum_values.
    rewrite Hvar, Hquant. cbn [DataVar.DataType_eqb].
    rewrite (Forall2_length_eq _ _ _ Hvals), to_int_small by lia.
    destruct (Z.gtb_spec (Z.of_nat (List.length vals)) 1) as [_ | Hle]; [| lia].
    rewrite (field_loop_all radd ds var vals zero_literal Hvals). cbn [bind].
    rewrite (field_loop_all _ ds var vals zero_literal Hvals). reflexivity.
Qed.

(** With too few rows nothing is read and nothing divided: the mean of a
    store without rows and the variance of a store with at most one row
    are the cast of 0, and the standard deviation is its root. *)
Theorem stats_few_rows (ds : DataSet) (id : string) (var : DataVar.t) :
  get_var_by_id ds id = Some var ->
  DataVar.data_type var = QUANTITATIVE ->
  (List.length (data_elements ds) <= 1)%nat ->
  variance ds id = Returns (of_int 0)
  /\ stdev ds id = Returns (rsqrt (of_int 0))
  /\ (data_elements ds = [] -> mean ds id = Returns (of_int 0)).
Proof.
  intros Hvar Hquant Hrows.
  assert (Hvariance : variance ds id = Returns (of_int 0)).
  { unfold variance, get_num_elements. rewrite Hvar, Hquant. cbn [DataVar.DataType_eqb].
    rewrite to_int_small by (unfold INT_MAX; lia).
    destruct (Z.gtb_spec (Z.of_nat (List.length (data_elements ds))) 1); [lia | reflexivity]. }
  split; [exact Hvariance |]. split.
  - unfold stdev. rewrite Hvariance. reflexivity.
  - intros Hnone. unfold mean, get_num_elements. rewrite Hvar, Hquant, Hnone. reflexivity.
Qed.

(** A categorical variable makes the three statistics throw, whatever the
    rows hold and however many there are. *)
Theorem stats_categorical (ds : DataSet) (id : string) (var : DataVar.t) :
  get_var_by_id ds id = Some var ->
  DataVar.data_type var = CATEGORICAL ->
  mean ds id = DataMismatchException "Cannot compute mean for categorical variable."
  /\ variance ds id
     = DataMismatchException
         "Cannot compute variance or standard deviation for categorical variable."
  /\ stdev ds id
     = DataMismatchException
         "Cannot compute variance or standard deviation for categorical variable.".
Proof.
  intros Hvar Hcat. unfold stdev, variance, mean. rewrite Hvar, Hcat. repeat split.
Qed.

End Stats.

Lemma mean_sum_by_count_witness :
  @mean Samples.decimal4 Z StatSamples.integer_result StatSamples.amounts "amount"
  = Returns 42.
Proof.
  apply (@mean_sum_by_count Samples.decimal4 Z StatSamples.integer_result
           StatSamples.amounts "amount" StatSamples.amount
           [list_ascii_of_string "0040"; list_ascii_of_string "0044"]).
  - reflexivity.
  - reflexivity.
  - apply Forall2_cons; [reflexivity |]. apply Forall2_cons; [reflexivity | apply Forall2_nil].
  - vm_compute. split; [reflexivity | discriminate].
Defined.

Lemma variance_divides_by_count_witness :
  exists m : Z,
    @mean Samples.decimal4 Z StatSamples.integer_result StatSamples.amounts "amount"
    = Returns m
    /\ @variance Samples.decimal4 Z StatSamples.integer_result StatSamples.amounts "amount"
       = Returns ((0 + (40 - m) * (40 - m) + (44 - m) * (44 - m)) / (2 - 0)).
Proof.
  apply (@variance_divides_by_count Samples.decimal4 Z StatSamples.integer_result
           StatSamples.amounts "amount" StatSamples.amount
           [list_ascii_of_string "0040"; list_ascii_of_string "0044"]).
  - reflexivity.
  - reflexivity.
  - apply Forall2_cons; [reflexivity |]. apply Forall2_cons; [reflexivity | apply Forall2_nil].
  - vm_compute. split; [reflexivity | discriminate].
Defined.

Lemma stats_few_rows_witness :
  @variance Samples.decimal4 Z StatSamples.integer_result
    (mkDataSet [mkElement (chars "0040")] [StatSamples.amount]) "amount" = Returns 0
  /\ @stdev Samples.decimal4 Z StatSamples.integer_result
       (mkDataSet [mkElement (chars "0040")] [StatSamples.amount]) "amount" = Returns 0
  /\ (data_elements (mkDataSet [mkElement (chars "0040")] [StatSamples.amount]) = [] ->
      @mean Samples.decimal4 Z StatSamples.integer_result
        (mkDataSet [mkElement (chars "0040")] [StatSamples.amount]) "amount" = Returns 0).
Proof.
  apply (@stats_few_rows Samples.decimal4 Z StatSamples.integer_result
           (mkDataSet [mkElement (chars "0040")] [StatSamples.amount]) "amount"
           StatSamples.amount).
  - reflexivity.
  - reflexivity.
  - simpl. lia.
Defined.

Lemma stats_categorical_witness :
  @mean Samples.decimal4 Z StatSamples.integer_result Samples.one_row "a"
  = DataMismatchException "Cannot compute mean for categorical variable."
  /\ @variance Samples.decimal4 Z StatSamples.integer_result Samples.one_row "a"
     = DataMismatchException
         "Cannot compute variance or standard deviation for categorical variable."
  /\ @stdev Samples.decimal4 Z StatSamples.integer_result Samples.one_row "a"
     = DataMismatchException
         "Cannot compute variance or standard deviation for categorical variable.".
Proof.
  apply (@stats_categorical Samples.decimal4 Z StatSamples.integer_result
           Samples.one_row "a" Samples.col_a); reflexivity.
Defined.

(** ** A last line without a newline *)

Section UnterminatedLine.

Context {Q : QuantType}.

Variables (vars : list DataVar.t) (text partial : string).

Hypothesis vars_count : Z.of_nat (List.length vars) <= INT_MAX.
Hypothesis vars_layout : layout 0 vars (DataVar.compute_elem_size vars).
Hypothesis partial_line : all_chars (fun c => negb (Ascii.eqb c "010")) partial = true.

(** The last [std::getline] of the import reaches the end of the file
    within the line: [eofbit] is set, whatever the line holds. *)
Lemma getline_unterminated (l : string) :
  eof (fst (getline (mkistream text partial false false) l "010")) = true.
Proof.
  unfold getline. cbn [eofbit failbit orb rest content].
  rewrite (extract_end _ _ partial_line). reflexivity.
Qed.

(** The [while] loop over the lines of the rows, from the [std::getline]
    before its condition, on a file that goes on after the last newline. *)
Lemma read_lines_unterminated (es : list DataElement) (rows : list (list string)) :
  Forall2 (row_texts vars) es rows ->
  forall (done : list DataElement) (l : string) (fuel : nat),
  Forall (fun e => buffer_size (data e) = DataVar.compute_elem_size vars) es ->
  (List.length es + List.length vars + 1 < fuel)%nat ->
  (let (f, l') := getline (mkistream text (csv_text rows ++ partial) false false) l "010" in
   read_lines fuel vars (DataVar.compute_elem_size vars) f l' (mkDataSet done vars))
  = Some (Ok (mkDataSet (done ++ es) vars)).
Proof.
  induction 1 as [| e toks es rows [Htexts Hrec] Hrows IH];
    intros done l fuel Hfit Hfuel;
    (destruct fuel as [| fuel]; [lia |]).
  - cbn [csv_text append].
    pose proof (getline_unterminated l) as Heof.
    destruct (getline (mkistream text partial false false) l "010") as [f l'].
    cbn [fst] in Heof. cbn [read_lines]. rewrite Heof, app_nil_r. reflexivity.
  - cbn [csv_text]. rewrite string_app_assoc. cbn [append].
    rewrite (getline_record _ _ toks _ (proj1 Hrec)).
    cbn [read_lines eof eofbit].
    inversion Hfit as [| ? ? He Hfit']; subst.
    assert (Hne : toks <> []).
    { destruct Hrec as [_ Hl]. destruct toks; [contradiction | discriminate]. }
    destruct (read_fields_sim e vars vars_count vars [] toks
                (istream_open (join_fields toks)) (join_fields toks) 0 fuel)
      as [l' Hfields]; auto; try lia.
    + apply fields_left_open. exact Hne.
    + rewrite He. exact vars_layout.
    + rewrite <- (Forall2_length_eq _ _ _ Htexts). cbn [List.length] in Hfuel. lia.
    + cbn [Z.to_nat firstn app List.length Z.of_nat] in Hfields.
      rewrite Z.sub_0_r, He in Hfields. rewrite Hfields. cbn [bind_fuel].
      rewrite Z.eqb_refl. cbn [negb].
      rewrite (append_element_fit (mkDataSet done vars) e) by exact He.
      cbn [bind_fuel data_elements data_variables].
      specialize (IH (done ++ [e]) l' fuel Hfit').
      rewrite <- app_assoc in IH. apply IH. cbn [List.length] in Hfuel. lia.
Qed.

End UnterminatedLine.

(** What follows the last newline of a file is not imported: the import of
    the exported file of a store the CSV format can carry, with any text
    without a newline added at its end (a further row, say), yields the
    store that was exported. *)
Theorem import_ignores_unterminated_line (Q : QuantType) (fs : filesystem) (ds : DataSet)
    (path partial : string) :
  exportable ds -> writable fs path = true ->
  all_chars (fun c => negb (Ascii.eqb c "010")) partial = true ->
  exists text : string,
    (exists fs' : filesystem,
        write_to_csv fs ds path = Ok fs' /\ files fs' path = Some text)
    /\ exists fuel0 : nat, forall fuel : nat,
         read_from_csv_template (fuel0 + fuel) (write_file fs path (text ++ partial)) path
                                (data_variables ds) true
         = Some (Ok ds).
Proof.
  intros [Hne [Hcount [Hlayout [Hfit [Hnames Hrows]]]]] Hwritable Hpartial.
  destruct ds as [es vars]. cbn [data_variables data_elements] in *.
  unfold get_element_size in Hlayout. cbn [data_variables] in Hlayout.
  destruct (rows_have_texts vars es Hrows) as [rows Htexts].
  destruct (write_header_line vars Hne Hnames) as [h [Hheader Hclean]].
  exists (h ++ String "010" (csv_text rows))%string. split.
  - eexists. split.
    + unfold write_to_csv, write_rows. rewrite Hwritable.
      cbn [negb data_variables data_elements].
      rewrite (write_rows_texts vars es rows Htexts Hne). cbn [bind]. reflexivity.
    + unfold write_file. cbn [files]. rewrite String.eqb_refl, Hheader. cbn [append].
      rewrite string_app_assoc. reflexivity.
  - exists (List.length es + List.length vars + 2)%nat. intros fuel.
    unfold read_from_csv_template, write_file. cbn [files].
    rewrite String.eqb_refl. rewrite string_app_assoc. cbn [append]. unfold istream_open.
    rewrite (getline_line _ _ h _ Hclean).
    unfold DataSet_new.
    destruct (Z.eqb_spec (Z.of_nat (List.length vars)) 0) as [H0 | _].
    { destruct vars; [congruence | simpl in H0; lia]. }
    cbn [bind_fuel]. unfold get_element_size. cbn [data_variables].
    apply (read_lines_unterminated vars _ partial Hcount Hlayout Hpartial es rows Htexts []);
      auto.
    lia.
Qed.

Lemma priced_exportable : exportable (Q := Samples.decimal4) Samples.priced.
Proof.
  assert (Hfield : forall tok : string,
             all_chars field_char tok = true -> string_size tok + 1 < SIZE_MAX -> field tok).
  { intros tok Hc Hl. split; assumption. }
  assert (Hquant : forall (e : DataElement) (v : DataVar.t) (bytes : list ascii),
             field_cells e v = Ok (map Some bytes) ->
             DataVar.data_type v = QUANTITATIVE ->
             DataVar.size v = 4 ->
             @text_bytes Samples.decimal4 (string_of_list_ascii bytes) = Ok bytes ->
             field_text (Q := Samples.decimal4) e v (string_of_list_ascii bytes)).
  { intros e v bytes Hcells Hdt Hsz Hback. exists bytes. split; [exact Hcells |].
    rewrite Hdt. split; [exact Hsz |]. split; [reflexivity | exact Hback]. }
  assert (Hcat : forall (e : DataElement) (v : DataVar.t) (bytes : list ascii),
             field_cells e v = Ok (map Some bytes) ->
             DataVar.data_type v = CATEGORICAL ->
             field_text (Q := Samples.decimal4) e v (string_of_list_ascii bytes)).
  { intros e v bytes Hcells Hdt. exists bytes. split; [exact Hcells |].
    rewrite Hdt. reflexivity. }
  assert (Hrow : forall (e : DataElement) (q c : list ascii),
             Forall2 (field_text (Q := Samples.decimal4) e) (data_variables Samples.priced)
                     [string_of_list_ascii q; string_of_list_ascii c] ->
             record [string_of_list_ascii q; string_of_list_ascii c] ->
             exists toks, row_texts (Q := Samples.decimal4)
                            (data_variables Samples.priced) e toks).
  { intros e q c Htexts Hrec. eexists. split; eassumption. }
  split; [discriminate |]. split; [vm_compute; discriminate |].
  split; [repeat split; vm_compute; congruence |].
  split; [repeat constructor |].
  split; [repeat constructor |].
  apply Forall_cons; [| apply Forall_cons; [| apply Forall_nil]].
  - apply (Hrow _ (list_ascii_of_string "3.25") (list_ascii_of_string "ab")).
    + apply Forall2_cons; [apply Hquant; reflexivity |].
      apply Forall2_cons; [apply Hcat; reflexivity | apply Forall2_nil].
    + split; [| discriminate].
      repeat (apply Forall_cons; [apply Hfield; reflexivity |]). apply Forall_nil.
  - apply (Hrow _ (list_ascii_of_string "0042") (list_ascii_of_string "cd")).
    + apply Forall2_cons; [apply Hquant; reflexivity |].
      apply Forall2_cons; [apply Hcat; reflexivity | apply Forall2_nil].
    + split; [| discriminate].
      repeat (apply Forall_cons; [apply Hfield; reflexivity |]). apply Forall_nil.
Defined.

Lemma import_ignores_unterminated_line_witness :
  exists text : string,
    (exists fs' : filesystem,
        @write_to_csv Samples.decimal4 (Samples.one_file "in.csv" "") Samples.priced "out.csv"
        = Ok fs'
        /\ files fs' "out.csv" = Some text)
    /\ exists fuel0 : nat, forall fuel : nat,
         @read_from_csv_template Samples.decimal4 (fuel0 + fuel)
           (write_file (Samples.one_file "in.csv" "") "out.csv" (text ++ "1.50,xy")) "out.csv"
           (data_variables Samples.priced) true
         = Some (Ok Samples.priced).
Proof.
  apply (import_ignores_unterminated_line Samples.decimal4 (Samples.one_file "in.csv" "")
           Samples.priced "out.csv" "1.50,xy").
  - exact priced_exportable.
  - reflexivity.
  - reflexivity.
Defined.

(** ** Files the inferring import refuses *)

(** A file with a header line but no complete data line (nothing after the
    header, or one line that no newline ends) leaves every size
    undetermined: the inferring import throws. *)
Theorem read_from_csv_no_data_line (Q : QuantType) (fs : filesystem) (path : string)
    (names : list string) (partial : string) :
  record names ->
  all_chars (fun c => negb (Ascii.eqb c "010")) partial = true ->
  files fs path = Some (csv_text [names] ++ partial)%string ->
  forall fuel : nat,
    read_from_csv (S (List.length names) + fuel) fs path
    = Some (Throw (DataIOException "Cannot determine variable sizes for CSV file.")).
Proof.
  intros Hnames Hpartial Hfile fuel. unfold read_from_csv, infer_variables.
  rewrite Hfile. unfold istream_open at 1. cbn [csv_text].
  rewrite string_app_assoc. cbn [append].
  rewrite (getline_record _ _ names _ (proj1 Hnames)).
  assert (Hne : names <> []).
  { destruct Hnames as [_ Hl]. destruct names; [contradiction | discriminate]. }
  rewrite (read_header_fields names _ _ [] _ (fields_left_open names Hne) (fun _ => Hnames))
    by lia.
  cbn [app].
  pose proof (getline_unterminated
                (join_fields names ++ String "010" partial) partial Hpartial
                (join_fields names)) as Heof.
  destruct (getline _ (join_fields names) "010") as [f l]. cbn [fst] in Heof.
  rewrite Heof. cbn [bind_fuel].
  destruct names as [| name names]; [congruence |].
  cbn [header_vars map assign_offsets DataVar.size]. rewrite Z.eqb_refl. reflexivity.
Qed.

Lemma read_from_csv_no_data_line_witness :
  @read_from_csv Samples.decimal4 (S (List.length ["n"; "w"]) + 0)
    (Samples.one_file "data.csv" (csv_text [["n"; "w"]] ++ "3.25,ab")) "data.csv"
  = Some (Throw (DataIOException "Cannot determine variable sizes for CSV file.")).
Proof.
  apply (fun Hnames Hpartial Hfile =>
           read_from_csv_no_data_line Samples.decimal4
             (Samples.one_file "data.csv" (csv_text [["n"; "w"]] ++ "3.25,ab")) "data.csv"
             ["n"; "w"] "3.25,ab" Hnames Hpartial Hfile 0%nat).
  - split; [| discriminate].
    apply Forall_cons; [split; reflexivity |].
    apply Forall_cons; [split; reflexivity | apply Forall_nil].
  - reflexivity.
  - reflexivity.
Defined.

Section WrongWidth.

Context {Q : QuantType}.

Variables (names row1 : list string) (rows1 : list (list string)).

Hypothesis names_count : Z.of_nat (List.length names) <= INT_MAX.
Hypothesis names_fields : Forall field names.
Hypothesis rows_records : Forall record (row1 :: rows1).

Local Abbreviation whole_text := (csv_text (names :: row1 :: rows1)).

Local Abbreviation width_error len :=
  (Throw (DataIOException
            (if (len <? List.length names)%nat
             then "Reading of CSV failed. Too few fields for number of variables."
             else "Reading of CSV failed. Too many fields for number of variables."))).




End WrongWidth.



(** A line with a field too many, run. *)
Example read_from_csv_too_many_fields :
  @read_from_csv Samples.decimal4 20
    (Samples.one_file "data.csv" (csv_text [["n"; "w"]; ["3.25"; "ab"; "x"]])) "data.csv"
  = Some (Throw (DataIOException
                   "Reading of CSV failed. Too many fields for number of variables.")).
Proof. vm_compute. reflexivity. Qed.
